(** * Book image library uploader: a shallow embedding and its properties

    The development follows [scripts/books/upload-book-image-library.py]:
    the storage-name sanitizer, the conversion policy, the adaptive
    size-budget loop, the stride computation of the streaming TIFF fallback,
    the upload retrier, the atomic ledger writer and the per-book driver
    loop of [main]; then the env-file parser and resolver, the URL of an
    upload, and the optimizer with its libraries as parameters.

    Conventions.
    - A Python [int] is a [Z].
    - A Python [str] is a [string]; the character [ascii] of code [n] stands
      for the code point U+00[n], so the embedding covers every string whose
      code points lie below U+0100.  Inside the sanitizer strings are handled
      as [list ascii].
    - [bytes] are lists of [N] below 256.
    - Library calls whose result the script only passes along (Pillow, the
      HTTP session, the clock, [json], SHA-256) are parameters. *)

From Stdlib Require Import ZArith NArith String Ascii Bool Lia QArith Qminmax List.
From Stdlib Require Import DecimalString Qpower.
From Equations Require Import Equations.
Import ListNotations.

Local Open Scope Z_scope.

(** ** Python string primitives *)

Module PyStr.

Definition str := list ascii.

Definition s2l (s : string) : str := list_ascii_of_string s.
Definition l2s (l : str) : string := string_of_list_ascii l.

Definition code (c : ascii) : N := N_of_ascii c.

Definition in_range (lo hi : N) (c : ascii) : bool :=
  ((lo <=? code c) && (code c <=? hi))%N.

(** [str.isspace] on one code point below U+0100. *)
Definition is_space (c : ascii) : bool :=
  in_range 9 13 c || in_range 28 32 c
  || (code c =? 133)%N || (code c =? 160)%N.

Definition is_upper_ascii (c : ascii) : bool := in_range 65 90 c.
Definition is_lower_ascii (c : ascii) : bool := in_range 97 122 c.
Definition is_digit (c : ascii) : bool := in_range 48 57 c.

(** Upper-case code points below U+0100 that [str.lower] moves:
    A-Z and U+00C0..U+00DE without U+00D7. *)
Definition has_lower (c : ascii) : bool :=
  is_upper_ascii c || (in_range 192 222 c && negb (code c =? 215)%N).

Definition lower_char (c : ascii) : ascii :=
  if has_lower c then ascii_of_N (code c + 32) else c.

Definition lower (s : str) : str := map lower_char s.

Fixpoint lstrip_by (f : ascii -> bool) (s : str) : str :=
  match s with
  | [] => []
  | c :: t => if f c then lstrip_by f t else s
  end.

Definition rstrip_by (f : ascii -> bool) (s : str) : str :=
  rev (lstrip_by f (rev s)).

Definition strip_by (f : ascii -> bool) (s : str) : str :=
  rstrip_by f (lstrip_by f s).

(** [s.strip()] *)
Definition strip (s : str) : str := strip_by is_space s.

Definition len (s : str) : Z := Z.of_nat (length s).

(** [s.rfind(c)] for a one-character needle given as a predicate: the index
    of the last match counted from [i], or -1. *)
Fixpoint rfind_from (f : ascii -> bool) (i : Z) (s : str) : Z :=
  match s with
  | [] => -1
  | c :: t =>
      let r := rfind_from f (i + 1) t in
      if 0 <=? r then r else if f c then i else -1
  end.

Definition rfind (f : ascii -> bool) (s : str) : Z := rfind_from f 0 s.

(** [s[a:b]] for [0 <= a]. *)
Definition slice (s : str) (a b : Z) : str :=
  firstn (Z.to_nat (b - a)) (skipn (Z.to_nat a) s).

Definition is_char (x : ascii) (c : ascii) : bool := Ascii.eqb c x.

(** no character of the class occurs in [s] *)
Definition none_of (f : ascii -> bool) (s : str) : bool :=
  forallb (fun c => negb (f c)) s.

Definition dot : ascii := "."%char.
Definition underscore : ascii := "_"%char.
Definition hyphen : ascii := "-"%char.

(** [re.sub(cls+, "_", s)]: every maximal run of characters of the class
    becomes one underscore; [in_run] says the previous character belonged
    to the run being replaced. *)
Fixpoint re_sub_runs (cls : ascii -> bool) (in_run : bool) (s : str) : str :=
  match s with
  | [] => []
  | c :: t =>
      if cls c
      then (if in_run then re_sub_runs cls true t
            else underscore :: re_sub_runs cls true t)
      else c :: re_sub_runs cls false t
  end.

End PyStr.

(** ** [os.path.splitext] *)

Module OsPath.
Import PyStr.

(** The script runs on either family of systems: [posixpath] has the
    separator "/" only, [ntpath] has "\" and the alternative "/". *)
Inductive flavour := Posix | Nt.

Definition is_sep (os : flavour) (c : ascii) : bool :=
  match os with
  | Posix => is_char "/"%char c
  | Nt => is_char "\"%char c || is_char "/"%char c
  end.

(** [genericpath._splitext]: the extension starts at the last dot of the
    last path component, unless only dots precede it there. *)
Definition splitext (os : flavour) (p : str) : str * str :=
  let sepIndex := rfind (is_sep os) p in
  let dotIndex := rfind (is_char dot) p in
  if sepIndex <? dotIndex then
    if existsb (fun c => negb (is_char dot c)) (slice p (sepIndex + 1) dotIndex)
    then (slice p 0 dotIndex, skipn (Z.to_nat dotIndex) p)
    else (p, [])
  else (p, []).

End OsPath.

(** ** SHA-1, as [hashlib.sha1(...).hexdigest()] computes it *)

Module Sha1.

Local Open Scope N_scope.

Definition w32 (x : N) : N := N.land x 4294967295.
Definition add32 (x y : N) : N := w32 (x + y).
Definition rotl (n x : N) : N :=
  w32 (N.lor (N.shiftl x n) (N.shiftr x (32 - n))).
Definition not32 (x : N) : N := N.lxor x 4294967295.

(** big-endian bytes of the low [k] bytes of [x] *)
Fixpoint be_bytes (k : nat) (x : N) : list N :=
  match k with
  | O => []
  | S k' => N.land (N.shiftr x (8 * N.of_nat k')) 255 :: be_bytes k' x
  end.

Definition pad (msg : list N) : list N :=
  let l := N.of_nat (length msg) in
  let zeros := (119 - l mod 64) mod 64 in
  msg ++ [128] ++ repeat 0 (N.to_nat zeros) ++ be_bytes 8 (8 * l).

Fixpoint words (fuel : nat) (bs : list N) : list N :=
  match fuel, bs with
  | S f, b0 :: b1 :: b2 :: b3 :: t =>
      (b0 * 16777216 + b1 * 65536 + b2 * 256 + b3) :: words f t
  | _, _ => []
  end.

Fixpoint chunks16 (fuel : nat) (ws : list N) : list (list N) :=
  match fuel with
  | O => []
  | S f =>
      match ws with
      | [] => []
      | _ => firstn 16 ws :: chunks16 f (skipn 16 ws)
      end
  end.

Definition state := (N * N * N * N * N)%type.

Definition round_fk (t : nat) (b c d : N) : N * N :=
  if (t <? 20)%nat then (N.lor (N.land b c) (N.land (not32 b) d), 1518500249)
  else if (t <? 40)%nat then (N.lxor (N.lxor b c) d, 1859775393)
  else if (t <? 60)%nat then
    (N.lor (N.lor (N.land b c) (N.land b d)) (N.land c d), 2400959708)
  else (N.lxor (N.lxor b c) d, 3395469782).

(** One round; [win] holds the sixteen schedule words w[t..t+15]. *)
Definition round (t : nat) (sw : state * list N) : state * list N :=
  let '((a, b, c, d, e), win) := sw in
  let w := nth 0 win 0 in
  let '(f, k) := round_fk t b c d in
  let tmp := add32 (add32 (add32 (add32 (rotl 5 a) f) e) k) w in
  let next :=
    rotl 1 (N.lxor (N.lxor (N.lxor (nth 13 win 0) (nth 8 win 0)) (nth 2 win 0)) w) in
  ((tmp, a, rotl 30 b, c, d), tl win ++ [next]).

Definition compress (h : state) (block : list N) : state :=
  let '(a, b, c, d, e) := h in
  let '((a', b', c', d', e'), _) :=
    fold_left (fun sw t => round t sw) (seq 0 80) (h, block) in
  (add32 a a', add32 b b', add32 c c', add32 d d', add32 e e').

Definition init : state :=
  (1732584193, 4023233417, 2562383102, 271733878, 3285377520).

Definition digest (msg : list N) : list N :=
  let p := pad msg in
  let ws := words (length p) p in
  let '(a, b, c, d, e) := fold_left compress (chunks16 (length ws) ws) init in
  be_bytes 4 a ++ be_bytes 4 b ++ be_bytes 4 c ++ be_bytes 4 d ++ be_bytes 4 e.

Definition hex_digit (n : N) : ascii :=
  if n <? 10 then ascii_of_N (48 + n) else ascii_of_N (87 + n).

Definition hex_of_bytes (bs : list N) : list ascii :=
  flat_map (fun b => [hex_digit (b / 16); hex_digit (b mod 16)]) bs.

Definition hexdigest (msg : list N) : list ascii := hex_of_bytes (digest msg).

End Sha1.

(** [s.encode("utf-8")] for code points below U+0100. *)
Definition utf8_encode (s : PyStr.str) : list N :=
  flat_map (fun c =>
    let n := PyStr.code c in
    if (n <? 128)%N then [n] else [(192 + n / 64)%N; (128 + n mod 64)%N]) s.

(** ** The name sanitizer *)

Module Sanitizer.
Import PyStr OsPath.

(** the class [A-Za-z0-9._-] *)
Definition allowed (c : ascii) : bool :=
  is_upper_ascii c || is_lower_ascii c || is_digit c
  || is_char dot c || is_char underscore c || is_char hyphen c.

(** the characters of [.strip("._-")] *)
Definition is_trim (c : ascii) : bool :=
  is_char dot c || is_char underscore c || is_char hyphen c.

Definition file_lit : str := s2l "file".

(** Lines 178-181: the base after both substitutions and the trim. *)
Definition clean_base (base : str) : str :=
  let safe_base := re_sub_runs (fun c => negb (allowed c)) false base in
  let safe_base := strip_by is_trim (re_sub_runs (is_char underscore) false safe_base) in
  match safe_base with [] => file_lit | _ => safe_base end.

Definition hash10 (raw : str) : str :=
  firstn 10 (Sha1.hexdigest (utf8_encode raw)).

Definition sanitize (os : flavour) (max_len : Z) (name : str) : str :=
  let raw := strip name in
  let raw := match raw with [] => file_lit | _ => raw end in
  let '(base, ext) := splitext os raw in
  let ext := lower ext in
  let safe_base := clean_base base in
  let max_base := Z.max 16 (max_len - len ext) in
  let safe_base :=
    if max_base <? len safe_base then
      let h := hash10 raw in
      let keep := Z.max 8 (max_base - (len h + 1)) in
      firstn (Z.to_nat keep) safe_base ++ [underscore] ++ h
    else safe_base in
  safe_base ++ ext.

(** the test of line 185 on its own: does the name get the hash suffix? *)
Definition truncates (os : flavour) (max_len : Z) (name : str) : bool :=
  let raw := strip name in
  let raw := match raw with [] => file_lit | _ => raw end in
  let '(base, ext) := splitext os raw in
  Z.max 16 (max_len - len (lower ext)) <? len (clean_base base).

Definition safe_storage_filename_len (os : flavour) (name : string) (max_len : Z) : string :=
  l2s (sanitize os max_len (s2l name)).

(** the default [max_len = 180] *)
Definition safe_storage_filename (os : flavour) (name : string) : string :=
  safe_storage_filename_len os name 180.

End Sanitizer.

(** Shapes of strings used to state what the sanitizer guarantees. *)

Module Shape.
Import PyStr Sanitizer.

(** the first character, if any, is outside the class *)
Definition head_ok (f : ascii -> bool) (s : str) : bool :=
  match s with [] => true | c :: _ => negb (f c) end.

(** the same for the last character *)
Definition last_ok (f : ascii -> bool) (s : str) : bool := head_ok f (rev s).

(** no two underscores in a row *)
Fixpoint no_uu (s : str) : bool :=
  match s with
  | c :: t =>
      match t with
      | d :: _ => negb (is_char underscore c && is_char underscore d) && no_uu t
      | [] => true
      end
  | [] => true
  end.

(** what lines 178-181 establish of the base *)
Definition is_clean (s : str) : Prop :=
  s <> [] /\ forallb allowed s = true /\ no_uu s = true
  /\ head_ok is_trim s = true /\ last_ok is_trim s = true.

(** a lower-case hexadecimal digit *)
Definition hex_char (c : ascii) : Prop :=
  exists n, (n < 16)%N /\ c = Sha1.hex_digit n.

(** Of a name that is truncated: at least 19 characters are left for the
    base (so that the kept part and the hash suffix fit), and the kept part
    of the base does not end in an underscore. *)
Definition clean_cut (os : OsPath.flavour) (max_len : Z) (name : str) : bool :=
  let raw := strip name in
  let raw := match raw with [] => file_lit | _ => raw end in
  let '(base, ext) := OsPath.splitext os raw in
  let max_base := Z.max 16 (max_len - len (lower ext)) in
  let keep := Z.max 8 (max_base - (len (hash10 raw) + 1)) in
  (19 <=? max_base)
  && last_ok (is_char underscore) (firstn (Z.to_nat keep) (clean_base base)).

End Shape.

(** ** Exceptions and results *)

Module Py.

(** What the script tells classes of exceptions apart by: the retrier
    catches [requests.RequestException] and [RuntimeError] (and their
    subclasses), [except Exception] catches all three kinds. *)
Inductive exn_kind := KRequestException | KRuntimeError | KOtherException.

(** The text of a message, with the values the f-strings insert kept apart. *)
Inductive message :=
| Text (s : string)
| FailedToConvert (last_err_type : string)
| StillTooLarge (nbytes : Z)
| UploadFailed (status : Z) (text : string).

Record exn := { e_kind : exn_kind; e_type : string; e_msg : message }.

Definition RuntimeError (m : message) : exn :=
  {| e_kind := KRuntimeError; e_type := "RuntimeError"; e_msg := m |}.

(** How a block of statements ends: normally with a value, with an
    exception, or in [sys.exit(code)]. *)
Inductive Res (A : Type) :=
| Val (a : A)
| Exc (e : exn)
| SysExit (code : Z).
Arguments Val {A} a.
Arguments Exc {A} e.
Arguments SysExit {A} code.

Definition blen (b : list N) : Z := Z.of_nat (length b).

End Py.

(** ** The optimizer's result and the adaptive size-budget loop *)

Module Budget.
Import Py.

Record OptimizedImage := {
  output_bytes : list N;
  output_ext : string;
  width : Z;
  height : Z;
  mode : string
}.

(** One call of [optimize_image]: it returns an image or raises. *)
Inductive attempt := Returned (img : OptimizedImage) | Raised (e : exn).

(** [int(cur_px * 0.85)]: the float product, truncated.  For [cur_px] below
    2^53 in absolute value this is the exact quotient [cur_px * 17 / 20]
    rounded towards zero. *)
Definition scale_px (cur_px : Z) : Z := Z.quot (cur_px * 17) 20.

Definition shrink_px (cur_px : Z) : Z := Z.max 800 (scale_px cur_px).
Definition shrink_q (cur_q : Z) : Z := Z.max 65 (cur_q - 4).

(** The variables of lines 579-582. *)
Record vars := {
  cur_px : Z;
  cur_q : Z;
  last_err : option exn;
  opt : option OptimizedImage
}.

Section Loop.

(** [optimize_image(path, max_px=.., jpeg_quality=.., alpha_mode=..)] for the
    file at hand, as a function of the two arguments the loop varies. *)
Variable optimize_image : Z -> Z -> attempt.
Variable max_bytes : Z.

(** [for _ in range(n)] of lines 583-596; [tried] collects the arguments of
    the calls made so far. *)
Fixpoint budget_loop (n : nat) (v : vars) (tried : list (Z * Z))
  : vars * list (Z * Z) :=
  match n with
  | O => (v, tried)
  | S n' =>
      let tried' := tried ++ [(cur_px v, cur_q v)] in
      match optimize_image (cur_px v) (cur_q v) with
      | Returned o =>
          if blen (output_bytes o) <=? max_bytes
          then ({| cur_px := cur_px v; cur_q := cur_q v;
                   last_err := last_err v; opt := Some o |}, tried')
          else budget_loop n'
                 {| cur_px := shrink_px (cur_px v); cur_q := shrink_q (cur_q v);
                    last_err := last_err v; opt := Some o |} tried'
      | Raised e =>
          budget_loop n'
            {| cur_px := shrink_px (cur_px v); cur_q := shrink_q (cur_q v);
               last_err := Some e; opt := opt v |} tried'
      end
  end.

End Loop.

(** Lines 578-603: the loop and the two checks behind it.  The result comes
    with the arguments of all calls of the optimizer. *)
Definition convert_within_budget
    (optimize_image : Z -> Z -> attempt) (max_upload_mb max_px jpeg_quality : Z)
  : Res OptimizedImage * list (Z * Z) :=
  let max_bytes := max_upload_mb * 1024 * 1024 in
  let '(v, tried) :=
    budget_loop optimize_image max_bytes 8
      {| cur_px := max_px; cur_q := jpeg_quality; last_err := None; opt := None |} [] in
  match opt v with
  | None =>
      (Exc (RuntimeError (FailedToConvert
              match last_err v with Some e => e_type e | None => "unknown" end)),
       tried)
  | Some o =>
      if max_bytes <? blen (output_bytes o)
      then (Exc (RuntimeError (StillTooLarge (blen (output_bytes o)))), tried)
      else (Val o, tried)
  end.

End Budget.

(** ** The strides of the streaming TIFF fallback *)

Module Tiff.

(** [int(math.ceil(a / float(b)))] for [b > 0] *)
Definition ceil_div (a b : Z) : Z := - ((- a) / b).

(** Lines 331-332. *)
Definition stride (extent max_px : Z) : Z := Z.max 1 (ceil_div extent max_px).

(** [l[0:len(l):step]]: the elements at 0, step, 2*step, ...; [wait] counts
    down to the next element kept. *)
Fixpoint every_nth {A} (step wait : nat) (l : list A) : list A :=
  match l with
  | [] => []
  | x :: t =>
      match wait with
      | O => x :: every_nth step (step - 1) t
      | S w => every_nth step w t
      end
  end.

(** [l[0:stop:step]] *)
Definition strided {A} (l : list A) (stop step : Z) : list A :=
  every_nth (Z.to_nat step) 0 (firstn (Z.to_nat stop) l).

(** Lines 331-338: the two strides and
    [arr[0:height:step_y, 0:width:step_x]], for a page of shape
    [(height, width)]. *)
Definition sample {A} (arr : list (list A)) (height width max_px : Z)
  : list (list A) :=
  let step_y := stride height max_px in
  let step_x := stride width max_px in
  map (fun row => strided row width step_x) (strided arr height step_y).

End Tiff.

(** ** Effects: the trace of a run *)

Module World.
Import Py.

(** The arguments of one [storage_upload] call. *)
Record request := {
  rq_bucket : string;
  rq_object_path : string;
  rq_content_type : string;
  rq_body : list N;
  rq_upsert : bool;
  rq_timeout_s : Z
}.

(** What [session.post] does: it answers or raises. *)
Inductive post_result :=
| Response (status_code : Z) (text : string)
| PostRaises (e : exn).

Inductive stream := Stdout | Stderr.

(** The lines the script prints, with the values of their f-strings. *)
Inductive log_line :=
| LBook (book_slug : string) (nfiles : Z)
| LResumeSkip (i n : Z)
| LDryRun (i n : Z)
| LWarnRetry (attempt retries : Z) (err : exn)
| LErrUpload (book_slug original_name : string) (err : exn)
| LUploaded (i n : Z)
| LDryRunIndex (index_path : string)
| LUploadedIndex (index_path : string).

(** File operations, as fine as a crash can tell them apart: [write_text]
    opens (and empties) the file, then the text arrives piece by piece;
    [replace] is the one atomic rename. *)
Inductive fs_op :=
| MkdirParents (of_path : string)
| Truncate (path : string)
| Append (path : string) (c : ascii)
| Replace (src dst : string).

Inductive event :=
| EvPost (rq : request) (r : post_result)
| EvSleep (seconds : Q)
| EvPrint (to : stream) (line : log_line)
| EvFs (op : fs_op).

Definition history := list event.

(** A block of statements: given what happened so far it tells what happens
    next and how the block ends. *)
Definition M (A : Type) := history -> list event * Res A.

Definition ret {A} (a : A) : M A := fun _ => ([], Val a).

Definition bind {A B} (m : M A) (f : A -> M B) : M B :=
  fun h =>
    let '(e1, r) := m h in
    match r with
    | Val a => let '(e2, r2) := f a (h ++ e1) in (e1 ++ e2, r2)
    | Exc e => (e1, Exc e)
    | SysExit c => (e1, SysExit c)
    end.

Definition emit (e : event) : M unit := fun _ => ([e], Val tt).
Definition raise {A} (e : exn) : M A := fun _ => ([], Exc e).
Definition sys_exit {A} (code : Z) : M A := fun _ => ([], SysExit code).
Definition lift {A} (r : Res A) : M A := fun _ => ([], r).
Definition when (b : bool) (m : M unit) : M unit := if b then m else ret tt.

(** [try: m  except Exception as e: handler e] *)
Definition try_except {A} (m : M A) (handler : exn -> M A) : M A :=
  fun h =>
    let '(e1, r) := m h in
    match r with
    | Exc e => let '(e2, r2) := handler e (h ++ e1) in (e1 ++ e2, r2)
    | _ => (e1, r)
    end.

Declare Scope py_scope.
Delimit Scope py_scope with py.
Notation "x <- m ;; k" := (bind m (fun x => k))
  (at level 100, m at next level, right associativity) : py_scope.
Notation "m ;;; k" := (bind m (fun _ => k))
  (at level 100, right associativity) : py_scope.

(** *** The files a trace leaves behind *)

Definition fs := string -> option string.

Definition fs_set (m : fs) (p : string) (v : option string) : fs :=
  fun q => if String.eqb q p then v else m q.

Definition apply_fs_op (m : fs) (op : fs_op) : fs :=
  match op with
  | MkdirParents _ => m
  | Truncate p => fs_set m p (Some EmptyString)
  | Append p c =>
      fs_set m p (Some (match m p with Some t => t | None => EmptyString end
                        ++ String c EmptyString)%string)
  | Replace src dst => fs_set (fs_set m dst (m src)) src None
  end.

Definition apply_event (m : fs) (e : event) : fs :=
  match e with EvFs op => apply_fs_op m op | _ => m end.

(** the file system after the events of [es] *)
Definition fs_after (m : fs) (es : list event) : fs := fold_left apply_event es m.

End World.

(** ** The upload transport and the retrier *)

Module Retrier.
Import Py World.
Local Open Scope py_scope.

(** [except (requests.RequestException, RuntimeError)] *)
Definition retryable (e : exn) : bool :=
  match e_kind e with
  | KRequestException | KRuntimeError => true
  | KOtherException => false
  end.

(** [min(60.0, 1.5 ** attempt)].  The power is a double: up to [attempt = 10]
    it is exact and below 60, from 11 on it is above 60, and from 1751 on it
    is out of range and Python raises [OverflowError]. *)
Definition backoff (attempt : Z) : option Q :=
  if attempt <? 1751 then Some (Qmin 60 (Qpower (3 # 2) attempt)) else None.

Definition OverflowError : exn :=
  {| e_kind := KOtherException; e_type := "OverflowError";
     e_msg := Text "(34, 'Numerical result out of range')" |}.

Section Transport.

(** [session.post(url, headers=.., data=body, timeout=..)], whose outcome may
    depend on everything that happened before. *)
Variable session_post : history -> request -> post_result.

(** Lines 386-407. *)
Definition storage_upload (rq : request) : M unit :=
  fun h =>
    let r := session_post h rq in
    ([EvPost rq r],
     match r with
     | Response status_code text =>
         if 400 <=? status_code
         then Exc (RuntimeError (UploadFailed status_code (substring 0 300 text)))
         else Val tt
     | PostRaises e => Exc e
     end).

(** Lines 422-444: the [while True] loop, from the value [attempt] has at the
    top of an iteration. *)
Equations? retry_loop (rq : request) (retries attempt : Z) (h : history)
  : list event * Res unit by wf (Z.to_nat (retries - attempt)) lt :=
  retry_loop rq retries attempt h with storage_upload rq h := {
    | (ev, Exc e) with retryable e := {
        | false := (ev, Exc e)
        | true with Z_lt_dec retries (attempt + 1) := {
            | left _ := (ev, Exc e)
            | right _ with backoff (attempt + 1) := {
                | None := (ev, Exc OverflowError)
                | Some sleep_s :=
                    let ev1 :=
                      ev ++ [EvPrint Stderr (LWarnRetry (attempt + 1) retries e);
                             EvSleep sleep_s] in
                    let '(ev2, r) := retry_loop rq retries (attempt + 1) (h ++ ev1) in
                    (ev1 ++ ev2, r) } } }
    | (ev, r) := (ev, r) }.
Proof. lia. Qed.

Definition storage_upload_with_retries (rq : request) (retries : Z) : M unit :=
  retry_loop rq retries 0.

End Transport.

(** How one [storage_upload] ends, given what [session.post] did. *)
Definition outcome_of (r : post_result) : Res unit :=
  match r with
  | Response status_code text =>
      if 400 <=? status_code
      then Exc (RuntimeError (UploadFailed status_code (substring 0 300 text)))
      else Val tt
  | PostRaises e => Exc e
  end.


Definition is_post (e : event) : bool :=
  match e with EvPost _ _ => true | _ => false end.

(** the transport calls of a trace *)
Definition posts (es : list event) : list event := filter is_post es.

(** the seconds slept in a trace, in order *)
Definition sleeps (es : list event) : list Q :=
  flat_map (fun e => match e with EvSleep d => [d] | _ => [] end) es.


End Retrier.

(** ** JSON values and Python dictionaries *)

Module Json.

(** A [dict] with string keys: the items in insertion order, no key twice. *)
Definition dict (V : Type) := list (string * V).

Fixpoint dict_get {V} (d : dict V) (k : string) : option V :=
  match d with
  | [] => None
  | (k', v) :: t => if String.eqb k k' then Some v else dict_get t k
  end.

(** [d[k] = v]: a present key keeps its place, a new one goes last *)
Fixpoint dict_set {V} (d : dict V) (k : string) (v : V) : dict V :=
  match d with
  | [] => [(k, v)]
  | (k', v') :: t =>
      if String.eqb k k' then (k', v) :: t else (k', v') :: dict_set t k v
  end.

Definition dict_has {V} (d : dict V) (k : string) : bool :=
  match dict_get d k with Some _ => true | None => false end.

#[warnings="-register-all"] Inductive json :=
| JNull
| JBool (b : bool)
| JInt (z : Z)
| JFloat (repr : string)
| JStr (s : string)
| JArr (items : list json)
| JObj (members : dict json).

End Json.

(** ** The pipeline driver *)

Module Driver.
Import Py World Retrier Json Budget PyStr OsPath Sanitizer.
Local Open Scope string_scope.
Local Open Scope Z_scope.
Local Open Scope py_scope.

Inductive alpha_mode := AlphaPng | AlphaFlattenWhiteJpeg.

Definition alpha_mode_name (m : alpha_mode) : string :=
  match m with AlphaPng => "png" | AlphaFlattenWhiteJpeg => "flatten-white-jpeg" end.

(** The parsed command line, as far as the per-book loop reads it. *)
Record args := {
  a_bucket : string;
  a_prefix : string;
  a_max_px : Z;
  a_jpeg_quality : Z;
  a_max_upload_mb : Z;
  a_convert_all : bool;
  a_alpha_mode : alpha_mode;
  a_upsert : bool;
  a_timeout_s : Z;
  a_retries : Z;
  a_state_dir : string;
  a_no_resume : bool;
  a_limit : Z;
  a_dry_run : bool
}.

(** One entry of the images directory: its name, what [stat] says of its
    size and what [read_bytes] returns ([None]: the call raises). *)
Record local_file := {
  f_name : string;
  f_stat_size : option Z;
  f_bytes : option (list N)
}.

Definition OSError : exn :=
  {| e_kind := KOtherException; e_type := "OSError"; e_msg := Text "" |}.

Definition AttributeError : exn :=
  {| e_kind := KOtherException; e_type := "AttributeError";
     e_msg := Text "object has no attribute 'get'" |}.

Definition read_bytes (f : local_file) : M (list N) :=
  match f_bytes f with Some b => ret b | None => raise OSError end.

(** [PurePath.suffix] of a file name *)
Definition path_suffix (name : string) : string :=
  let n := s2l name in
  let i := rfind (is_char dot) n in
  if (0 <? i) && (i <? len n - 1) then l2s (skipn (Z.to_nat i) n) else "".

(** [path.suffix.lower().lstrip(".")] *)
Definition ext_of (name : string) : string :=
  l2s (lstrip_by (is_char dot) (lower (s2l (path_suffix name)))).

Definition mem (x : string) (l : list string) : bool := existsb (String.eqb x) l.

Definition SUPPORTED_PRESERVE_EXTS : list string :=
  ["jpg"; "jpeg"; "png"; "webp"; "gif"; "svg"].
Definition CONVERT_FROM_EXTS : list string := ["tif"; "tiff"; "psd"].

(** Lines 193-209. *)
Definition mime_for_ext (ext : string) : string :=
  let e := l2s (lstrip_by (is_char dot) (lower (s2l ext))) in
  if mem e ["jpg"; "jpeg"] then "image/jpeg"
  else if (e =? "png")%string then "image/png"
  else if (e =? "webp")%string then "image/webp"
  else if (e =? "gif")%string then "image/gif"
  else if (e =? "svg")%string then "image/svg+xml"
  else if mem e ["tif"; "tiff"] then "image/tiff"
  else if (e =? "psd")%string then "image/vnd.adobe.photoshop"
  else "application/octet-stream".

(** Lines 212-221.  [st_size / (1024 * 1024) > max_upload_mb] compares a
    quotient by a power of two, which is exact, with an integer. *)
Definition should_convert (f : local_file) (max_upload_mb : Z) : bool :=
  if mem (ext_of (f_name f)) CONVERT_FROM_EXTS then true
  else match f_stat_size f with
       | None => true
       | Some st_size => (max_upload_mb * (1024 * 1024) <? st_size)
       end.

(** Lines 556-560. *)
Definition do_convert (a : args) (f : local_file) : bool :=
  a_convert_all a
  || should_convert f (a_max_upload_mb a)
  || negb (mem (ext_of (f_name f)) SUPPORTED_PRESERVE_EXTS).

(** Which branch of lines 570-616 a file takes. *)
Inductive route := PreserveSvg | Optimize | PreserveAsIs.

Definition route_of (a : args) (f : local_file) : route :=
  if (ext_of (f_name f) =? "svg")%string && negb (do_convert a f) then PreserveSvg
  else if do_convert a f then Optimize
  else PreserveAsIs.

(** [str(n)] *)
Definition str_of_int (n : Z) : string := NilEmpty.string_of_int (Z.to_int n).

(** What lines 570-616 compute for a file. *)
Record prepared := {
  p_body : list N;
  p_output_ext : string;
  p_object_name : string;
  p_content_type : string;
  p_width : option Z;
  p_height : option Z;
  p_mode : option string
}.

(** The variables the loop over the files of a book updates. *)
Record loop_state := {
  uploaded_by_original : dict json;
  entries : list json;
  srcMap : dict string;
  used_names : dict Z;
  total_uploaded : Z
}.

(** The manifest of a book. *)
Record index := {
  ix_bookSlug : string;
  ix_generatedAt : string;
  ix_maxPx : Z;
  ix_jpegQuality : Z;
  ix_alphaMode : string;
  ix_entries : list json;
  ix_srcMap : dict string
}.

(** What a book leaves behind: its manifest, the count of uploads and the
    ledger as it stands in memory. *)
Record book_result := {
  br_index : index;
  br_total_uploaded : Z;
  br_ledger : dict json
}.

Definition index_json (ix : index) : json :=
  JObj [("bookSlug", JStr (ix_bookSlug ix));
        ("generatedAt", JStr (ix_generatedAt ix));
        ("maxPx", JInt (ix_maxPx ix));
        ("jpegQuality", JInt (ix_jpegQuality ix));
        ("alphaMode", JStr (ix_alphaMode ix));
        ("entries", JArr (ix_entries ix));
        ("srcMap", JObj (map (fun kv => (fst kv, JStr (snd kv))) (ix_srcMap ix)))].

(** Lines 676-680. *)
Definition state_json (book_slug updatedAt : string) (ubo : dict json) : json :=
  JObj [("bookSlug", JStr book_slug);
        ("updatedAt", JStr updatedAt);
        ("uploadedByOriginal", JObj ubo)].

(** [state_dir / f"{book_slug}.json"] *)
Definition state_path (a : args) (book_slug : string) : string :=
  a_state_dir a ++ "/" ++ book_slug ++ ".json".

(** [path.with_suffix(path.suffix + ".tmp")]: the old suffix is cut off and
    put back, followed by ".tmp" *)
Definition tmp_path (path : string) : string := path ++ ".tmp".

(** Lines 628-642. *)
Definition make_entry (original_name object_name object_path : string)
    (original_size : Z) (body : list N) (output_ext content_type sha : string)
    (w h : option Z) (mode : option string) : json :=
  JObj (([("originalName", JStr original_name);
         ("storedName", JStr object_name);
         ("storagePath", JStr object_path);
         ("originalBytes", JInt original_size);
         ("storedBytes", JInt (blen body));
         ("storedExt", JStr output_ext);
         ("storedMime", JStr content_type);
         ("storedSha256", JStr sha)]
        ++ match w, h with
           | Some w, Some h =>
               if negb (w =? 0) && negb (h =? 0)
               then [("width", JInt w); ("height", JInt h)] else []
           | _, _ => []
           end
        ++ match mode with
           | Some m => if (m =? "")%string then [] else [("mode", JStr m)]
           | None => []
           end)%list).

(** Lines 541-543: the ledger entry that lets a file be skipped. *)
Definition resume_entry (ubo : dict json) (original_name : string)
  : option (json * string) :=
  match dict_get ubo original_name with
  | Some (JObj members) =>
      match dict_get members "storagePath" with
      | Some (JStr p) => Some (JObj members, p)
      | _ => None
      end
  | _ => None
  end.

(** Lines 512-518: the ledger as loaded at the start of a book.  [file] is
    [None] when the state file does not exist, [Some None] when reading or
    parsing it raises, and [Some (Some j)] when it parses to [j]. *)
Definition load_state (resume_enabled : bool) (file : option (option json)) : json :=
  if resume_enabled then
    match file with
    | Some (Some j) => j
    | Some None => JObj []
    | None => JObj []
    end
  else JObj [].

(** [state.get(key)] raises when [state] is no dictionary. *)
Definition json_get (state : json) (key : string) : Res (option json) :=
  match state with
  | JObj members => Val (dict_get members key)
  | _ => Exc AttributeError
  end.

Definition load_uploaded_by_original (state : json) : M (dict json) :=
  r <- lift (json_get state "uploadedByOriginal") ;;
  match r with
  | Some (JObj members) => ret members
  | _ => ret []
  end.

Section Run.

Variable os : flavour.
Variable session_post : history -> request -> post_result.
(** [time.strftime("%Y-%m-%dT%H:%M:%SZ", time.gmtime())] *)
Variable now : history -> string.
Variable optimize_image : local_file -> Z -> Z -> alpha_mode -> attempt.
(** [hashlib.sha256(b).hexdigest()] *)
Variable sha256_hex : list N -> string.
(** [json.dumps(obj, ensure_ascii=False, indent=2)] *)
Variable dumps : json -> string.

Definition strftime_now : M string := fun h => ([], Val (now h)).

(** Lines 446-450: the parent directory is made, the text is written to
    the temporary file, and that file replaces [path]. *)
Definition write_events (path : string) (obj : json) : list event :=
  let tmp := tmp_path path in
  (EvFs (MkdirParents path) :: EvFs (Truncate tmp)
     :: map (fun c => EvFs (Append tmp c)) (s2l (dumps obj)))
  ++ [EvFs (Replace tmp path)].

Definition write_json_atomic (path : string) (obj : json) : M unit :=
  fun _ => (write_events path obj, Val tt).

(** Lines 570-616. *)
Definition prepare (a : args) (f : local_file) : M prepared :=
  let original_name := f_name f in
  let ext := ext_of original_name in
  match route_of a f with
  | PreserveSvg =>
      body <- read_bytes f ;;
      ret {| p_body := body; p_output_ext := "svg";
             p_object_name := safe_storage_filename os original_name;
             p_content_type := "image/svg+xml";
             p_width := None; p_height := None; p_mode := None |}
  | Optimize =>
      o <- lift (fst (convert_within_budget
                        (fun px q => optimize_image f px q (a_alpha_mode a))
                        (a_max_upload_mb a) (a_max_px a) (a_jpeg_quality a))) ;;
      let output_ext := output_ext o in
      let object_name :=
        if (output_ext =? ext)%string then original_name
        else original_name ++ "." ++ output_ext in
      ret {| p_body := output_bytes o; p_output_ext := output_ext;
             p_object_name := safe_storage_filename os object_name;
             p_content_type := mime_for_ext output_ext;
             p_width := Some (width o); p_height := Some (height o);
             p_mode := Some (mode o) |}
  | PreserveAsIs =>
      body <- read_bytes f ;;
      ret {| p_body := body; p_output_ext := ext;
             p_object_name := safe_storage_filename os original_name;
             p_content_type := mime_for_ext ext;
             p_width := None; p_height := None; p_mode := None |}
  end.

(** Lines 618-624: the name under which the object is stored, and the
    counters after it. *)
Definition unique_name (used : dict Z) (object_name : string) : string * dict Z :=
  match dict_get used object_name with
  | Some n =>
      let used' := dict_set used object_name (n + 1) in
      let '(base, ext2) := splitext os (s2l object_name) in
      (safe_storage_filename os
         (l2s base ++ "__dup" ++ str_of_int (n + 1) ++ l2s ext2), used')
  | None => (object_name, dict_set used object_name 0)
  end.

Definition asset_request (a : args) (object_path content_type : string)
    (body : list N) : request :=
  {| rq_bucket := a_bucket a; rq_object_path := object_path;
     rq_content_type := content_type; rq_body := body;
     rq_upsert := a_upsert a; rq_timeout_s := a_timeout_s a |}.

Definition progress (i n every : Z) : bool := ((i mod every =? 0) || (i =? n)).

(** Lines 541-548: a file the ledger lists is taken over from it. *)
Definition skip_file (nfiles i : Z) (original_name : string)
    (entry : json) (storage_path : string) (st : loop_state) : M loop_state :=
  when (progress i nfiles 50) (emit (EvPrint Stdout (LResumeSkip i nfiles))) ;;;
  ret {| uploaded_by_original := uploaded_by_original st;
         entries := (entries st ++ [entry])%list;
         srcMap := dict_set (srcMap st) original_name storage_path;
         used_names := used_names st;
         total_uploaded := total_uploaded st |}.

(** Lines 653-671: the upload; a failure is reported and ends the run. *)
Definition upload_or_exit (a : args) (book_slug original_name : string)
    (rq : request) : M unit :=
  try_except
    (storage_upload_with_retries session_post rq (a_retries a))
    (fun e =>
       emit (EvPrint Stderr (LErrUpload book_slug original_name e)) ;;;
       sys_exit 1).

(** Lines 673-681: the ledger gets the entry and is written out. *)
Definition persist (a : args) (book_slug : string) (resume_enabled : bool)
    (ubo : dict json) (original_name : string) (entry : json) : M (dict json) :=
  if resume_enabled then
    let ubo' := dict_set ubo original_name entry in
    t <- strftime_now ;;
    write_json_atomic (state_path a book_slug) (state_json book_slug t ubo') ;;;
    ret ubo'
  else ret ubo.

(** Lines 618-684: a prepared file is named, entered in the manifest,
    uploaded and entered in the ledger. *)
Definition deliver (a : args) (book_slug : string) (resume_enabled : bool)
    (nfiles i : Z) (f : local_file) (st : loop_state) (p : prepared)
  : M loop_state :=
  let original_name := f_name f in
  let original_size := match f_stat_size f with Some n => n | None => 0 end in
  let '(object_name, used') := unique_name (used_names st) (p_object_name p) in
  let object_path := a_prefix a ++ "/" ++ book_slug ++ "/images/" ++ object_name in
  let entry :=
    make_entry original_name object_name object_path original_size (p_body p)
      (p_output_ext p) (p_content_type p) (sha256_hex (p_body p))
      (p_width p) (p_height p) (p_mode p) in
  let entries' := (entries st ++ [entry])%list in
  let srcMap' := dict_set (srcMap st) original_name object_path in
  if a_dry_run a then
    when (progress i nfiles 25) (emit (EvPrint Stdout (LDryRun i nfiles))) ;;;
    ret {| uploaded_by_original := uploaded_by_original st;
           entries := entries'; srcMap := srcMap';
           used_names := used'; total_uploaded := total_uploaded st |}
  else
    upload_or_exit a book_slug original_name
      (asset_request a object_path (p_content_type p) (p_body p)) ;;;
    ubo' <- persist a book_slug resume_enabled (uploaded_by_original st)
              original_name entry ;;
    when (progress i nfiles 25) (emit (EvPrint Stdout (LUploaded i nfiles))) ;;;
    ret {| uploaded_by_original := ubo';
           entries := entries'; srcMap := srcMap';
           used_names := used'; total_uploaded := total_uploaded st + 1 |}.

(** Lines 538-684: the body of the loop over the files, for the [i]-th of
    [nfiles] files. *)
Definition process_file (a : args) (book_slug : string) (resume_enabled : bool)
    (nfiles i : Z) (f : local_file) (st : loop_state) : M loop_state :=
  match (if resume_enabled
         then resume_entry (uploaded_by_original st) (f_name f) else None) with
  | Some (entry, storage_path) =>
      skip_file nfiles i (f_name f) entry storage_path st
  | None =>
      p <- prepare a f ;;
      deliver a book_slug resume_enabled nfiles i f st p
  end.

(** [for i, path in enumerate(files, start=i)] *)
Fixpoint process_files (a : args) (book_slug : string) (resume_enabled : bool)
    (nfiles i : Z) (files : list local_file) (st : loop_state) : M loop_state :=
  match files with
  | [] => ret st
  | f :: rest =>
      st' <- process_file a book_slug resume_enabled nfiles i f st ;;
      process_files a book_slug resume_enabled nfiles (i + 1) rest st'
  end.

(** [files[: args.limit]] when a limit is set *)
Definition limit_files (a : args) (files : list local_file) : list local_file :=
  if (0 <? a_limit a) then firstn (Z.to_nat (a_limit a)) files else files.

Definition index_request (a : args) (index_path : string) (body : list N) : request :=
  {| rq_bucket := a_bucket a; rq_object_path := index_path;
     rq_content_type := "application/json"; rq_body := body;
     rq_upsert := true; rq_timeout_s := a_timeout_s a |}.

Definition index_path (a : args) (book_slug : string) : string :=
  a_prefix a ++ "/" ++ book_slug ++ "/images-index.json".

(** Lines 504-704: one book whose [images] directory exists; [ledger_file]
    is what the state file holds (see [load_state]), [listing] the files of
    the directory, [total] the uploads counted so far. *)
Definition run_book (a : args) (total : Z) (book_slug : string)
    (ledger_file : option (option json)) (listing : list local_file)
  : M book_result :=
  let resume_enabled := negb (a_no_resume a) && negb (a_dry_run a) in
  let state := load_state resume_enabled ledger_file in
  ubo <- load_uploaded_by_original state ;;
  let files := limit_files a listing in
  let nfiles := Z.of_nat (length files) in
  emit (EvPrint Stdout (LBook book_slug nfiles)) ;;;
  generatedAt <- strftime_now ;;
  st <- process_files a book_slug resume_enabled nfiles 1 files
          {| uploaded_by_original := ubo; entries := []; srcMap := [];
             used_names := []; total_uploaded := total |} ;;
  let ix := {| ix_bookSlug := book_slug; ix_generatedAt := generatedAt;
               ix_maxPx := a_max_px a; ix_jpegQuality := a_jpeg_quality a;
               ix_alphaMode := alpha_mode_name (a_alpha_mode a);
               ix_entries := entries st; ix_srcMap := srcMap st |} in
  let index_bytes := utf8_encode (s2l (dumps (index_json ix))) in
  (if a_dry_run a then emit (EvPrint Stdout (LDryRunIndex (index_path a book_slug)))
   else
     storage_upload_with_retries session_post
       (index_request a (index_path a book_slug) index_bytes) (a_retries a) ;;;
     emit (EvPrint Stdout (LUploadedIndex (index_path a book_slug)))) ;;;
  ret {| br_index := ix; br_total_uploaded := total_uploaded st;
         br_ledger := uploaded_by_original st |}.

End Run.

End Driver.

(** ** What the ledger claims are stated with *)

Module LedgerSpec.
Import Py World Retrier Json Driver.
Local Open Scope string_scope.
Local Open Scope Z_scope.

(** Does the event write, remove or rename the file [path]? *)
Definition touches (path : string) (e : event) : bool :=
  match e with
  | EvFs (Truncate p) => (p =? path)%string
  | EvFs (Append p _) => (p =? path)%string
  | EvFs (Replace src dst) => (src =? path)%string || (dst =? path)%string
  | _ => false
  end.

Definition is_fs (e : event) : bool :=
  match e with EvFs _ => true | _ => false end.

Definition entry_field (entry : json) (key : string) : option json :=
  match entry with JObj members => dict_get members key | _ => None end.

(** The ledger as the loop starts with it (line 518), when loading it does
    not raise. *)
Definition initial_ledger (resume_enabled : bool) (ledger_file : option (option json))
  : dict json :=
  match load_state resume_enabled ledger_file with
  | JObj members =>
      match dict_get members "uploadedByOriginal" with
      | Some (JObj d) => d
      | _ => []
      end
  | _ => []
  end.

(** What the events of one retried upload are: no file is touched, every
    call carries the same request, success means an answer below 400, and
    the upload never ends the process by itself. *)
Definition net_trace (rq : request) (ev : list event) (r : Res unit) : Prop :=
  Forall (fun e => is_fs e = false) ev
  /\ (forall rq' res, In (EvPost rq' res) ev -> rq' = rq)
  /\ (r = Val tt ->
      exists status text, In (EvPost rq (Response status text)) ev /\ status < 400)
  /\ (forall c, r <> SysExit c).

Section Spec.

Variable sha256_hex : list N -> string.
Variable dumps : json -> string.

(** Among the events [p] there is a transport call that was answered with a
    status below 400 and that carried the object [entry] describes for the
    file [name]. *)
Definition uploaded_ok (p : list event) (name : string) (entry : json) : Prop :=
  exists rq status text,
    In (EvPost rq (Response status text)) p
    /\ status < 400
    /\ entry_field entry "originalName" = Some (JStr name)
    /\ entry_field entry "storagePath" = Some (JStr (rq_object_path rq))
    /\ entry_field entry "storedBytes" = Some (JInt (blen (rq_body rq)))
    /\ entry_field entry "storedSha256" = Some (JStr (sha256_hex (rq_body rq))).

(** Every entry of [L] was in the ledger [L0] loaded at the start or
    records an upload that succeeded among the events [p]. *)
Definition ledger_sound (L0 L : dict json) (p : list event) : Prop :=
  forall name entry,
    dict_get L name = Some entry ->
    dict_get L0 name = Some entry \/ uploaded_ok p name entry.

(** What the state file may hold after the events [p]: what it held before,
    or one complete document whose ledger is sound. *)
Definition ledger_file_ok (book_slug : string) (L0 : dict json)
    (before after : option string) (p : list event) : Prop :=
  after = before
  \/ exists t L,
       after = Some (dumps (state_json book_slug t L))
       /\ ledger_sound L0 L p.

(** The events of one file: events that leave the state file alone, with
    at most one complete [write_json_atomic] among them, which comes after
    the successful upload of the entry it adds. *)
Definition chunk_ok (a : args) (book_slug : string) (ubo : dict json)
    (name : string) (ev : list event) (r : Res loop_state) : Prop :=
  exists pre w post : list event,
    ev = (pre ++ w ++ post)%list
    /\ Forall (fun e => is_fs e = false) pre
    /\ Forall (fun e => is_fs e = false) post
    /\ ((w = [] /\ forall st', r = Val st' -> uploaded_by_original st' = ubo)
        \/ exists t entry,
             w = write_events dumps (state_path a book_slug)
                   (state_json book_slug t (dict_set ubo name entry))
             /\ uploaded_ok pre name entry
             /\ forall st', r = Val st' ->
                  uploaded_by_original st' = dict_set ubo name entry).

(** Only the temporary file is written; the state file is only ever the
    target of a rename from it. *)
Definition writes_via_tmp (path : string) (e : event) : Prop :=
  match e with
  | EvFs (Truncate p) => p = tmp_path path
  | EvFs (Append p _) => p = tmp_path path
  | EvFs (Replace src dst) => src = tmp_path path /\ dst = path
  | _ => True
  end.

End Spec.



Definition storage_path_of (entry : json) : string :=
  match entry_field entry "storagePath" with
  | Some (JStr p) => p
  | _ => EmptyString
  end.

(** an entry line 543 accepts *)
Definition valid_entry (entry : json) : Prop :=
  exists members p,
    entry = JObj members /\ dict_get members "storagePath" = Some (JStr p).



End LedgerSpec.

(** ** Concrete inputs for the examples *)

Module Inputs.
Import Py World Retrier Json Budget Tiff Driver PyStr OsPath.
Local Open Scope string_scope.

(** 168 times "a", an underscore, 12 times "b": 181 characters *)
Definition long_name : string :=
  l2s (repeat "a"%char 168 ++ [underscore] ++ repeat "b"%char 12)%list.

(** 200 times "a" and ".PNG": truncated, with a clean cut *)
Definition long_png : string :=
  l2s (repeat "a"%char 200 ++ s2l ".PNG")%list.

(** an optimizer whose every result has two bytes *)
Definition two_bytes (px q : Z) : attempt :=
  Returned {| output_bytes := [0%N; 0%N]; output_ext := "jpg";
              width := px; height := px; mode := "RGB" |}.



Definition some_request : request :=
  {| rq_bucket := "books"; rq_object_path := "library/b/images/a.png";
     rq_content_type := "image/png"; rq_body := [1%N]; rq_upsert := false;
     rq_timeout_s := 600%Z |}.

Definition UnidentifiedImageError : exn :=
  {| e_kind := KOtherException; e_type := "UnidentifiedImageError";
     e_msg := Text "cannot identify image file" |}.

(** the command line [--convert-all], all else at its default *)
Definition convert_all_args : args :=
  {| a_bucket := "books"; a_prefix := "library"; a_max_px := 3000;
     a_jpeg_quality := 85; a_max_upload_mb := 40; a_convert_all := true;
     a_alpha_mode := AlphaPng; a_upsert := false; a_timeout_s := 600;
     a_retries := 5; a_state_dir := "tmp/book-images-upload-state";
     a_no_resume := false; a_limit := 0; a_dry_run := false |}.

(** a three-byte file [c.svg] *)
Definition small_svg : local_file :=
  {| f_name := "c.svg"; f_stat_size := Some 3%Z; f_bytes := Some [60%N; 115%N; 62%N] |}.

(** "tmp/s/bk.json" holds the ledger of the one file "a.png" *)
Definition listed_png : dict json :=
  [("a.png", JObj [("originalName", JStr "a.png");
                   ("storagePath", JStr "library/bk/images/a.png")])].

Definition default_args : args :=
  {| a_bucket := "books"; a_prefix := "library"; a_max_px := 3000;
     a_jpeg_quality := 85; a_max_upload_mb := 40; a_convert_all := false;
     a_alpha_mode := AlphaPng; a_upsert := false; a_timeout_s := 600;
     a_retries := 5; a_state_dir := "tmp/s";
     a_no_resume := false; a_limit := 0; a_dry_run := false |}.

Definition a_png : local_file :=
  {| f_name := "a.png"; f_stat_size := Some 1%Z; f_bytes := Some [7%N] |}.

(** a transport that always answers 200, a clock that stands still, an
    optimizer that is never asked, a one-word hash and serializer *)
Definition post_ok : history -> request -> post_result := fun _ _ => Response 200 "".
Definition noon : history -> string := fun _ => "2024-01-01T12:00:00Z".
Definition no_optimizer : local_file -> Z -> Z -> alpha_mode -> attempt :=
  fun _ _ _ _ => Raised OSError.
Definition sha_stub : list N -> string := fun _ => "00".
Definition dumps_stub : json -> string := fun _ => "{}".

End Inputs.

(** ** Parts of a name, to state what the sanitizer yields *)

Module NameParts.
Import PyStr OsPath Sanitizer.

(** [raw] as line 175 sees it: the stripped name, or "file" (lines 169-171) *)
Definition raw_of (name : str) : str :=
  match strip name with [] => file_lit | _ => strip name end.

(** the extension the result ends in (lines 175-176) *)
Definition stored_ext (os : flavour) (name : str) : str :=
  lower (snd (splitext os (raw_of name))).

(** a letter of A-Z or a-z, or a digit *)
Definition is_alnum (c : ascii) : bool :=
  is_upper_ascii c || is_lower_ascii c || is_digit c.

End NameParts.

(** ** Events of a trace told apart *)

Module Traces.
Import Py World Retrier.

(** a transport call that was answered with a status below 400 *)
Definition is_ok_post (e : event) : bool :=
  match e with
  | EvPost _ (Response status_code _) => status_code <? 400
  | _ => false
  end.

Definition ok_posts (es : list event) : list event := filter is_ok_post es.

(** a line printed to standard output *)
Definition is_stdout_print (e : event) : bool :=
  match e with EvPrint Stdout _ => true | _ => false end.

End Traces.

(** ** More concrete inputs *)

Module MoreInputs.
Import Py World Retrier Json Budget Driver PyStr OsPath.
Local Open Scope string_scope.


(** the command line [--dry-run], and [--no-resume] *)
Definition dry_run_args : args :=
  {| a_bucket := "books"; a_prefix := "library"; a_max_px := 3000;
     a_jpeg_quality := 85; a_max_upload_mb := 40; a_convert_all := false;
     a_alpha_mode := AlphaPng; a_upsert := false; a_timeout_s := 600;
     a_retries := 5; a_state_dir := "tmp/s";
     a_no_resume := false; a_limit := 0; a_dry_run := true |}.

Definition no_resume_args : args :=
  {| a_bucket := "books"; a_prefix := "library"; a_max_px := 3000;
     a_jpeg_quality := 85; a_max_upload_mb := 40; a_convert_all := false;
     a_alpha_mode := AlphaPng; a_upsert := false; a_timeout_s := 600;
     a_retries := 5; a_state_dir := "tmp/s";
     a_no_resume := true; a_limit := 0; a_dry_run := false |}.



End MoreInputs.

(** ** The ways through the loop body *)

Module Steps.
Import Py World Retrier Json Budget Driver PyStr OsPath Sanitizer.
Local Open Scope string_scope.
Local Open Scope Z_scope.

Section Run.

Variable os : flavour.
Variable session_post : history -> request -> post_result.
Variable now : history -> string.
Variable optimize_image : local_file -> Z -> Z -> alpha_mode -> attempt.
Variable sha256_hex : list N -> string.
Variable dumps : json -> string.

Variable a : args.
Variable book_slug : string.
Variable resume_enabled : bool.
Variable nfiles : Z.

(** The names of lines 618-642 for a prepared file, given the state the
    loop is in. *)
Definition stored_name (st : loop_state) (p : prepared) : string :=
  fst (unique_name os (used_names st) (p_object_name p)).

Definition object_path_of (st : loop_state) (p : prepared) : string :=
  a_prefix a ++ "/" ++ book_slug ++ "/images/" ++ stored_name st p.

Definition entry_of (f : local_file) (st : loop_state) (p : prepared) : json :=
  make_entry (f_name f) (stored_name st p) (object_path_of st p)
    (match f_stat_size f with Some n => n | None => 0 end) (p_body p)
    (p_output_ext p) (p_content_type p) (sha256_hex (p_body p))
    (p_width p) (p_height p) (p_mode p).

Definition request_of (st : loop_state) (p : prepared) : request :=
  asset_request a (object_path_of st p) (p_content_type p) (p_body p).

(** the state after lines 645-646, with the ledger and the count given *)
Definition entered (f : local_file) (st : loop_state) (p : prepared)
    (ubo : dict json) (total : Z) : loop_state :=
  {| uploaded_by_original := ubo;
     entries := (entries st ++ [entry_of f st p])%list;
     srcMap := dict_set (srcMap st) (f_name f) (object_path_of st p);
     used_names := snd (unique_name os (used_names st) (p_object_name p));
     total_uploaded := total |}.

(** the test of lines 541-543 fails *)
Definition not_listed (f : local_file) (st : loop_state) : Prop :=
  (if resume_enabled then resume_entry (uploaded_by_original st) (f_name f) else None)
  = None.

(** one retried upload, somewhere in a run *)
Definition uploads (rq : request) (ev : list event) (r : Res unit) : Prop :=
  exists h, storage_upload_with_retries session_post rq (a_retries a) h = (ev, r).

(** The five ways the [i]-th pass through the loop body can go, with the
    events of each and the way it ends. *)
Inductive file_step (i : Z) (f : local_file) (st : loop_state)
  : list event -> Res loop_state -> Prop :=
| StepSkip entry sp :
    resume_enabled = true ->
    resume_entry (uploaded_by_original st) (f_name f) = Some (entry, sp) ->
    file_step i f st
      (if progress i nfiles 50 then [EvPrint Stdout (LResumeSkip i nfiles)] else [])
      (Val {| uploaded_by_original := uploaded_by_original st;
              entries := (entries st ++ [entry])%list;
              srcMap := dict_set (srcMap st) (f_name f) sp;
              used_names := used_names st;
              total_uploaded := total_uploaded st |})
| StepPrepareRaises e :
    not_listed f st ->
    prepare os optimize_image a f [] = ([], Exc e) ->
    file_step i f st [] (Exc e)
| StepDryRun p :
    not_listed f st ->
    prepare os optimize_image a f [] = ([], Val p) ->
    a_dry_run a = true ->
    file_step i f st
      (if progress i nfiles 25 then [EvPrint Stdout (LDryRun i nfiles)] else [])
      (Val (entered f st p (uploaded_by_original st) (total_uploaded st)))
| StepUploaded p uev t :
    not_listed f st ->
    prepare os optimize_image a f [] = ([], Val p) ->
    a_dry_run a = false ->
    uploads (request_of st p) uev (Val tt) ->
    file_step i f st
      (uev
       ++ (if resume_enabled
           then write_events dumps (state_path a book_slug)
                  (state_json book_slug t
                     (dict_set (uploaded_by_original st) (f_name f) (entry_of f st p)))
           else [])
       ++ (if progress i nfiles 25 then [EvPrint Stdout (LUploaded i nfiles)] else []))%list
      (Val (entered f st p
              (if resume_enabled
               then dict_set (uploaded_by_original st) (f_name f) (entry_of f st p)
               else uploaded_by_original st)
              (total_uploaded st + 1)))
| StepUploadFails p uev e :
    not_listed f st ->
    prepare os optimize_image a f [] = ([], Val p) ->
    a_dry_run a = false ->
    uploads (request_of st p) uev (Exc e) ->
    file_step i f st
      (uev ++ [EvPrint Stderr (LErrUpload book_slug (f_name f) e)])%list
      (SysExit 1).

(** The loop over the files as a chain of such steps. *)
Inductive files_run : Z -> list local_file -> loop_state
                      -> list event -> Res loop_state -> Prop :=
| RunDone i st : files_run i [] st [] (Val st)
| RunStep i f rest st ev1 st1 ev2 r :
    file_step i f st ev1 (Val st1) ->
    files_run (i + 1) rest st1 ev2 r ->
    files_run i (f :: rest) st (ev1 ++ ev2)%list r
| RunStop i f rest st ev1 r :
    file_step i f st ev1 r ->
    (forall st1, r <> Val st1) ->
    files_run i (f :: rest) st ev1 r.

End Run.

(** the manifest of lines 526-534 once the loop has filled it *)
Definition manifest_of (a : args) (book_slug generatedAt : string) (st : loop_state)
  : index :=
  {| ix_bookSlug := book_slug; ix_generatedAt := generatedAt;
     ix_maxPx := a_max_px a; ix_jpegQuality := a_jpeg_quality a;
     ix_alphaMode := alpha_mode_name (a_alpha_mode a);
     ix_entries := entries st; ix_srcMap := srcMap st |}.

Definition result_of (a : args) (book_slug generatedAt : string) (st : loop_state)
  : book_result :=
  {| br_index := manifest_of a book_slug generatedAt st;
     br_total_uploaded := total_uploaded st;
     br_ledger := uploaded_by_original st |}.

(** the upload of lines 692-703 *)
Definition manifest_request (dumps : json -> string) (a : args) (book_slug : string)
    (ix : index) : request :=
  index_request a (index_path a book_slug) (utf8_encode (s2l (dumps (index_json ix)))).

(** the state the loop over the files starts in *)
Definition start_state (ubo : dict json) (total : Z) : loop_state :=
  {| uploaded_by_original := ubo; entries := []; srcMap := []; used_names := [];
     total_uploaded := total |}.

End Steps.

(** ** What a book's manifest is meant to be *)

Module Plan.
Import Py World Json Budget Driver OsPath LedgerSpec Steps.

Section Run.

Variable os : flavour.
Variable optimize_image : local_file -> Z -> Z -> alpha_mode -> attempt.
Variable sha256_hex : list N -> string.
Variable a : args.
Variable book_slug : string.

(** what lines 570-616 prepare for a file, if they do not raise *)
Definition planned (f : local_file) : option prepared :=
  match snd (prepare os optimize_image a f []) with
  | Val p => Some p
  | _ => None
  end.

(** The path and the entry of lines 626-642 for a file whose object name
    is not taken by another file of the book. *)
Definition planned_path (f : local_file) : string :=
  match planned f with
  | Some p => object_path_of os a book_slug (start_state [] 0) p
  | None => EmptyString
  end.

Definition planned_entry (f : local_file) : json :=
  match planned f with
  | Some p => entry_of os sha256_hex a book_slug f (start_state [] 0) p
  | None => JNull
  end.

(** no two files of different names are prepared under one object name *)
Definition distinct_object_names (files : list local_file) : Prop :=
  forall f g p q,
    In f files -> In g files -> planned f = Some p -> planned g = Some q ->
    p_object_name p = p_object_name q -> f_name f = f_name g.

(** the entries line 543 accepts for the files are the planned ones *)
Definition ledger_as_planned (files : list local_file) (ubo : dict json) : Prop :=
  forall f e,
    In f files -> dict_get ubo (f_name f) = Some e -> valid_entry e ->
    e = planned_entry f.

(** the names taken so far are object names of files worked off *)
Definition taken_by (done : list local_file) (used : dict Z) : Prop :=
  forall k, dict_has used k = true ->
    exists g q, In g done /\ planned g = Some q /\ p_object_name q = k.

End Run.

End Plan.

(** ** Secrets from the environment and from env files *)

Module Env.
Import PyStr Json.
Local Open Scope string_scope.

(** the line boundaries of [str.splitlines] below U+0100 *)
Definition is_linebreak (c : ascii) : bool :=
  in_range 10 13 c || in_range 28 30 c || (code c =? 133)%N.

(** [s.splitlines()]; [cur] holds the line being read, last character
    first.  A carriage return followed by a line feed is one boundary. *)
Fixpoint splitlines_from (cur : str) (s : str) : list str :=
  match s with
  | [] => match cur with [] => [] | _ => [rev cur] end
  | c :: t =>
      if is_linebreak c then
        rev cur ::
        match t with
        | d :: t' =>
            if (code c =? 13)%N && (code d =? 10)%N
            then splitlines_from [] t' else splitlines_from [] t
        | [] => []
        end
      else splitlines_from (c :: cur) t
  end.

Definition splitlines (s : str) : list str := splitlines_from [] s.

Definition hash_sign : ascii := "#"%char.
Definition equals_sign : ascii := "="%char.
Definition single_quote : ascii := "'"%char.
Definition double_quote : ascii := ascii_of_N 34.

(** [not line or line.startswith("#")] *)
Definition blank_or_comment (line : str) : bool :=
  match line with
  | [] => true
  | c :: _ => is_char hash_sign c
  end.

(** [line.split("=", 1)] when "=" occurs in [line] *)
Fixpoint split_eq (line : str) : option (str * str) :=
  match line with
  | [] => None
  | c :: t =>
      if is_char equals_sign c then Some ([], t)
      else match split_eq t with
           | Some (k, v) => Some (c :: k, v)
           | None => None
           end
  end.

(** Lines 74-83: one line of the first pass. *)
Definition key_value_line (out : dict string) (raw : str) : dict string :=
  let line := strip raw in
  if blank_or_comment line then out
  else match split_eq line with
       | None => out
       | Some (k, v) =>
           let key := strip k in
           let val := strip_by (is_char single_quote)
                        (strip_by (is_char double_quote) (strip v)) in
           match key, val with
           | _ :: _, _ :: _ => dict_set out (l2s key) (l2s val)
           | _, _ => out
           end
       end.

(** Lines 73-83. *)
Definition key_value_pass (lines : list str) : dict string :=
  fold_left key_value_line lines [].

Fixpoint starts_with (p s : str) : bool :=
  match p, s with
  | [], _ => true
  | a :: p', b :: s' => Ascii.eqb a b && starts_with p' s'
  | _ :: _, [] => false
  end.

(** [p in s] *)
Fixpoint contains (p s : str) : bool :=
  starts_with p s
  || match s with
     | [] => false
     | _ :: t => contains p t
     end.

(** [if label in line and key not in out: out[key] = nxt] *)
Definition fill (label key : string) (line nxt : str) (out : dict string) : dict string :=
  if contains (s2l label) line && negb (dict_has out key)
  then dict_set out key (l2s nxt) else out.

(** Lines 87-104: one line of the second pass, with the line after it. *)
Definition heading_line (raw next : str) (out : dict string) : dict string :=
  let line := lower (strip raw) in
  if blank_or_comment line then out
  else
    let nxt := strip next in
    match nxt with
    | [] => out
    | _ :: _ =>
        fill "supabase token" "SUPABASE_ACCESS_TOKEN" line nxt
          (fill "service role key" "SUPABASE_SERVICE_ROLE_KEY" line nxt
             (fill "anon public" "SUPABASE_ANON_KEY" line nxt
                (fill "project url" "SUPABASE_URL" line nxt out)))
    end.

(** Lines 86-104; the last line has no line after it. *)
Fixpoint heading_pass (lines : list str) (out : dict string) : dict string :=
  match lines with
  | raw :: rest =>
      match rest with
      | next :: _ => heading_pass rest (heading_line raw next out)
      | [] => out
      end
  | [] => out
  end.

(** Lines 59-106; [content] is [None] when [read_text] raises. *)
Definition _parse_dotenv_file (content : option string) : dict string :=
  match content with
  | None => []
  | Some text =>
      let lines := splitlines (s2l text) in
      heading_pass lines (key_value_pass lines)
  end.

(** a candidate file: [None] when it does not exist, else what reading it
    gives *)
Definition env_file := option (option string).

(** [v and v.strip()], giving [v.strip()] *)
Definition usable (v : option string) : option string :=
  match v with
  | None => None
  | Some s => match strip (s2l s) with
              | [] => None
              | _ :: _ => Some (l2s (strip (s2l s)))
              end
  end.

(** Lines 113-116. *)
Definition from_environ (environ : string -> option string) (required : list string)
  : dict string :=
  fold_left (fun resolved k =>
               match usable (environ k) with
               | Some v => dict_set resolved k v
               | None => resolved
               end) required [].

(** Lines 125-130. *)
Definition from_file (data : dict string) (required : list string)
    (resolved : dict string) : dict string :=
  fold_left (fun resolved k =>
               if dict_has resolved k then resolved
               else match usable (dict_get data k) with
                    | Some v => dict_set resolved k v
                    | None => resolved
                    end) required resolved.

(** Lines 119-130, over the candidate files in their order. *)
Fixpoint from_files (files : list env_file) (required : list string)
    (resolved : dict string) : dict string :=
  match files with
  | [] => resolved
  | file :: rest =>
      if forallb (dict_has resolved) required then resolved
      else match file with
           | None => from_files rest required resolved
           | Some content =>
               from_files rest required
                 (from_file (_parse_dotenv_file content) required resolved)
           end
  end.

(** How [resolve_env] ends: it returns the dictionary, or it prints the
    missing names and leaves with [sys.exit(1)]. *)
Inductive env_result :=
| Resolved (resolved : dict string)
| Blocked (missing : list string).

(** Lines 109-138. *)
Definition resolve_env (environ : string -> option string) (files : list env_file)
    (required : list string) : env_result :=
  let resolved := from_files files required (from_environ environ required) in
  let missing := filter (fun k => negb (dict_has resolved k)) required in
  match missing with
  | [] => Resolved resolved
  | _ :: _ => Blocked missing
  end.

End Env.

(** Shapes of dictionaries used to state what the env functions yield. *)

Module EnvShape.
Import PyStr Json Env.
Local Open Scope string_scope.

(** no entry of the dictionary has an empty key or an empty value *)
Definition filled (d : dict string) : Prop :=
  Forall (fun kv => fst kv <> "" /\ snd kv <> "") d.

(** the names the second pass can fill *)
Definition heading_keys : list string :=
  ["SUPABASE_URL"; "SUPABASE_ANON_KEY"; "SUPABASE_SERVICE_ROLE_KEY"; "SUPABASE_ACCESS_TOKEN"].

(** a value as [resolve_env] stores it: not empty, nothing to strip *)
Definition stripped_value (v : string) : Prop :=
  v <> "" /\ l2s (strip (s2l v)) = v.

(** What a dictionary on the way holds: stripped values under required
    names, and the value of the environment where that is usable. *)
Definition well_resolved (environ : string -> option string) (required : list string)
    (d : dict string) : Prop :=
  forall k v, dict_get d k = Some v ->
    In k required /\ stripped_value v
    /\ (forall w, usable (environ k) = Some w -> v = w).

End EnvShape.

Module EnvInputs.
Import PyStr Json Env.
Local Open Scope string_scope.

Definition nl : string := String (ascii_of_N 10) EmptyString.

(** a file in both styles *)
Definition sample_env : string :=
  "# local" ++ nl ++ "SUPABASE_URL = 'https://x.supabase.co'" ++ nl
  ++ "Service role key" ++ nl ++ "  secret  " ++ nl.

Definition no_environ : string -> option string := fun _ => None.

End EnvInputs.

(** ** The request of [storage_upload] *)

Module Url.
Import PyStr World.
Local Open Scope string_scope.

Definition slash : ascii := "/"%char.
Definition percent : ascii := "%"%char.
Definition tilde : ascii := "~"%char.

(** the characters [urllib.parse.quote] never escapes *)
Definition always_safe (c : ascii) : bool :=
  is_upper_ascii c || is_lower_ascii c || is_digit c
  || is_char underscore c || is_char dot c || is_char hyphen c || is_char tilde c.

(** an upper-case hexadecimal digit, as in "%2F" *)
Definition hex_upper (n : N) : ascii :=
  if (n <? 10)%N then ascii_of_N (48 + n) else ascii_of_N (55 + n).

Definition quote_byte (b : N) : str :=
  if (b <? 128)%N && (always_safe (ascii_of_N b) || is_char slash (ascii_of_N b))
  then [ascii_of_N b]
  else [percent; hex_upper (b / 16); hex_upper (b mod 16)].

(** [quote(s, safe="/")]: the UTF-8 bytes of [s], each kept or escaped *)
Definition quote (s : str) : str := flat_map quote_byte (utf8_encode s).

(** Line 398. *)
Definition upload_url (supabase_url : string) (rq : request) : string :=
  l2s (rstrip_by (is_char slash) (s2l supabase_url))
  ++ "/storage/v1/object/" ++ rq_bucket rq ++ "/"
  ++ l2s (quote (s2l (rq_object_path rq))).

(** a character a URL path may hold as it is, or the escape sign *)
Definition url_char (c : ascii) : bool :=
  always_safe c || is_char slash c || is_char percent c.

End Url.

Module UrlInputs.
Import PyStr OsPath Sanitizer World.
Local Open Scope string_scope.

(** the upload of a file "Fig 3-1 (final).TIF" that is preserved *)
Definition fig_request : request :=
  {| rq_bucket := "books";
     rq_object_path := "library/bk/images/"
                       ++ safe_storage_filename_len Posix "Fig 3-1 (final).TIF" 180;
     rq_content_type := "image/tiff"; rq_body := []; rq_upsert := false;
     rq_timeout_s := 600 |}.

End UrlInputs.

(** ** The optimizer, with Pillow and the TIFF packages as parameters *)

Module Optimizer.
Import Py Budget Driver Tiff PyStr.
Local Open Scope string_scope.
Local Open Scope Z_scope.

(** a library call: it raises or returns *)
Definition call (A : Type) := (exn + A)%type.

Definition and_then {A B} (x : call A) (k : A -> call B) : call B :=
  match x with
  | inl e => inl e
  | inr a => k a
  end.

Declare Scope call_scope.
Delimit Scope call_scope with call.
Notation "x <~ m ;; k" := (and_then m (fun x => k))
  (at level 100, m at next level, right associativity) : call_scope.

(** [except UnidentifiedImageError] *)
Definition is_unidentified (e : exn) : bool := (e_type e =? "UnidentifiedImageError")%string.

Definition blocked_packages : exn :=
  RuntimeError (Text "BLOCKED: TIFF streaming fallback requires python packages: tifffile, zarr, numpy (and imagecodecs for compressed TIFFs).").

Definition unsupported_shape : exn := RuntimeError (Text "Unsupported TIFF shape").

Definition ZeroDivisionError : exn :=
  {| e_kind := KOtherException; e_type := "ZeroDivisionError";
     e_msg := Text "float division by zero" |}.

Section Libraries.

(** A Pillow image, and what the script reads of it. *)
Variable img : Type.
Variable im_mode : img -> string.
Variable getbands : img -> list string.
Variable im_size : img -> Z * Z.

(** [Image.open(path)] followed by [ImageOps.exif_transpose] *)
Variable open_transposed : local_file -> call img.
Variable convert : img -> string -> call img.
(** [im.thumbnail((max_px, max_px), LANCZOS)] *)
Variable thumbnail : img -> Z -> call img.
(** a white RGB image of the same size with [im] pasted through its last band *)
Variable flatten_on_white : img -> call img.
Variable save_jpeg : img -> Z -> call (list N).
Variable save_png : img -> call (list N).

(** [tifffile], [zarr] and [numpy] can be imported *)
Variable have_packages : bool.
(** the shape of the first page; its samples as rows of pixels of samples
    (a page of two dimensions has one sample per pixel) *)
Variable read_shape : local_file -> call (list Z).
Variable read_array : local_file -> call (list (list (list Z))).
(** lines 346-354, 363 and 372-373 for one pixel: the RGB samples *)
Variable cmyk_to_rgb : list Z -> list Z.
Variable rgb_of_three : list Z -> list Z.
Variable rgb_of_gray : Z -> list Z.
(** [Image.fromarray(rgb, mode="RGB")] saved as JPEG *)
Variable encode_rgb : list (list (list Z)) -> Z -> call (list N).

Local Open Scope call_scope.

(** Lines 301-378, for pages of two or three dimensions. *)
Definition optimize_tiff_streaming (f : local_file) (max_px jpeg_quality : Z)
  : call OptimizedImage :=
  if negb have_packages then inl blocked_packages
  else
    shape <~ read_shape f ;;
    match shape with
    | h :: w :: more =>
        let samples := match more with s :: _ => s | [] => 1 end in
        if max_px =? 0 then inl ZeroDivisionError
        else
          arr <~ read_array f ;;
          let sampled := sample arr h w max_px in
          let rgb :=
            if 4 <=? samples then map (map (fun px => cmyk_to_rgb (firstn 4 px))) sampled
            else if samples =? 3 then map (map (fun px => rgb_of_three (firstn 3 px))) sampled
            else map (map (fun px => rgb_of_gray (hd 0 px))) sampled in
          let out_w := Z.of_nat (length (hd [] rgb)) in
          let out_h := Z.of_nat (length rgb) in
          b <~ encode_rgb rgb jpeg_quality ;;
          inr {| output_bytes := b; output_ext := "jpg";
                 width := out_w; height := out_h; mode := "RGB" |}
    | _ => inl unsupported_shape
    end.

(** [("A" in im.getbands()) or (im.mode in ("LA", "RGBA"))] *)
Definition has_alpha (im : img) : bool :=
  mem "A" (getbands im) || mem (im_mode im) ["LA"; "RGBA"].

(** The body of the [try] of lines 238-291. *)
Definition with_pillow (f : local_file) (max_px jpeg_quality : Z) (alpha : alpha_mode)
  : call OptimizedImage :=
  im0 <~ open_transposed f ;;
  im <~ (if has_alpha im0
         then (if negb (im_mode im0 =? "RGBA")%string then convert im0 "RGBA" else inr im0)
         else (if negb (im_mode im0 =? "RGB")%string then convert im0 "RGB" else inr im0)) ;;
  let '(w, h) := im_size im in
  im <~ (if max_px <? Z.max w h then thumbnail im max_px else inr im) ;;
  let '(out_w, out_h) := im_size im in
  if has_alpha im0 then
    match alpha with
    | AlphaFlattenWhiteJpeg =>
        bg <~ flatten_on_white im ;;
        b <~ save_jpeg bg jpeg_quality ;;
        inr {| output_bytes := b; output_ext := "jpg";
               width := out_w; height := out_h; mode := "RGB" |}
    | AlphaPng =>
        b <~ save_png im ;;
        inr {| output_bytes := b; output_ext := "png";
               width := out_w; height := out_h; mode := im_mode im |}
    end
  else
    b <~ save_jpeg im jpeg_quality ;;
    inr {| output_bytes := b; output_ext := "jpg";
           width := out_w; height := out_h; mode := im_mode im |}.

Definition attempt_of (r : call OptimizedImage) : attempt :=
  match r with
  | inl e => Raised e
  | inr o => Returned o
  end.

(** Lines 233-298. *)
Definition optimize_image (f : local_file) (max_px jpeg_quality : Z) (alpha : alpha_mode)
  : attempt :=
  match with_pillow f max_px jpeg_quality alpha with
  | inr o => Returned o
  | inl e =>
      if is_unidentified e then
        if mem (ext_of (f_name f)) ["tif"; "tiff"]
        then attempt_of (optimize_tiff_streaming f max_px jpeg_quality)
        else Raised e
      else Raised e
  end.

End Libraries.

End Optimizer.

Module OptimizerInputs.
Import Py Budget Driver Optimizer Inputs MoreInputs.
Local Open Scope string_scope.

(** A stand-in for the libraries: an image is its mode and its size, every
    file opens as an RGBA image of 4 by 2, and encoders give one byte. *)
Definition toy_image : Type := (string * (Z * Z))%type.

Definition toy_optimize : local_file -> Z -> Z -> alpha_mode -> attempt :=
  optimize_image toy_image fst (fun _ => ["R"; "G"; "B"; "A"]) snd
    (fun _ => inr ("RGBA", (4, 2)%Z))
    (fun im m => inr (m, snd im))
    (fun im px => inr (fst im, (px, px / 2)%Z))
    (fun im => inr ("RGB", snd im))
    (fun _ _ => inr [255%N])
    (fun _ => inr [137%N])
    false (fun _ => inl OSError) (fun _ => inl OSError)
    (fun px => px) (fun px => px) (fun g => [g; g; g])
    (fun _ _ => inr [255%N]).


End OptimizerInputs.

(* ================================================================== *)
(** * Properties *)
(* ================================================================== *)

(** ** Facts about characters *)

Module CharFacts.
Import PyStr OsPath Sanitizer.

Ltac all_chars c :=
  destruct c as [[] [] [] [] [] [] [] []]; vm_compute; try reflexivity; try congruence.

Lemma lower_char_idem c : lower_char (lower_char c) = lower_char c.
Proof. all_chars c. Qed.

Lemma is_space_lower_char c : is_space (lower_char c) = is_space c.
Proof. all_chars c. Qed.

Lemma is_dot_lower_char c : is_char dot (lower_char c) = is_char dot c.
Proof. all_chars c. Qed.

Lemma is_sep_lower_char os c : is_sep os (lower_char c) = is_sep os c.
Proof. destruct os; all_chars c. Qed.

Lemma allowed_not_space c : allowed c = true -> is_space c = false.
Proof. all_chars c. Qed.

Lemma allowed_not_sep os c : allowed c = true -> is_sep os c = false.
Proof. destruct os; all_chars c. Qed.

Lemma is_trim_dot c : is_char dot c = true -> is_trim c = true.
Proof. all_chars c. Qed.

Lemma is_trim_underscore c : is_char underscore c = true -> is_trim c = true.
Proof. all_chars c. Qed.

Lemma is_char_eq x c : is_char x c = true -> c = x.
Proof. unfold is_char. intros H. now apply Ascii.eqb_eq in H. Qed.

Lemma allowed_underscore : allowed underscore = true.
Proof. reflexivity. Qed.

Lemma hex_digit_allowed n : (n < 16)%N -> allowed (Sha1.hex_digit n) = true.
Proof.
  intros H.
  assert (Hn : In n (map N.of_nat (seq 0 16))).
  { replace n with (N.of_nat (N.to_nat n)) by apply N2Nat.id.
    apply in_map, in_seq. lia. }
  simpl in Hn.
  repeat (destruct Hn as [<- | Hn]; [reflexivity |]). contradiction.
Qed.

Lemma hex_digit_not_trim n : (n < 16)%N -> is_trim (Sha1.hex_digit n) = false.
Proof.
  intros H.
  assert (Hn : In n (map N.of_nat (seq 0 16))).
  { replace n with (N.of_nat (N.to_nat n)) by apply N2Nat.id.
    apply in_map, in_seq. lia. }
  simpl in Hn.
  repeat (destruct Hn as [<- | Hn]; [reflexivity |]). contradiction.
Qed.

End CharFacts.

(** ** Facts about the string primitives *)

Module StrFacts.
Import PyStr OsPath Sanitizer Shape CharFacts.

Lemma lstrip_by_split f s :
  exists p, s = p ++ lstrip_by f s /\ forallb f p = true.
Proof.
  induction s as [|c t IH]; simpl.
  - exists []. auto.
  - destruct (f c) eqn:E.
    + destruct IH as [p [Hp Hf]]. exists (c :: p). simpl. rewrite E, Hf.
      split; [congruence | reflexivity].
    + exists []. auto.
Qed.

Lemma rstrip_by_split f s :
  exists q, s = rstrip_by f s ++ q /\ forallb f q = true.
Proof.
  unfold rstrip_by. destruct (lstrip_by_split f (rev s)) as [p [Hp Hf]].
  exists (rev p). split.
  - rewrite <- rev_app_distr, <- Hp. symmetry. apply rev_involutive.
  - rewrite forallb_forall in *. intros x Hx. apply Hf. now apply in_rev.
Qed.

Lemma lstrip_by_head_ok f s : head_ok f (lstrip_by f s) = true.
Proof.
  induction s as [|c t IH]; simpl; auto.
  destruct (f c) eqn:E; auto. simpl. now rewrite E.
Qed.

Lemma lstrip_by_id f s : head_ok f s = true -> lstrip_by f s = s.
Proof. destruct s as [|c t]; simpl; auto. now destruct (f c). Qed.

Lemma rstrip_by_last_ok f s : last_ok f (rstrip_by f s) = true.
Proof.
  unfold last_ok, rstrip_by. rewrite rev_involutive. apply lstrip_by_head_ok.
Qed.

Lemma rstrip_by_id f s : last_ok f s = true -> rstrip_by f s = s.
Proof.
  unfold last_ok, rstrip_by. intros H. rewrite lstrip_by_id by assumption.
  apply rev_involutive.
Qed.

Lemma head_ok_prefix f s q : head_ok f (s ++ q) = true -> s <> [] -> head_ok f s = true.
Proof. destruct s; simpl; congruence. Qed.

Lemma strip_by_head_ok f s : head_ok f (strip_by f s) = true.
Proof.
  unfold strip_by. pose proof (lstrip_by_head_ok f s) as H.
  destruct (rstrip_by_split f (lstrip_by f s)) as [q [Hq _]].
  destruct (rstrip_by f (lstrip_by f s)) as [|c u] eqn:E; auto.
  rewrite Hq in H. exact H.
Qed.

Lemma strip_by_last_ok f s : last_ok f (strip_by f s) = true.
Proof. apply rstrip_by_last_ok. Qed.

Lemma strip_by_id f s :
  head_ok f s = true -> last_ok f s = true -> strip_by f s = s.
Proof.
  intros H1 H2. unfold strip_by. rewrite lstrip_by_id by assumption.
  now apply rstrip_by_id.
Qed.

(** what [strip_by] keeps is a middle part of its argument *)
Lemma strip_by_split f s :
  exists p q, s = p ++ strip_by f s ++ q.
Proof.
  unfold strip_by.
  destruct (lstrip_by_split f s) as [p [Hp _]].
  destruct (rstrip_by_split f (lstrip_by f s)) as [q [Hq _]].
  exists p, q. now rewrite <- Hq.
Qed.

Lemma forallb_middle (g : ascii -> bool) (p s q : str) :
  forallb g (p ++ s ++ q) = true -> forallb g s = true.
Proof.
  rewrite !forallb_app. intros H.
  apply andb_true_iff in H as [_ H]. now apply andb_true_iff in H as [H _].
Qed.

Lemma no_uu_app_r p s : no_uu (p ++ s) = true -> no_uu s = true.
Proof.
  induction p as [|c p IH]; simpl; auto.
  destruct (p ++ s) eqn:E.
  - destruct p; simpl in E; [subst; auto | discriminate].
  - intros H. apply andb_true_iff in H as [_ H]. auto.
Qed.

Lemma no_uu_app_l s q : no_uu (s ++ q) = true -> no_uu s = true.
Proof.
  induction s as [|c s IH]; auto.
  simpl. destruct s as [|d s]; auto.
  simpl app in *. intros H. apply andb_true_iff in H as [H1 H2].
  rewrite H1. simpl. apply IH. exact H2.
Qed.

Lemma no_uu_middle p s q : no_uu (p ++ s ++ q) = true -> no_uu s = true.
Proof. intros H. apply no_uu_app_r in H. now apply no_uu_app_l in H. Qed.

(** *** The substitution *)

Lemma re_sub_runs_forallb (g cls : ascii -> bool) b s :
  g underscore = true ->
  (forall c, In c s -> cls c = false -> g c = true) ->
  forallb g (re_sub_runs cls b s) = true.
Proof.
  intros Hu. revert b. induction s as [|c t IH]; intros b H; simpl; auto.
  assert (Ht : forall c, In c t -> cls c = false -> g c = true)
    by (intros; apply H; simpl; auto).
  destruct (cls c) eqn:E.
  - destruct b; simpl; [|rewrite Hu; simpl]; apply IH; exact Ht.
  - simpl. rewrite (H c) by (simpl; auto). simpl. apply IH; exact Ht.
Qed.

Lemma re_sub_runs_no_uu b s :
  no_uu (re_sub_runs (is_char underscore) b s) = true
  /\ (b = true -> head_ok (is_char underscore) (re_sub_runs (is_char underscore) b s) = true).
Proof.
  revert b. induction s as [|c t IH]; intros b; simpl; auto.
  destruct (is_char underscore c) eqn:E.
  - destruct (IH true) as [H1 H2]. specialize (H2 eq_refl).
    destruct b; [auto|]. split; [|discriminate].
    simpl. destruct (re_sub_runs (is_char underscore) true t) as [|d u] eqn:Er; auto.
    simpl in H2. change (no_uu (underscore :: d :: u))
      with (negb (is_char underscore underscore && is_char underscore d) && no_uu (d :: u)).
    apply negb_true_iff in H2. rewrite H2. simpl. exact H1.
  - destruct (IH false) as [H1 _]. split.
    + destruct (re_sub_runs (is_char underscore) false t) as [|d u] eqn:Er; auto.
      change (no_uu (c :: d :: u))
        with (negb (is_char underscore c && is_char underscore d) && no_uu (d :: u)).
      rewrite E. simpl. exact H1.
    + intros _. simpl. now rewrite E.
Qed.

Lemma re_sub_runs_id_class cls b s :
  forallb (fun c => negb (cls c)) s = true -> re_sub_runs cls b s = s.
Proof.
  revert b. induction s as [|c t IH]; intros b H; simpl in *; auto.
  apply andb_true_iff in H as [H1 H2]. apply negb_true_iff in H1.
  rewrite H1. f_equal. auto.
Qed.

Lemma re_sub_runs_id_no_uu b s :
  no_uu s = true ->
  (b = true -> head_ok (is_char underscore) s = true) ->
  re_sub_runs (is_char underscore) b s = s.
Proof.
  revert b. induction s as [|c t IH]; intros b H Hb; auto.
  assert (Ht : no_uu t = true).
  { simpl in H. destruct t; auto. now apply andb_true_iff in H as [_ H]. }
  simpl. destruct (is_char underscore c) eqn:E.
  - destruct b.
    + specialize (Hb eq_refl). simpl in Hb. rewrite E in Hb. discriminate.
    + f_equal; [symmetry; now apply is_char_eq|].
      apply IH; auto. intros _.
      destruct t as [|d u]; auto.
      change (no_uu (c :: d :: u))
        with (negb (is_char underscore c && is_char underscore d) && no_uu (d :: u)) in H.
      rewrite E in H. simpl in H.
      apply andb_true_iff in H as [H _]. simpl. exact H.
  - f_equal. apply IH; auto. discriminate.
Qed.

Lemma file_lit_clean : is_clean file_lit.
Proof. repeat split; try reflexivity. discriminate. Qed.

Lemma clean_base_clean base : is_clean (clean_base base).
Proof.
  unfold clean_base.
  set (s1 := re_sub_runs (fun c => negb (allowed c)) false base).
  set (s2 := re_sub_runs (is_char underscore) false s1).
  destruct (strip_by is_trim s2) as [|c u] eqn:E; [apply file_lit_clean|].
  rewrite <- E.
  destruct (strip_by_split is_trim s2) as [p [q Hpq]].
  assert (A1 : forallb allowed s1 = true).
  { apply re_sub_runs_forallb; [reflexivity|].
    intros x _ Hx. now apply negb_false_iff in Hx. }
  assert (A2 : forallb allowed s2 = true).
  { apply re_sub_runs_forallb; [reflexivity|].
    intros x Hx _. rewrite forallb_forall in A1. now apply A1. }
  repeat split.
  - rewrite E. discriminate.
  - rewrite Hpq in A2. now apply forallb_middle in A2.
  - pose proof (proj1 (re_sub_runs_no_uu false s1)) as N. fold s2 in N.
    rewrite Hpq in N. now apply no_uu_middle in N.
  - apply strip_by_head_ok.
  - apply strip_by_last_ok.
Qed.

Lemma head_ok_weaken (f g : ascii -> bool) s :
  (forall c, g c = true -> f c = true) -> head_ok f s = true -> head_ok g s = true.
Proof.
  intros H. destruct s as [|c t]; simpl; auto.
  intros Hf. apply negb_true_iff in Hf. apply negb_true_iff.
  destruct (g c) eqn:E; auto. apply H in E. congruence.
Qed.

Lemma clean_base_fix s : is_clean s -> clean_base s = s.
Proof.
  intros (Hne & Ha & Hu & Hh & Hl). unfold clean_base.
  rewrite (re_sub_runs_id_class (fun c => negb (allowed c))).
  2:{ rewrite forallb_forall in *. intros x Hx. rewrite (Ha x Hx). reflexivity. }
  rewrite re_sub_runs_id_no_uu by (auto; discriminate).
  rewrite strip_by_id by assumption.
  destruct s; congruence.
Qed.

End StrFacts.

(** ** Facts about [rfind] and [splitext] *)

Module SplitFacts.
Import PyStr OsPath Sanitizer Shape CharFacts StrFacts.

Lemma none_of_app f s t : none_of f (s ++ t) = none_of f s && none_of f t.
Proof. apply forallb_app. Qed.

Lemma none_of_lstrip f g s :
  none_of f s = true -> none_of f (lstrip_by g s) = true.
Proof.
  intros H. destruct (lstrip_by_split g s) as [p [Hp _]].
  rewrite Hp, none_of_app in H. now apply andb_true_iff in H as [_ H].
Qed.

Lemma none_of_rstrip f g s :
  none_of f s = true -> none_of f (rstrip_by g s) = true.
Proof.
  intros H. destruct (rstrip_by_split g s) as [p [Hp _]].
  rewrite Hp, none_of_app in H. now apply andb_true_iff in H as [H _].
Qed.

Lemma rfind_from_none f i s : none_of f s = true -> rfind_from f i s = -1.
Proof.
  revert i. induction s as [|c t IH]; intros i H; simpl in *; auto.
  apply andb_true_iff in H as [H1 H2]. rewrite IH by assumption. simpl.
  apply negb_true_iff in H1. now rewrite H1.
Qed.

Lemma rfind_from_last f i s1 c s2 :
  0 <= i -> f c = true -> none_of f s2 = true ->
  rfind_from f i (s1 ++ c :: s2) = i + len s1.
Proof.
  intros Hi Hc H2. revert i Hi. induction s1 as [|d s1 IH]; intros i Hi.
  - simpl. rewrite rfind_from_none by assumption. simpl. rewrite Hc.
    unfold len. simpl. lia.
  - simpl. rewrite IH by lia.
    unfold len. simpl length.
    destruct (0 <=? i + 1 + Z.of_nat (length s1)) eqn:E; [lia|].
    apply Z.leb_gt in E. lia.
Qed.

Lemma rfind_from_inv f i s :
  0 <= i ->
  (rfind_from f i s = -1 /\ none_of f s = true)
  \/ (exists s1 c s2, s = s1 ++ c :: s2 /\ f c = true /\ none_of f s2 = true
        /\ rfind_from f i s = i + len s1).
Proof.
  revert i. induction s as [|c t IH]; intros i Hi.
  - left. auto.
  - destruct (IH (i + 1) ltac:(lia)) as [[Hr Hn] | (s1 & d & s2 & Hs & Hd & Hn & Hr)].
    + simpl. rewrite Hr. simpl. destruct (f c) eqn:E.
      * right. exists [], c, t. unfold len. simpl. repeat split; auto. lia.
      * left. split; auto.
    + right. exists (c :: s1), d, s2. simpl. rewrite Hr.
      unfold len. simpl length.
      destruct (0 <=? i + 1 + Z.of_nat (length s1)) eqn:E.
      * repeat split; auto; [now rewrite Hs | lia].
      * apply Z.leb_gt in E. lia.
Qed.

Lemma rfind_from_ge f i s : 0 <= i -> -1 <= rfind_from f i s.
Proof.
  intros Hi.
  destruct (rfind_from_inv f i s Hi) as [[Hr _] | (s1 & d & s2 & _ & _ & _ & Hr)];
    rewrite Hr; unfold len; lia.
Qed.

Lemma slice_prefix (s1 s2 : str) : slice (s1 ++ s2) 0 (len s1) = s1.
Proof.
  unfold slice, len. simpl. rewrite Z.sub_0_r, Nat2Z.id.
  rewrite firstn_app, Nat.sub_diag, firstn_all. simpl. apply app_nil_r.
Qed.

Lemma skipn_prefix (s1 s2 : str) : skipn (Z.to_nat (len s1)) (s1 ++ s2) = s2.
Proof.
  unfold len. rewrite Nat2Z.id, skipn_app, skipn_all, Nat.sub_diag. reflexivity.
Qed.

(** The shape of what [splitext] returns. *)
Lemma splitext_shape os p :
  let '(base, ext) := splitext os p in
  p = base ++ ext
  /\ ((ext = [] /\ (none_of (is_sep os) p = true ->
                     none_of (is_char dot) (lstrip_by (is_char dot) p) = true))
      \/ exists rest, ext = dot :: rest /\ none_of (is_char dot) rest = true).
Proof.
  unfold splitext, rfind.
  destruct (rfind_from_inv (is_char dot) 0 p ltac:(lia))
    as [[Hr Hn] | (s1 & d & s2 & Hs & Hd & Hn & Hr)].
  - rewrite Hr.
    assert (Hp : none_of (is_char dot) (lstrip_by (is_char dot) p) = true).
    { rewrite lstrip_by_id; auto. destruct p; simpl in *; auto.
      now apply andb_true_iff in Hn as [Hn _]. }
    pose proof (rfind_from_ge (is_sep os) 0 p ltac:(lia)) as Hge.
    destruct (rfind_from (is_sep os) 0 p <? -1) eqn:Elt;
      [apply Z.ltb_lt in Elt; lia|].
    rewrite app_nil_r. auto.
  - rewrite Hr. simpl (0 + _). apply is_char_eq in Hd. subst d.
    destruct (rfind_from (is_sep os) 0 p <? len s1) eqn:Elt.
    + destruct (existsb _ _) eqn:Eex.
      * subst p. rewrite slice_prefix, skipn_prefix. split; auto.
        right. exists s2. auto.
      * rewrite app_nil_r. split; auto. left. split; auto.
        intros Hsep. rewrite rfind_from_none in Eex by assumption.
        subst p. simpl in Eex. rewrite slice_prefix in Eex.
        assert (Hall : forallb (is_char dot) s1 = true).
        { rewrite forallb_forall. intros x Hx.
          destruct (is_char dot x) eqn:Ex; auto.
          assert (existsb (fun c => negb (is_char dot c)) s1 = true).
          { apply existsb_exists. exists x. rewrite Ex. auto. }
          congruence. }
        clear - Hall Hn. induction s1 as [|c s1 IH]; simpl in *.
        -- now apply none_of_lstrip.
        -- apply andb_true_iff in Hall as [Hc Hall]. rewrite Hc. auto.
    + rewrite app_nil_r. split; auto. left. split; auto.
      intros Hsep. rewrite rfind_from_none in Elt by assumption.
      apply Z.ltb_ge in Elt. unfold len in Elt. lia.
Qed.

(** A name built from a sanitized base and an extension of the right shape
    splits back into the two. *)
Lemma splitext_rebuild os sb ext :
  is_clean sb ->
  ((ext = [] /\ none_of (is_char dot) sb = true)
   \/ exists rest, ext = dot :: rest /\ none_of (is_char dot) rest = true
                   /\ none_of (is_sep os) rest = true) ->
  splitext os (sb ++ ext) = (sb, ext).
Proof.
  intros (Hne & Ha & _ & Hh & _) Hext.
  assert (Hsep : none_of (is_sep os) sb = true).
  { unfold none_of. rewrite forallb_forall in *. intros x Hx.
    rewrite (allowed_not_sep os x); auto. }
  unfold splitext, rfind.
  destruct Hext as [[-> Hd] | (rest & -> & Hd & Hs)].
  - rewrite app_nil_r. rewrite !rfind_from_none by assumption. reflexivity.
  - rewrite (rfind_from_none (is_sep os)).
    2:{ rewrite none_of_app, Hsep. simpl. rewrite Hs.
        destruct os; reflexivity. }
    rewrite rfind_from_last by (auto; lia). simpl (0 + _).
    assert (Hlt : (-1 <? len sb) = true) by (apply Z.ltb_lt; unfold len; lia).
    rewrite Hlt. simpl (-1 + 1). rewrite slice_prefix, skipn_prefix.
    assert (Hex : existsb (fun c => negb (is_char dot c)) sb = true).
    { destruct sb as [|c u]; [congruence|]. simpl in *.
      destruct (is_char dot c) eqn:E; auto.
      apply is_trim_dot in E. rewrite E in Hh. discriminate. }
    now rewrite Hex.
Qed.

End SplitFacts.

(** ** The sanitizer: what holds of its result *)

Module SanitizerFacts.
Import PyStr OsPath Sanitizer Shape CharFacts StrFacts SplitFacts.

Lemma last_ok_app f (s t : str) : t <> [] -> last_ok f (s ++ t) = last_ok f t.
Proof.
  intros Ht. unfold last_ok. rewrite rev_app_distr.
  destruct (rev t) as [|c u] eqn:E; [|reflexivity].
  apply (f_equal (@rev ascii)) in E. rewrite rev_involutive in E. simpl in E. congruence.
Qed.

Lemma last_ok_lower s : last_ok is_space (lower s) = last_ok is_space s.
Proof.
  unfold last_ok, lower. rewrite <- map_rev.
  destruct (rev s) as [|c u]; simpl; auto. now rewrite is_space_lower_char.
Qed.

Lemma lower_idem s : lower (lower s) = lower s.
Proof.
  unfold lower. rewrite map_map. apply map_ext. intros; apply lower_char_idem.
Qed.

Lemma none_of_lower_dot s : none_of (is_char dot) (lower s) = none_of (is_char dot) s.
Proof.
  unfold none_of, lower. induction s as [|c t IH]; simpl; auto.
  now rewrite is_dot_lower_char, IH.
Qed.

Lemma none_of_lower_sep os s : none_of (is_sep os) (lower s) = none_of (is_sep os) s.
Proof.
  unfold none_of, lower. induction s as [|c t IH]; simpl; auto.
  now rewrite is_sep_lower_char, IH.
Qed.

Lemma len_lower s : len (lower s) = len s.
Proof. unfold len, lower. now rewrite length_map. Qed.

(** A sanitized base followed by a well-shaped, lower-case extension that
    fits the budget is a fixed point of the sanitizer. *)
Lemma sanitize_stable os max_len sb ext :
  is_clean sb ->
  ((ext = [] /\ none_of (is_char dot) sb = true)
   \/ exists rest, ext = dot :: rest /\ none_of (is_char dot) rest = true
                   /\ none_of (is_sep os) rest = true
                   /\ last_ok is_space ext = true) ->
  lower ext = ext ->
  len sb <= Z.max 16 (max_len - len ext) ->
  sanitize os max_len (sb ++ ext) = sb ++ ext.
Proof.
  intros Hc Hext Hlow Hfit.
  pose proof Hc as (Hne & Ha & _ & Hh & Hl).
  assert (Hstrip : strip (sb ++ ext) = sb ++ ext).
  { apply strip_by_id.
    - destruct sb as [|c u]; [congruence|]. simpl in *.
      apply andb_true_iff in Ha as [Ha _]. now rewrite allowed_not_space.
    - destruct Hext as [[-> _] | (rest & -> & _ & _ & Hlast)].
      + rewrite app_nil_r. unfold last_ok in *.
        destruct (rev sb) as [|c u] eqn:E; auto. simpl.
        rewrite allowed_not_space; auto.
        rewrite forallb_forall in Ha. apply Ha, in_rev. rewrite E. simpl; auto.
      + rewrite last_ok_app by discriminate. exact Hlast. }
  unfold sanitize. rewrite Hstrip.
  destruct (sb ++ ext) as [|c0 u0] eqn:Eraw.
  { destruct sb; [congruence | discriminate]. }
  rewrite <- Eraw.
  rewrite splitext_rebuild; auto.
  2:{ destruct Hext as [H | (rest & H1 & H2 & H3 & _)]; auto.
      right. exists rest. auto. }
  rewrite Hlow, clean_base_fix by assumption.
  destruct (Z.max 16 (max_len - len ext) <? len sb) eqn:E; auto.
  apply Z.ltb_lt in E. lia.
Qed.

Lemma none_of_re_sub_runs_lstrip cls b s :
  cls dot = false ->
  none_of (is_char dot) (lstrip_by (is_char dot) s) = true ->
  none_of (is_char dot) (lstrip_by (is_char dot) (re_sub_runs cls b s)) = true.
Proof.
  intros Hd. revert b. induction s as [|c t IH]; intros b H; auto.
  simpl in H. destruct (is_char dot c) eqn:E.
  - pose proof (is_char_eq _ _ E) as ->. simpl. rewrite Hd. simpl. auto.
  - apply none_of_lstrip. apply re_sub_runs_forallb; [reflexivity|].
    intros x Hx _. unfold none_of in H. rewrite forallb_forall in H. now apply H.
Qed.

Lemma none_of_lstrip_trim s :
  none_of (is_char dot) (lstrip_by (is_char dot) s) = true ->
  none_of (is_char dot) (lstrip_by is_trim s) = true.
Proof.
  induction s as [|c t IH]; auto. simpl.
  destruct (is_char dot c) eqn:E.
  - rewrite (is_trim_dot _ E). auto.
  - intros H. now apply (none_of_lstrip _ is_trim (c :: t)).
Qed.

(** When every dot of the name is a leading one, the sanitized base has none. *)
Lemma clean_base_no_dot base :
  none_of (is_char dot) (lstrip_by (is_char dot) base) = true ->
  none_of (is_char dot) (clean_base base) = true.
Proof.
  intros H. unfold clean_base.
  apply (none_of_re_sub_runs_lstrip (fun c => negb (allowed c)) false) in H;
    [|reflexivity].
  apply (none_of_re_sub_runs_lstrip (is_char underscore) false) in H; [|reflexivity].
  apply none_of_lstrip_trim in H.
  apply (none_of_rstrip _ is_trim) in H.
  change (rstrip_by is_trim (lstrip_by is_trim ?x)) with (strip_by is_trim x) in H.
  destruct (strip_by is_trim _); auto.
Qed.

(** The stripped name, or "file": never empty, never ending in white space. *)
Lemma raw_facts os name :
  let raw := strip name in
  let raw := match raw with [] => file_lit | _ => raw end in
  raw <> [] /\ last_ok is_space raw = true
  /\ (none_of (is_sep os) name = true -> none_of (is_sep os) raw = true).
Proof.
  simpl. destruct (strip name) as [|c u] eqn:E.
  - repeat split; try discriminate. intros _. destruct os; reflexivity.
  - rewrite <- E. repeat split.
    + rewrite E; discriminate.
    + apply strip_by_last_ok.
    + intros H. unfold strip, strip_by. now apply none_of_rstrip, none_of_lstrip.
Qed.

(** *** The hash suffix *)

Lemma land_255 x : (N.land x 255 < 256)%N.
Proof.
  change 255%N with (N.ones 8). rewrite N.land_ones. now apply N.mod_lt.
Qed.

Lemma digest_bytes msg :
  length (Sha1.digest msg) = 20%nat /\ Forall (fun b => (b < 256)%N) (Sha1.digest msg).
Proof.
  unfold Sha1.digest.
  destruct (fold_left Sha1.compress _ Sha1.init) as [[[[a b] c] d] e].
  cbn [Sha1.be_bytes app length]. split; [reflexivity|].
  repeat (constructor; [apply land_255|]). constructor.
Qed.

Lemma hex_of_bytes_chars bs :
  Forall (fun b => (b < 256)%N) bs ->
  length (Sha1.hex_of_bytes bs) = (2 * length bs)%nat
  /\ Forall hex_char (Sha1.hex_of_bytes bs).
Proof.
  induction 1 as [|b bs Hb _ [IH1 IH2]]; [split; [reflexivity | constructor]|].
  unfold Sha1.hex_of_bytes in *. cbn [flat_map app length]. split; [lia|].
  constructor; [|constructor; [|exact IH2]].
  - exists (b / 16)%N. split; [|reflexivity].
    apply N.Div0.div_lt_upper_bound. exact Hb.
  - exists (b mod 16)%N. split; [|reflexivity]. now apply N.mod_lt.
Qed.

Lemma hash10_chars raw :
  length (hash10 raw) = 10%nat /\ Forall hex_char (hash10 raw).
Proof.
  unfold hash10, Sha1.hexdigest.
  destruct (digest_bytes (utf8_encode raw)) as [Hl Hb].
  destruct (hex_of_bytes_chars _ Hb) as [Hl2 Hc]. rewrite Hl in Hl2.
  split.
  - rewrite length_firstn, Hl2. reflexivity.
  - rewrite <- (firstn_skipn 10 (Sha1.hex_of_bytes _)) in Hc.
    now apply Forall_app in Hc as [Hc _].
Qed.

Lemma hex_chars_forallb (g : ascii -> bool) h :
  (forall n, (n < 16)%N -> g (Sha1.hex_digit n) = true) ->
  Forall hex_char h -> forallb g h = true.
Proof.
  intros Hg H. apply forallb_forall. rewrite Forall_forall in H.
  intros c Hc. destruct (H c Hc) as (n & Hn & ->). now apply Hg.
Qed.

Lemma hex_digit_not_dot n : (n < 16)%N -> negb (is_char dot (Sha1.hex_digit n)) = true.
Proof.
  intros H. pose proof (hex_digit_not_trim n H) as Ht.
  destruct (is_char dot (Sha1.hex_digit n)) eqn:E; auto.
  apply is_trim_dot in E. congruence.
Qed.

Lemma hex_digit_not_underscore n :
  (n < 16)%N -> negb (is_char underscore (Sha1.hex_digit n)) = true.
Proof.
  intros H. pose proof (hex_digit_not_trim n H) as Ht.
  destruct (is_char underscore (Sha1.hex_digit n)) eqn:E; auto.
  apply is_trim_underscore in E. congruence.
Qed.

Lemma none_of_no_uu s : none_of (is_char underscore) s = true -> no_uu s = true.
Proof.
  induction s as [|c t IH]; auto. unfold none_of. simpl.
  intros H. apply andb_true_iff in H as [Hc Ht].
  destruct t as [|d u]; auto. apply negb_true_iff in Hc. rewrite Hc. simpl.
  now apply IH.
Qed.

(** joining a text that does not end in an underscore, an underscore and a
    text without underscores makes no double underscore *)
Lemma no_uu_join (s h : str) :
  s <> [] -> no_uu s = true -> last_ok (is_char underscore) s = true ->
  none_of (is_char underscore) h = true ->
  no_uu (s ++ [underscore] ++ h) = true.
Proof.
  intros Hne Hs Hl Hh. induction s as [|c t IH]; [congruence|].
  destruct t as [|d u].
  - unfold last_ok in Hl. simpl in Hl. apply negb_true_iff in Hl.
    cbn [app]. change (no_uu (c :: underscore :: h))
      with (negb (is_char underscore c && is_char underscore underscore)
            && no_uu (underscore :: h)).
    rewrite Hl. simpl.
    destruct h as [|x h']; auto.
    change (no_uu (underscore :: x :: h'))
      with (negb (is_char underscore underscore && is_char underscore x)
            && no_uu (x :: h')).
    unfold none_of in Hh. simpl in Hh. apply andb_true_iff in Hh as [Hx Hh'].
    apply negb_true_iff in Hx. rewrite Hx. simpl negb. simpl andb.
    apply (none_of_no_uu (x :: h')). unfold none_of. simpl. rewrite Hx. exact Hh'.
  - change (no_uu ((c :: d :: u) ++ [underscore] ++ h))
      with (negb (is_char underscore c && is_char underscore d)
            && no_uu ((d :: u) ++ [underscore] ++ h)).
    change (no_uu (c :: d :: u))
      with (negb (is_char underscore c && is_char underscore d) && no_uu (d :: u)) in Hs.
    apply andb_true_iff in Hs as [H1 H2]. rewrite H1. simpl andb.
    apply IH; [discriminate | exact H2 |].
    unfold last_ok in *. simpl rev in *.
    destruct (rev u ++ [d]) as [|x y] eqn:E; [destruct (rev u); discriminate|].
    simpl in Hl. exact Hl.
Qed.

Lemma forallb_firstn (g : ascii -> bool) n (s : str) :
  forallb g s = true -> forallb g (firstn n s) = true.
Proof.
  intros H. rewrite <- (firstn_skipn n s), forallb_app in H.
  now apply andb_true_iff in H as [H _].
Qed.

(** The truncated base is a sanitized base again, when the cut is clean. *)
Lemma cut_clean sb keep h :
  is_clean sb -> (1 <= keep)%nat ->
  last_ok (is_char underscore) (firstn keep sb) = true ->
  h <> [] -> Forall hex_char h ->
  is_clean (firstn keep sb ++ [underscore] ++ h).
Proof.
  intros (Hne & Ha & Hu & Hh & Hl) Hk Hcut Hhne Hhex.
  assert (Hfn : firstn keep sb <> []).
  { destruct sb; [congruence|]. destruct keep; [lia|]. discriminate. }
  split; [|split; [|split; [|split]]].
  - destruct (firstn keep sb); discriminate.
  - rewrite !forallb_app. rewrite forallb_firstn by assumption. simpl.
    apply hex_chars_forallb; [apply hex_digit_allowed | exact Hhex].
  - apply no_uu_join; auto.
    + rewrite <- (firstn_skipn keep sb) in Hu. now apply no_uu_app_l in Hu.
    + apply hex_chars_forallb; [apply hex_digit_not_underscore | exact Hhex].
  - destruct sb as [|c u]; [congruence|]. destruct keep; [lia|]. exact Hh.
  - rewrite app_assoc, last_ok_app by assumption.
    unfold last_ok. rewrite Forall_forall in Hhex.
    destruct (rev h) as [|c u] eqn:E; auto. simpl.
    destruct (Hhex c) as (n & Hn & ->).
    + apply in_rev. rewrite E. simpl; auto.
    + now rewrite hex_digit_not_trim.
Qed.

(** Without a path separator, and either without truncation or with a clean
    cut, the result is a sanitized base followed by a stable extension. *)
Lemma sanitize_idempotent_when os max_len name :
  none_of (is_sep os) name = true ->
  truncates os max_len name = false \/ clean_cut os max_len name = true ->
  sanitize os max_len (sanitize os max_len name) = sanitize os max_len name.
Proof.
  intros Hsep Hcase. unfold truncates, clean_cut in Hcase. unfold sanitize at 2 3.
  destruct (raw_facts os name) as (Hne & Hlast & Hs). specialize (Hs Hsep).
  set (raw := match strip name with [] => file_lit | _ => strip name end) in *.
  pose proof (splitext_shape os raw) as Hshape.
  destruct (splitext os raw) as [base ext] eqn:Esp.
  destruct Hshape as [Hraw Hext].
  pose proof (clean_base_clean base) as Hclean.
  assert (Hshape' :
    forall sb, is_clean sb ->
      (none_of (is_char dot) (clean_base base) = true -> none_of (is_char dot) sb = true) ->
      (lower ext = [] /\ none_of (is_char dot) sb = true)
      \/ exists rest, lower ext = dot :: rest /\ none_of (is_char dot) rest = true
                      /\ none_of (is_sep os) rest = true
                      /\ last_ok is_space (lower ext) = true).
  { intros sb Hsb Hdots. destruct Hext as [[-> Hd] | (rest & -> & Hd)].
    - left. split; auto. apply Hdots, clean_base_no_dot.
      rewrite app_nil_r in Hraw. subst base. auto.
    - right. exists (lower rest). split; [reflexivity|]. split; [|split].
      + now rewrite none_of_lower_dot.
      + rewrite none_of_lower_sep. rewrite Hraw, none_of_app in Hs.
        apply andb_true_iff in Hs as [_ Hs]. simpl in Hs.
        now apply andb_true_iff in Hs as [_ Hs].
      + rewrite last_ok_lower. rewrite Hraw, last_ok_app in Hlast by discriminate.
        exact Hlast. }
  destruct (Z.max 16 (max_len - len (lower ext)) <? len (clean_base base)) eqn:Etr.
  - destruct Hcase as [Hcase | Hcase]; [discriminate|].
    apply andb_true_iff in Hcase as [H19 Hcut]. apply Z.leb_le in H19.
    apply Z.ltb_lt in Etr.
    destruct (hash10_chars raw) as [Hhl Hhex].
    assert (Hlen10 : len (hash10 raw) = 10) by (unfold len; rewrite Hhl; reflexivity).
    rewrite Hlen10 in *.
    set (max_base := Z.max 16 (max_len - len (lower ext))) in *.
    assert (Hkeep : Z.max 8 (max_base - (10 + 1)) = max_base - 11) by lia.
    rewrite Hkeep in *.
    assert (Hhne : hash10 raw <> []) by (destruct (hash10 raw); [discriminate Hhl | discriminate]).
    apply sanitize_stable.
    + apply cut_clean; auto. lia.
    + apply Hshape'.
      * apply cut_clean; auto. lia.
      * intros Hd. rewrite !none_of_app. unfold none_of at 1.
        rewrite forallb_firstn by exact Hd. simpl.
        apply hex_chars_forallb; [apply hex_digit_not_dot | exact Hhex].
    + apply lower_idem.
    + unfold len in *. rewrite !length_app, length_firstn, Hhl. simpl length. lia.
  - apply sanitize_stable.
    + exact Hclean.
    + apply Hshape'; auto.
    + apply lower_idem.
    + apply Z.ltb_ge in Etr. exact Etr.
Qed.

(** What the sanitizer does establish: its result is a base within the
    class [A-Za-z0-9._-] followed by the lower-cased extension of the
    stripped name, whatever that extension holds. *)
Lemma sanitize_base_in_class os max_len name :
  let raw := match strip name with [] => file_lit | _ => strip name end in
  exists sb,
    sanitize os max_len name = sb ++ lower (snd (splitext os raw))
    /\ forallb allowed sb = true.
Proof.
  cbv zeta. unfold sanitize.
  set (raw := match strip name with [] => file_lit | _ => strip name end).
  destruct (splitext os raw) as [base ext]. cbn [snd].
  destruct (clean_base_clean base) as (_ & Ha & _).
  destruct (Z.max 16 (max_len - len (lower ext)) <? len (clean_base base)).
  - eexists. split; [reflexivity|].
    rewrite !forallb_app, forallb_firstn by exact Ha. simpl.
    apply hex_chars_forallb; [apply hex_digit_allowed | apply hash10_chars].
  - exists (clean_base base). split; [reflexivity | exact Ha].
Qed.

End SanitizerFacts.

(** ** The sanitizer: the claims *)

Module SanitizerClaims.
Import PyStr OsPath Sanitizer Shape Inputs.


(** C6, as stated, fails: a name that is cut right after an underscore gets
    a double underscore before the hash, and the second pass collapses it. *)
Lemma safe_storage_filename_not_idempotent :
  safe_storage_filename Posix (safe_storage_filename Posix long_name)
  <> safe_storage_filename Posix long_name.
Proof.
  intros H. apply (f_equal String.length) in H. vm_compute in H. discriminate.
Qed.

(** The other way idempotence fails: behind a path separator a dot starts no
    extension on the first pass, on the second pass it does. *)
Lemma safe_storage_filename_separator_example :
  forall os,
    safe_storage_filename os "a.B/c" = "a.B_c"%string
    /\ safe_storage_filename os "a.B_c" = "a.b_c"%string.
Proof. intros []; split; reflexivity. Qed.

(** C6, amended: on a name without a path separator that is not truncated,
    or is truncated with at least 19 characters left for the base and the
    kept part of the base not ending in an underscore, sanitizing twice is
    sanitizing once. *)
Theorem safe_storage_filename_idempotent :
  forall os (name : string) (max_len : Z),
    none_of (is_sep os) (s2l name) = true ->
    truncates os max_len (s2l name) = false
    \/ clean_cut os max_len (s2l name) = true ->
    safe_storage_filename_len os (safe_storage_filename_len os name max_len) max_len
    = safe_storage_filename_len os name max_len.
Proof.
  intros os name max_len Hsep Hcase. unfold safe_storage_filename_len, s2l, l2s.
  rewrite list_ascii_of_string_of_list_ascii.
  f_equal. now apply SanitizerFacts.sanitize_idempotent_when.
Qed.

Lemma safe_storage_filename_idempotent_witness :
  none_of (is_sep Nt) (s2l long_png) = true
  /\ truncates Nt 180 (s2l long_png) = true
  /\ clean_cut Nt 180 (s2l long_png) = true
  /\ safe_storage_filename_len Nt (safe_storage_filename_len Nt long_png 180) 180
     = safe_storage_filename_len Nt long_png 180.
Proof.
  assert (H1 : none_of (is_sep Nt) (s2l long_png) = true) by (vm_compute; reflexivity).
  assert (H2 : clean_cut Nt 180 (s2l long_png) = true) by (vm_compute; reflexivity).
  split; [exact H1|]. split; [vm_compute; reflexivity|]. split; [exact H2|].
  exact (safe_storage_filename_idempotent Nt long_png 180 H1 (or_intror H2)).
Defined.

Example safe_storage_filename_example :
  safe_storage_filename Nt "Fig 3-1 (final).TIF" = "Fig_3-1_final.tif"%string.
Proof. reflexivity. Qed.

End SanitizerClaims.

(** ** The adaptive size-budget loop: the claims *)

Module BudgetClaims.
Import Py Budget Inputs.

Section Loop.

Variable optimize_image : Z -> Z -> attempt.
Variable max_bytes : Z.

(** What the loop leaves behind: it makes at most [n] further calls, and an
    image it holds is either within the ceiling or came from a call whose
    result was too large. *)
Lemma budget_loop_inv n v tried :
  let '(v', tried') := budget_loop optimize_image max_bytes n v tried in
  (length tried' <= length tried + n)%nat
  /\ (exists more, tried' = tried ++ more)
  /\ (forall o, opt v' = Some o ->
        opt v = Some o
        \/ exists px q, In (px, q) tried' /\ optimize_image px q = Returned o).
Proof.
  revert v tried. induction n as [|n IH]; intros v tried; simpl.
  - split; [lia|]. split; [exists []; now rewrite app_nil_r | auto].
  - destruct (optimize_image (cur_px v) (cur_q v)) as [o|e] eqn:E.
    + destruct (blen (output_bytes o) <=? max_bytes) eqn:Efit.
      * rewrite length_app. simpl. split; [lia|]. split; [eauto|].
        intros o' [= <-]. right. exists (cur_px v), (cur_q v).
        split; auto. apply in_or_app. right. simpl. auto.
      * match goal with |- context [budget_loop _ _ n ?v1 ?t1] =>
          specialize (IH v1 t1); destruct (budget_loop optimize_image max_bytes n v1 t1)
            as [v' tried'] end.
        rewrite length_app in IH. simpl in IH. destruct IH as (Hl & [more Hm] & Ho).
        split; [lia|]. split; [exists ((cur_px v, cur_q v) :: more); now rewrite Hm, <- app_assoc|].
        intros o' Ho'. destruct (Ho o' Ho') as [[= <-] | ?]; auto.
        right. exists (cur_px v), (cur_q v). split; auto.
        rewrite Hm. apply in_or_app. left. apply in_or_app. right. simpl. auto.
    + match goal with |- context [budget_loop _ _ n ?v1 ?t1] =>
        specialize (IH v1 t1); destruct (budget_loop optimize_image max_bytes n v1 t1)
          as [v' tried'] end.
      rewrite length_app in IH. simpl in IH. destruct IH as (Hl & [more Hm] & Ho).
      split; [lia|]. split; [exists ((cur_px v, cur_q v) :: more); now rewrite Hm, <- app_assoc|].
      intros o' Ho'. destruct (Ho o' Ho') as [H | ?]; auto.
Qed.

(** Every call after the first one made by the loop has arguments at or above
    the two floors. *)
Lemma budget_loop_floors n v tried :
  Forall (fun pq => 800 <= fst pq /\ 65 <= snd pq) (tl (tried ++ [(cur_px v, cur_q v)])) ->
  Forall (fun pq => 800 <= fst pq /\ 65 <= snd pq)
         (tl (snd (budget_loop optimize_image max_bytes n v tried))).
Proof.
  revert v tried. induction n as [|n IH]; intros v tried H; simpl.
  - destruct tried as [|p t]; simpl in *; [constructor|].
    apply Forall_app in H. tauto.
  - assert (Hnext : forall v1,
      800 <= cur_px v1 -> 65 <= cur_q v1 ->
      Forall (fun pq => 800 <= fst pq /\ 65 <= snd pq)
        (tl ((tried ++ [(cur_px v, cur_q v)]) ++ [(cur_px v1, cur_q v1)]))).
    { intros v1 H1 H2. destruct tried as [|p t]; simpl in *.
      - constructor; [simpl; auto | constructor].
      - apply Forall_app. split; auto. }
    destruct (optimize_image (cur_px v) (cur_q v)) as [o|e].
    + destruct (blen (output_bytes o) <=? max_bytes); simpl; auto.
      apply IH. apply Hnext; simpl; unfold shrink_px, shrink_q; lia.
    + apply IH. apply Hnext; simpl; unfold shrink_px, shrink_q; lia.
Qed.

Lemma budget_loop_S n v tried :
  budget_loop optimize_image max_bytes (S n) v tried =
  let tried' := tried ++ [(cur_px v, cur_q v)] in
  match optimize_image (cur_px v) (cur_q v) with
  | Returned o =>
      if blen (output_bytes o) <=? max_bytes
      then ({| cur_px := cur_px v; cur_q := cur_q v;
               last_err := last_err v; opt := Some o |}, tried')
      else budget_loop optimize_image max_bytes n
             {| cur_px := shrink_px (cur_px v); cur_q := shrink_q (cur_q v);
                last_err := last_err v; opt := Some o |} tried'
  | Raised e =>
      budget_loop optimize_image max_bytes n
        {| cur_px := shrink_px (cur_px v); cur_q := shrink_q (cur_q v);
           last_err := Some e; opt := opt v |} tried'
  end.
Proof. reflexivity. Qed.

(** The next call, if the loop makes one, has the current arguments. *)
Lemma budget_loop_next n v tried pq :
  nth_error (snd (budget_loop optimize_image max_bytes n v tried)) (length tried) = Some pq ->
  pq = (cur_px v, cur_q v).
Proof.
  destruct n as [|n].
  - simpl. intros H. apply nth_error_In in H as H'.
    assert (nth_error tried (length tried) = None) by (apply nth_error_None; lia).
    congruence.
  - rewrite budget_loop_S. cbv zeta.
    assert (Hhit : forall more,
      nth_error ((tried ++ [(cur_px v, cur_q v)]) ++ more) (length tried) = Some pq ->
      pq = (cur_px v, cur_q v)).
    { intros more. rewrite <- app_assoc. rewrite nth_error_app2 by lia.
      rewrite Nat.sub_diag. simpl. congruence. }
    assert (Hrec : forall v1,
      nth_error (snd (budget_loop optimize_image max_bytes n v1
                        (tried ++ [(cur_px v, cur_q v)]))) (length tried) = Some pq ->
      pq = (cur_px v, cur_q v)).
    { intros v1. pose proof (budget_loop_inv n v1 (tried ++ [(cur_px v, cur_q v)])) as H.
      destruct (budget_loop _ _ n v1 _) as [v' tried']. destruct H as (_ & [more ->] & _).
      simpl. apply Hhit. }
    destruct (optimize_image (cur_px v) (cur_q v)) as [o|e];
      [destruct (blen (output_bytes o) <=? max_bytes)|]; try apply Hrec.
    simpl. intros H. apply (Hhit []). now rewrite app_nil_r.
Qed.

End Loop.

(** C1: whatever the optimizer does and whatever the ceiling, the conversion
    either hands back an image of at most [max_upload_mb * 1024 * 1024] bytes
    that one of at most eight calls of the optimizer returned, or it ends in
    a [RuntimeError]; no image above the ceiling is handed on. *)
Theorem convert_within_budget_bounded :
  forall optimize_image max_upload_mb max_px jpeg_quality,
    let '(r, tried) :=
      convert_within_budget optimize_image max_upload_mb max_px jpeg_quality in
    (length tried <= 8)%nat
    /\ ((exists o px q,
           r = Val o
           /\ blen (output_bytes o) <= max_upload_mb * 1024 * 1024
           /\ In (px, q) tried /\ optimize_image px q = Returned o)
        \/ (exists m, r = Exc (RuntimeError m))).
Proof.
  intros f mb px q. unfold convert_within_budget.
  pose proof (budget_loop_inv f (mb * 1024 * 1024) 8
    {| cur_px := px; cur_q := q; last_err := None; opt := None |} []) as H.
  destruct (budget_loop _ _ _ _ _) as [v tried].
  destruct H as (Hl & _ & Ho). simpl in Hl.
  destruct (opt v) as [o|] eqn:Eo.
  - destruct (mb * 1024 * 1024 <? blen (output_bytes o)) eqn:E.
    + split; [lia|]. right. eauto.
    + split; [lia|]. left. apply Z.ltb_ge in E.
      destruct (Ho o eq_refl) as [Hno | (px' & q' & Hin & Hf)]; [discriminate|].
      exists o, px', q'. auto.
  - split; [lia|]. right. eauto.
Qed.

(** C10: every call of the optimizer after the first gets a pixel bound of at
    least 800 and a quality of at least 65; and when the configured quality
    is below 65, a second call, if there is one, is made with quality 65. *)
Theorem budget_retries_respect_floors :
  forall optimize_image max_upload_mb max_px jpeg_quality,
    let tried :=
      snd (convert_within_budget optimize_image max_upload_mb max_px jpeg_quality) in
    Forall (fun pq => 800 <= fst pq /\ 65 <= snd pq) (tl tried)
    /\ (jpeg_quality < 65 ->
        forall px q, nth_error tried 1 = Some (px, q) -> q = 65 /\ jpeg_quality < q).
Proof.
  intros f mb px q. unfold convert_within_budget.
  set (v0 := {| cur_px := px; cur_q := q; last_err := None; opt := None |}).
  assert (Htl : Forall (fun pq => 800 <= fst pq /\ 65 <= snd pq)
                  (tl (snd (budget_loop f (mb * 1024 * 1024) 8 v0 [])))).
  { apply budget_loop_floors. simpl. constructor. }
  assert (Hsnd : q < 65 -> forall px' q',
            nth_error (snd (budget_loop f (mb * 1024 * 1024) 8 v0 [])) 1 = Some (px', q') ->
            q' = 65 /\ q < q').
  { intros Hq px' q'. change 8%nat with (S 7). rewrite budget_loop_S.
    assert (Hgo : forall v1, cur_q v1 = shrink_q q ->
              nth_error (snd (budget_loop f (mb * 1024 * 1024) 7 v1 ([] ++ [(px, q)]))) 1
              = Some (px', q') -> q' = 65 /\ q < q').
    { intros v1 Hv1 Hn. apply (budget_loop_next f _ 7 v1 [(px, q)]) in Hn.
      injection Hn as _ ->. rewrite Hv1. unfold shrink_q. lia. }
    simpl cur_px. simpl cur_q.
    destruct (f px q) as [o|e].
    - destruct (blen (output_bytes o) <=? mb * 1024 * 1024).
      + simpl. discriminate.
      + apply Hgo. reflexivity.
    - apply Hgo. reflexivity. }
  destruct (budget_loop f (mb * 1024 * 1024) 8 v0 []) as [v tried].
  simpl in *.
  destruct (opt v) as [o|]; [destruct (_ <? _)|]; simpl; auto.
Qed.

Lemma budget_retries_respect_floors_witness :
  40 < 65
  /\ nth_error (snd (convert_within_budget two_bytes 0 3000 40)) 1 = Some (2550, 65)
  /\ (65 = 65 /\ 40 < 65).
Proof.
  split; [reflexivity|]. split; [reflexivity|].
  exact (proj2 (budget_retries_respect_floors two_bytes 0 3000 40)
           eq_refl 2550 65 eq_refl).
Defined.

(** With a ceiling of zero bytes the loop tries eight times and gives up. *)
Example convert_within_budget_gives_up :
  convert_within_budget two_bytes 0 3000 85
  = (Exc (RuntimeError (StillTooLarge 2)),
     [(3000, 85); (2550, 81); (2167, 77); (1841, 73); (1564, 69); (1329, 65);
      (1129, 65); (959, 65)]).
Proof. reflexivity. Qed.

End BudgetClaims.

(** ** The streaming fallback's strides: the claim *)

Module TiffClaims.
Import Tiff Inputs.








End TiffClaims.

(** ** The retrier: the claim *)

Module RetrierClaims.
Import Py World Retrier Inputs.

Section Transport.

Variable session_post : history -> request -> post_result.

Lemma storage_upload_run rq h :
  storage_upload session_post rq h
  = ([EvPost rq (session_post h rq)], outcome_of (session_post h rq)).
Proof. reflexivity. Qed.

(** One turn of the [while True] loop. *)
Lemma retry_loop_step rq retries attempt h :
  retry_loop session_post rq retries attempt h =
  let r0 := session_post h rq in
  let ev := [EvPost rq r0] in
  match outcome_of r0 with
  | Exc e =>
      if retryable e then
        if retries <? attempt + 1 then (ev, Exc e)
        else match backoff (attempt + 1) with
             | None => (ev, Exc OverflowError)
             | Some sleep_s =>
                 let ev1 :=
                   ev ++ [EvPrint Stderr (LWarnRetry (attempt + 1) retries e);
                          EvSleep sleep_s] in
                 let '(ev2, r) :=
                   retry_loop session_post rq retries (attempt + 1) (h ++ ev1) in
                 (ev1 ++ ev2, r)
             end
      else (ev, Exc e)
  | r => (ev, r)
  end.
Proof.
  rewrite retry_loop_unfold_eq. unfold retry_loop_unfold.
  rewrite storage_upload_run. cbv zeta.
  destruct (outcome_of (session_post h rq)) as [[]|e|c]; simpl; try reflexivity.
  destruct (retryable e); simpl; try reflexivity.
  destruct (Z_lt_dec retries (attempt + 1)) as [Hlt|Hge]; simpl.
  - apply Z.ltb_lt in Hlt. now rewrite Hlt.
  - assert (Hge' : (retries <? attempt + 1) = false) by (apply Z.ltb_ge; lia).
    rewrite Hge'. destruct (backoff (attempt + 1)); reflexivity.
Qed.




End Transport.



(** With no retry left the first failure is the last: one call, no sleep. *)
Example retrier_gives_up :
  storage_upload_with_retries (fun _ _ => Response 500 "no") some_request 0 []
  = ([EvPost some_request (Response 500 "no")],
     Exc (RuntimeError (UploadFailed 500 "no"))).
Proof. reflexivity. Qed.

(** Below zero retries there is still the one attempt. *)
Example retrier_negative_bound :
  length (posts (fst (storage_upload_with_retries (fun _ _ => Response 500 "no")
                        some_request (-1) []))) = 1%nat.
Proof. reflexivity. Qed.

(** From the 1751st failure on the delay cannot be computed. *)
Example backoff_out_of_range : backoff 1750 = Some 60%Q /\ backoff 1751 = None.
Proof. split; vm_compute; reflexivity. Qed.

End RetrierClaims.

(** ** Loading the ledger: the claim *)

Module LedgerLoadClaims.
Import Py World Json Driver.

(** C8, as stated, fails: loading a state file that cannot be parsed emits
    nothing at all, so no warning is logged. *)
Lemma unparsable_ledger_not_logged :
  ~ exists to line,
      In (EvPrint to line)
         (fst (load_uploaded_by_original (load_state true (Some None)) [])).
Proof. intros (to & line & H). exact H. Qed.

(** C8, amended: when reading or parsing the state file raises, loading
    neither raises nor prints, the ledger is empty, and the whole book runs
    exactly as it does when the state file is missing. *)
Theorem unparsable_ledger_is_empty :
  forall os session_post now optimize_image sha256_hex dumps
         a total book_slug listing resume_enabled h,
    load_uploaded_by_original (load_state resume_enabled (Some None)) h = ([], Val [])
    /\ run_book os session_post now optimize_image sha256_hex dumps
         a total book_slug (Some None) listing h
       = run_book os session_post now optimize_image sha256_hex dumps
           a total book_slug None listing h.
Proof.
  intros. split.
  - destruct resume_enabled; reflexivity.
  - unfold run_book. destruct (negb (a_no_resume a) && negb (a_dry_run a)); reflexivity.
Qed.

(** A state file that parses, but not to an object, is another matter:
    [state.get] raises and the run ends there. *)
Lemma non_object_ledger_raises :
  forall h, load_uploaded_by_original (load_state true (Some (Some (JArr [])))) h
            = ([], Exc AttributeError).
Proof. reflexivity. Qed.

End LedgerLoadClaims.

(** ** The conversion policy: the claim *)

Module PolicyClaims.
Import Py World Json Budget Driver OsPath Inputs.
Local Open Scope string_scope.

(** C4, at the failing input: with [--convert-all] a small SVG file is sent
    to the optimizer, eight times, and since Pillow does not read SVG the
    file ends in "Failed to convert image"; it is not read and passed on. *)
Theorem svg_is_optimized_under_convert_all :
  forall os h,
    route_of convert_all_args small_svg = Optimize
    /\ prepare os (fun _ _ _ _ => Raised UnidentifiedImageError) convert_all_args small_svg h
       = ([], Exc (RuntimeError (FailedToConvert "UnidentifiedImageError"))).
Proof. intros os h. split; reflexivity. Qed.

(** The same happens to an SVG file above the size ceiling. *)
Lemma large_svg_is_optimized :
  forall a f n,
    ext_of (f_name f) = "svg" ->
    f_stat_size f = Some n ->
    (a_max_upload_mb a * (1024 * 1024) < n)%Z ->
    route_of a f = Optimize.
Proof.
  intros a f n He Hs Hn. unfold route_of, do_convert, should_convert.
  rewrite He, Hs.
  change (mem "svg" CONVERT_FROM_EXTS) with false.
  change (mem "svg" SUPPORTED_PRESERVE_EXTS) with true.
  assert (E : (a_max_upload_mb a * (1024 * 1024) <? n)%Z = true) by (apply Z.ltb_lt; lia).
  rewrite E. rewrite orb_true_r. reflexivity.
Qed.

(** What does hold: without [--convert-all], an SVG file within the ceiling
    is read and passed on byte for byte, and the optimizer is not asked. *)
Lemma small_svg_is_preserved :
  forall os optimize_image a f n body h,
    ext_of (f_name f) = "svg" ->
    a_convert_all a = false ->
    f_stat_size f = Some n ->
    (n <= a_max_upload_mb a * (1024 * 1024))%Z ->
    f_bytes f = Some body ->
    route_of a f = PreserveSvg
    /\ exists p, prepare os optimize_image a f h = ([], Val p)
                 /\ p_body p = body /\ p_output_ext p = "svg"
                 /\ p_content_type p = "image/svg+xml".
Proof.
  intros os opt a f n body h He Hc Hs Hn Hb.
  assert (Hr : route_of a f = PreserveSvg).
  { unfold route_of, do_convert, should_convert. rewrite He, Hc, Hs.
    change (mem "svg" CONVERT_FROM_EXTS) with false.
    change (mem "svg" SUPPORTED_PRESERVE_EXTS) with true.
    assert (E : (a_max_upload_mb a * (1024 * 1024) <? n)%Z = false) by (apply Z.ltb_ge; lia).
    rewrite E. reflexivity. }
  split; auto. unfold prepare. rewrite Hr. unfold read_bytes. rewrite Hb.
  eexists. split; [reflexivity|]. simpl. auto.
Qed.

(** What the size-budget loop means for the driver: the body prepared for
    an optimized file, the one that is uploaded, is within the ceiling. *)
Lemma optimized_body_within_ceiling :
  forall os optimize_image a f h ev p,
    route_of a f = Optimize ->
    prepare os optimize_image a f h = (ev, Val p) ->
    (blen (p_body p) <= a_max_upload_mb a * 1024 * 1024)%Z.
Proof.
  intros os opt a f h ev p Hr. unfold prepare. rewrite Hr.
  unfold convert_within_budget.
  destruct (budget_loop _ _ _ _ _) as [v tried].
  destruct (Budget.opt v) as [o|]; [|discriminate].
  destruct (a_max_upload_mb a * 1024 * 1024 <? blen (output_bytes o))%Z eqn:E;
    [discriminate|].
  unfold bind, lift, ret. cbn. intros [= _ <-]. cbn. now apply Z.ltb_ge in E.
Qed.

End PolicyClaims.

(** ** The trace monad and the file system: facts *)

Module WorldFacts.
Import Py World Retrier Json Driver LedgerSpec.

Lemma bind_val {A B} (m : M A) (f : A -> M B) h ev x :
  m h = (ev, Val x) ->
  bind m f h = (ev ++ fst (f x (h ++ ev)), snd (f x (h ++ ev))).
Proof. intros H. unfold bind. rewrite H. now destruct (f x (h ++ ev)). Qed.

Lemma bind_exc {A B} (m : M A) (f : A -> M B) h ev e :
  m h = (ev, Exc e) -> bind m f h = (ev, Exc e).
Proof. intros H. unfold bind. now rewrite H. Qed.

Lemma bind_exit {A B} (m : M A) (f : A -> M B) h ev c :
  m h = (ev, SysExit c) -> bind m f h = (ev, SysExit c).
Proof. intros H. unfold bind. now rewrite H. Qed.


(** [if b: print(line)] followed by the end of the block *)
Lemma print_then_ret {A} (b : bool) (e : event) (x : A) h :
  bind (when b (emit e)) (fun _ => ret x) h = ((if b then [e] else []), Val x).
Proof. destruct b; reflexivity. Qed.

Lemma fs_after_app m es1 es2 :
  fs_after m (es1 ++ es2) = fs_after (fs_after m es1) es2.
Proof. apply fold_left_app. Qed.

Lemma string_length_append (s t : string) :
  String.length (s ++ t)%string = (String.length s + String.length t)%nat.
Proof. induction s as [|c s IH]; simpl; auto. Qed.

Lemma tmp_path_neq path : (tmp_path path =? path)%string = false.
Proof.
  apply String.eqb_neq. intros H. apply (f_equal String.length) in H.
  unfold tmp_path in H. rewrite string_length_append in H. simpl in H. lia.
Qed.

Lemma untouched_apply path m e :
  touches path e = false -> apply_event m e path = m path.
Proof.
  destruct e as [| | |[p|p|p c|src dst]]; simpl; auto; unfold fs_set; intros H.
  - rewrite String.eqb_sym, H. reflexivity.
  - rewrite String.eqb_sym, H. reflexivity.
  - apply orb_false_iff in H as [H1 H2].
    rewrite (String.eqb_sym path src), H1, (String.eqb_sym path dst), H2. reflexivity.
Qed.

Lemma untouched_fs_after path es : forall m,
  Forall (fun e => touches path e = false) es -> fs_after m es path = m path.
Proof.
  induction es as [|e es IH]; intros m H; [reflexivity|].
  inversion H; subst.
  change (fs_after m (e :: es)) with (fs_after (apply_event m e) es).
  rewrite IH by assumption. now apply untouched_apply.
Qed.

Lemma no_fs_untouched path es :
  Forall (fun e => is_fs e = false) es -> Forall (fun e => touches path e = false) es.
Proof.
  apply Forall_impl. intros [| | |op]; simpl; auto. discriminate.
Qed.

Lemma Forall_firstn {A} (P : A -> Prop) n (l : list A) :
  Forall P l -> Forall P (firstn n l).
Proof.
  intros H. rewrite <- (firstn_skipn n l) in H. now apply Forall_app in H as [H _].
Qed.

Lemma firstn_app_cases {A} n (a b : list A) :
  firstn n (a ++ b) = firstn n a
  \/ firstn n (a ++ b) = a ++ firstn (n - length a) b.
Proof.
  rewrite firstn_app. destruct (Nat.le_gt_cases n (length a)) as [H|H].
  - left. replace (n - length a)%nat with 0%nat by lia. simpl. apply app_nil_r.
  - right. rewrite firstn_all2 by lia. reflexivity.
Qed.

(** Appending to the temporary file builds up the text. *)
Lemma appends_build tmp cs : forall m acc,
  m tmp = Some acc ->
  fs_after m (map (fun c => EvFs (Append tmp c)) cs) tmp
  = Some (acc ++ PyStr.l2s cs)%string.
Proof.
  induction cs as [|c cs IH]; intros m acc H.
  - simpl. rewrite H. f_equal. clear. induction acc; simpl; congruence.
  - change (fs_after m (map (fun c0 => EvFs (Append tmp c0)) (c :: cs)))
      with (fs_after (apply_event m (EvFs (Append tmp c)))
              (map (fun c0 => EvFs (Append tmp c0)) cs)).
    rewrite (IH _ (acc ++ String c EmptyString)%string).
    + f_equal. simpl. clear. induction acc; simpl; congruence.
    + simpl. unfold fs_set. rewrite String.eqb_refl, H. reflexivity.
Qed.

Section Write.

Variable dumps : json -> string.

(** The events of [write_json_atomic] before the rename leave [path] alone
    and leave the whole text in the temporary file. *)
Lemma write_events_split path obj :
  exists w0,
    write_events dumps path obj = w0 ++ [EvFs (Replace (tmp_path path) path)]
    /\ Forall (fun e => touches path e = false) w0
    /\ forall m, fs_after m w0 (tmp_path path) = Some (dumps obj).
Proof.
  unfold write_events. eexists. split; [reflexivity|]. split.
  - constructor; [reflexivity|]. constructor; [simpl; apply tmp_path_neq|].
    apply Forall_forall. intros e He. apply in_map_iff in He as (c & <- & _).
    simpl. apply tmp_path_neq.
  - intros m.
    change (fs_after m (?e1 :: ?e2 :: ?l))
      with (fs_after (apply_event (apply_event m e1) e2) l).
    rewrite (appends_build _ _ _ EmptyString).
    + simpl. unfold PyStr.l2s, PyStr.s2l. now rewrite string_of_list_ascii_of_string.
    + cbn [apply_event apply_fs_op]. unfold fs_set. now rewrite String.eqb_refl.
Qed.

(** However far a [write_json_atomic] gets, [path] holds what it held or
    the whole new text. *)
Lemma write_events_atomic path obj m n :
  let q := firstn n (write_events dumps path obj) in
  (fs_after m q path = m path /\ (n <= length (write_events dumps path obj) - 1)%nat)
  \/ (fs_after m q path = Some (dumps obj) /\ q = write_events dumps path obj).
Proof.
  destruct (write_events_split path obj) as (w0 & Hw & Hun & Htmp).
  cbv zeta. rewrite Hw, length_app. simpl length.
  destruct (Nat.le_gt_cases n (length w0)) as [Hn|Hn].
  - left. split; [|lia]. rewrite firstn_app.
    replace (n - length w0)%nat with 0%nat by lia. simpl. rewrite app_nil_r.
    apply untouched_fs_after. now apply Forall_firstn.
  - right. rewrite firstn_all2 by (rewrite length_app; simpl; lia).
    split; auto. rewrite fs_after_app. simpl. unfold fs_set.
    rewrite (String.eqb_sym path (tmp_path path)), tmp_path_neq, String.eqb_refl.
    apply Htmp.
Qed.

Lemma write_events_via_tmp path obj :
  Forall (writes_via_tmp path) (write_events dumps path obj).
Proof.
  unfold write_events. apply Forall_app. split.
  - constructor; [exact I|]. constructor; [reflexivity|].
    apply Forall_forall. intros e He. apply in_map_iff in He as (c & <- & _).
    reflexivity.
  - constructor; [|constructor]. split; reflexivity.
Qed.

End Write.

Lemma no_fs_via_tmp path es :
  Forall (fun e => is_fs e = false) es -> Forall (writes_via_tmp path) es.
Proof. apply Forall_impl. intros [| | |op]; simpl; auto. discriminate. Qed.

End WorldFacts.

(** ** The driver: the shape of its traces *)

Module DriverFacts.
Import Py World Retrier Json Budget Driver LedgerSpec RetrierClaims WorldFacts.

Lemma outcome_of_val r0 u :
  outcome_of r0 = Val u ->
  exists status text, r0 = Response status text /\ status < 400.
Proof.
  destruct r0 as [status text|e]; simpl; [|discriminate].
  destruct (400 <=? status) eqn:E; [discriminate|].
  intros _. exists status, text. split; auto. apply Z.leb_gt in E. exact E.
Qed.

Section Run.

Variable os : OsPath.flavour.
Variable session_post : history -> request -> post_result.
Variable now : history -> string.
Variable optimize_image : local_file -> Z -> Z -> alpha_mode -> attempt.
Variable sha256_hex : list N -> string.
Variable dumps : json -> string.

Lemma net_trace_single rq r0 r :
  (r = Val tt -> outcome_of r0 = Val tt) -> (forall c, r <> SysExit c) ->
  net_trace rq [EvPost rq r0] r.
Proof.
  intros Hv Hc. split; [repeat constructor|]. split; [|split; [|exact Hc]].
  - intros rq' res [[= <- _]|[]]. reflexivity.
  - intros Hr. destruct (outcome_of_val r0 tt (Hv Hr)) as (st & tx & -> & Hlt).
    exists st, tx. simpl. auto.
Qed.

Lemma retry_loop_events rq retries n : forall attempt h,
  (Z.to_nat (retries - attempt) <= n)%nat ->
  let '(ev, r) := retry_loop session_post rq retries attempt h in
  net_trace rq ev r.
Proof.
  assert (Hno : forall r0 c, outcome_of r0 <> SysExit c).
  { intros [st tx|e'] c; simpl; [destruct (400 <=? st)|]; discriminate. }
  induction n as [|n IH]; intros attempt h Hn; rewrite retry_loop_step; cbv zeta.
  - assert (Hlt : (retries <? attempt + 1) = true) by (apply Z.ltb_lt; lia).
    rewrite Hlt.
    destruct (outcome_of (session_post h rq)) as [[]|e|c] eqn:E.
    + apply net_trace_single; [auto | discriminate].
    + destruct (retryable e); apply net_trace_single; discriminate.
    + exfalso. now apply (Hno _ _ E).
  - destruct (outcome_of (session_post h rq)) as [[]|e|c] eqn:E.
    + apply net_trace_single; [auto | discriminate].
    + destruct (retryable e); [|apply net_trace_single; discriminate].
      destruct (retries <? attempt + 1) eqn:Hlt; [apply net_trace_single; discriminate|].
      apply Z.ltb_ge in Hlt.
      destruct (backoff (attempt + 1)) as [d|]; [|apply net_trace_single; discriminate].
      match goal with |- context [retry_loop _ _ _ _ ?h1] =>
        specialize (IH (attempt + 1) h1 ltac:(lia));
        destruct (retry_loop session_post rq retries (attempt + 1) h1) as [ev2 r] end.
      destruct IH as (H1 & H2 & H3 & H4). repeat split; auto.
      * apply Forall_app. split; [repeat constructor | exact H1].
      * intros rq' res Hin. apply in_app_or in Hin as [Hin|Hin]; [|eauto].
        simpl in Hin. destruct Hin as [[= <- _]|[[=]|[[=]|[]]]]. reflexivity.
      * intros Hr. destruct (H3 Hr) as (st & tx & Hin & Hst).
        exists st, tx. split; auto. apply in_or_app. now right.
    + exfalso. now apply (Hno _ _ E).
Qed.

Lemma upload_or_exit_events a book_slug name rq h :
  let '(ev, r) := upload_or_exit session_post a book_slug name rq h in
  Forall (fun e => is_fs e = false) ev
  /\ (forall rq' res, In (EvPost rq' res) ev -> rq' = rq)
  /\ (r = Val tt ->
      exists status text, In (EvPost rq (Response status text)) ev /\ status < 400)
  /\ (forall e, r <> Exc e).
Proof.
  unfold upload_or_exit, try_except, storage_upload_with_retries.
  pose proof (retry_loop_events rq (a_retries a) _ 0 h (Nat.le_refl _)) as H.
  destruct (retry_loop session_post rq (a_retries a) 0 h) as [ev1 r1].
  destruct H as (H1 & H2 & H3 & H4).
  destruct r1 as [[]|e|c].
  - split; [exact H1|]. split; [exact H2|]. split; [exact H3|]. discriminate.
  - simpl. split; [|split; [|split]].
    + apply Forall_app; split; [exact H1 | repeat constructor].
    + intros rq' res Hin. apply in_app_or in Hin as [Hin|Hin]; [eauto|].
      simpl in Hin. destruct Hin as [[=]|[]].
    + discriminate.
    + discriminate.
  - exfalso. now apply (H4 c).
Qed.

Lemma prepare_events a f h : fst (prepare os optimize_image a f h) = [].
Proof.
  unfold prepare, read_bytes.
  destruct (route_of a f); unfold bind, lift, ret, raise.
  - destruct (f_bytes f); reflexivity.
  - destruct (fst (convert_within_budget _ _ _ _)); reflexivity.
  - destruct (f_bytes f); reflexivity.
Qed.

Lemma entry_field_make_entry name oname opath osize body oext ctype sha w hh md :
  let e := make_entry name oname opath osize body oext ctype sha w hh md in
  entry_field e "originalName" = Some (JStr name)
  /\ entry_field e "storagePath" = Some (JStr opath)
  /\ entry_field e "storedBytes" = Some (JInt (blen body))
  /\ entry_field e "storedSha256" = Some (JStr sha).
Proof. repeat split; reflexivity. Qed.

Lemma chunk_plain a book_slug ubo name ev (r : Res loop_state) :
  Forall (fun e => is_fs e = false) ev ->
  (forall st', r = Val st' -> uploaded_by_original st' = ubo) ->
  chunk_ok sha256_hex dumps a book_slug ubo name ev r.
Proof.
  intros Hnf Hr. exists ev, [], []. split; [now rewrite app_nil_r|].
  split; [exact Hnf|]. split; [constructor|]. left. split; auto.
Qed.

Lemma chunk_written a book_slug ubo name pre t entry post (r : Res loop_state) :
  Forall (fun e => is_fs e = false) pre ->
  Forall (fun e => is_fs e = false) post ->
  uploaded_ok sha256_hex pre name entry ->
  (forall st', r = Val st' -> uploaded_by_original st' = dict_set ubo name entry) ->
  chunk_ok sha256_hex dumps a book_slug ubo name
    (pre ++ write_events dumps (state_path a book_slug)
              (state_json book_slug t (dict_set ubo name entry)) ++ post) r.
Proof.
  intros Hpre Hpost Hup Hr.
  exists pre, (write_events dumps (state_path a book_slug)
                 (state_json book_slug t (dict_set ubo name entry))), post.
  split; [reflexivity|].
  split; [exact Hpre|]. split; [exact Hpost|]. right. exists t, entry. auto.
Qed.

Lemma persist_run a book_slug resume_enabled ubo name entry h :
  persist now dumps a book_slug resume_enabled ubo name entry h
  = if resume_enabled
    then (write_events dumps (state_path a book_slug)
            (state_json book_slug (now h) (dict_set ubo name entry)),
          Val (dict_set ubo name entry))
    else ([], Val ubo).
Proof.
  unfold persist. destruct resume_enabled; [|reflexivity].
  unfold bind, strftime_now, write_json_atomic, ret. cbn [app].
  now rewrite !app_nil_r.
Qed.

Lemma no_fs_if (b : bool) (e : event) :
  is_fs e = false -> Forall (fun e => is_fs e = false) (if b then [e] else []).
Proof. intros H. destruct b; repeat constructor. exact H. Qed.

(** The events of [deliver] are a chunk as [chunk_ok] describes it. *)
Lemma deliver_chunk a book_slug resume_enabled nfiles i f st p h :
  chunk_ok sha256_hex dumps a book_slug (uploaded_by_original st) (f_name f)
    (fst (deliver os session_post now sha256_hex dumps a book_slug resume_enabled
            nfiles i f st p h))
    (snd (deliver os session_post now sha256_hex dumps a book_slug resume_enabled
            nfiles i f st p h)).
Proof.
  unfold deliver.
  destruct (unique_name os (used_names st) (p_object_name p)) as [object_name used'].
  set (object_path := (a_prefix a ++ "/" ++ book_slug ++ "/images/" ++ object_name)%string).
  set (entry := make_entry _ _ _ _ _ _ _ _ _ _ _).
  destruct (a_dry_run a).
  - rewrite print_then_ret. cbn [fst snd].
    apply chunk_plain; [now apply no_fs_if | now intros st' [= <-]].
  - pose proof (upload_or_exit_events a book_slug (f_name f)
                  (asset_request a object_path (p_content_type p) (p_body p)) h) as Hup.
    destruct (upload_or_exit session_post a book_slug (f_name f) _ h) as [ev1 r1] eqn:Eup.
    destruct Hup as (Hnf & _ & Hok & Hne).
    destruct r1 as [[]|e|c].
    + destruct (Hok eq_refl) as (status & text & Hin & Hst).
      assert (Hup : uploaded_ok sha256_hex ev1 (f_name f) entry).
      { exists (asset_request a object_path (p_content_type p) (p_body p)), status, text.
        split; [exact Hin|]. split; [exact Hst|]. apply entry_field_make_entry. }
      rewrite (bind_val _ _ _ _ _ Eup). cbv beta.
      pose proof (persist_run a book_slug resume_enabled (uploaded_by_original st)
                    (f_name f) entry (h ++ ev1)) as Hp.
      destruct resume_enabled.
      * rewrite (bind_val _ _ _ _ _ Hp). cbv beta. rewrite print_then_ret.
        cbn [fst snd].
        apply chunk_written; [exact Hnf | now apply no_fs_if | exact Hup
                             | now intros st' [= <-]].
      * rewrite (bind_val _ _ _ _ _ Hp). cbv beta. rewrite print_then_ret.
        cbn [fst snd app].
        apply chunk_plain; [|now intros st' [= <-]].
        apply Forall_app. split; [exact Hnf | now apply no_fs_if].
    + exfalso. now apply (Hne e).
    + rewrite (bind_exit _ _ _ _ _ Eup). cbn [fst snd].
      apply chunk_plain; [exact Hnf | discriminate].
Qed.

Lemma skip_file_run nfiles i name entry sp st h :
  skip_file nfiles i name entry sp st h
  = ((if progress i nfiles 50 then [EvPrint Stdout (LResumeSkip i nfiles)] else []),
     Val {| uploaded_by_original := uploaded_by_original st;
            entries := entries st ++ [entry];
            srcMap := dict_set (srcMap st) name sp;
            used_names := used_names st;
            total_uploaded := total_uploaded st |}).
Proof. unfold skip_file. apply print_then_ret. Qed.

Lemma process_file_chunk a book_slug resume_enabled nfiles i f st h :
  chunk_ok sha256_hex dumps a book_slug (uploaded_by_original st) (f_name f)
    (fst (process_file os session_post now optimize_image sha256_hex dumps
            a book_slug resume_enabled nfiles i f st h))
    (snd (process_file os session_post now optimize_image sha256_hex dumps
            a book_slug resume_enabled nfiles i f st h)).
Proof.
  unfold process_file.
  destruct (if resume_enabled then resume_entry (uploaded_by_original st) (f_name f)
            else None) as [[entry sp]|].
  - rewrite skip_file_run. cbn [fst snd].
    apply chunk_plain; [now apply no_fs_if | now intros st' [= <-]].
  - pose proof (prepare_events a f h) as Hp.
    destruct (prepare os optimize_image a f h) as [ev0 r0] eqn:Eprep.
    simpl in Hp. subst ev0.
    destruct r0 as [p|e|c].
    + rewrite (bind_val _ _ _ _ _ Eprep). cbn [app]. apply deliver_chunk.
    + rewrite (bind_exc _ _ _ _ _ Eprep). apply chunk_plain; [constructor | discriminate].
    + rewrite (bind_exit _ _ _ _ _ Eprep). apply chunk_plain; [constructor | discriminate].
Qed.

(** *** The state file along a run *)

Lemma dict_get_set {V} (d : dict V) k v k' :
  dict_get (dict_set d k v) k' = if String.eqb k' k then Some v else dict_get d k'.
Proof.
  induction d as [|[k0 v0] d IH]; simpl.
  - reflexivity.
  - destruct (String.eqb k k0) eqn:E.
    + apply String.eqb_eq in E. subst k0. simpl. now destruct (String.eqb k' k).
    + simpl. rewrite IH. destruct (String.eqb k' k0) eqn:E0; auto.
      destruct (String.eqb k' k) eqn:E1; auto.
      apply String.eqb_eq in E0, E1. subst. rewrite String.eqb_refl in E. discriminate.
Qed.

Lemma uploaded_ok_app_l p q name entry :
  uploaded_ok sha256_hex p name entry -> uploaded_ok sha256_hex (p ++ q) name entry.
Proof.
  intros (rq & st & tx & Hin & H). exists rq, st, tx. split; auto.
  apply in_or_app. now left.
Qed.

Lemma uploaded_ok_app_r p q name entry :
  uploaded_ok sha256_hex q name entry -> uploaded_ok sha256_hex (p ++ q) name entry.
Proof.
  intros (rq & st & tx & Hin & H). exists rq, st, tx. split; auto.
  apply in_or_app. now right.
Qed.

Section Invariant.

Variable fs0 : fs.
Variable a : args.
Variable book_slug : string.
Variable L0 : dict json.

Let path := state_path a book_slug.

(** the state file is in order after the events [evs] *)
Let G (evs : list event) : Prop :=
  ledger_file_ok sha256_hex dumps book_slug L0
    (fs0 path) (fs_after fs0 evs path) evs.

Lemma sound_app L p q :
  ledger_sound sha256_hex L0 L p -> ledger_sound sha256_hex L0 L (p ++ q).
Proof.
  intros H name entry Hg. destruct (H name entry Hg); auto.
  right. now apply uploaded_ok_app_l.
Qed.

Lemma sound_set L p name entry :
  ledger_sound sha256_hex L0 L p ->
  uploaded_ok sha256_hex p name entry ->
  ledger_sound sha256_hex L0 (dict_set L name entry) p.
Proof.
  intros H Hup k e. rewrite dict_get_set.
  destruct (String.eqb k name) eqn:E.
  - apply String.eqb_eq in E. subst k. intros [= <-]. now right.
  - apply H.
Qed.

Lemma G_untouched x y :
  G x -> Forall (fun e => is_fs e = false) y -> G (x ++ y).
Proof.
  unfold G, ledger_file_ok. intros HG Hy.
  rewrite fs_after_app, (untouched_fs_after path y) by now apply no_fs_untouched.
  destruct HG as [HG | (t & L & HG & Hs)]; [now left|].
  right. exists t, L. split; auto. now apply sound_app.
Qed.

Lemma G_write x t L n :
  ledger_sound sha256_hex L0 L x -> G x ->
  G (x ++ firstn n (write_events dumps path (state_json book_slug t L))).
Proof.
  intros Hs HG. unfold G, ledger_file_ok in *. rewrite fs_after_app.
  destruct (write_events_atomic dumps path (state_json book_slug t L)
              (fs_after fs0 x) n) as [[Hq _] | [Hq _]]; rewrite Hq.
  - destruct HG as [HG | (t' & L' & HG & Hs')]; [now left|].
    right. exists t', L'. split; auto. now apply sound_app.
  - right. exists t, L. split; auto. now apply sound_app.
Qed.

Lemma chunk_preserves ubo name ev (r : Res loop_state) x :
  ledger_sound sha256_hex L0 ubo x -> G x ->
  chunk_ok sha256_hex dumps a book_slug ubo name ev r ->
  (forall n, G (x ++ firstn n ev))
  /\ (forall st', r = Val st' ->
        ledger_sound sha256_hex L0 (uploaded_by_original st') (x ++ ev)).
Proof.
  intros Hs HG (pre & w & post & -> & Hpre & Hpost & Hw). split.
  - intros n.
    destruct (firstn_app_cases n pre (w ++ post)) as [-> | ->].
    { apply G_untouched; auto. now apply Forall_firstn. }
    rewrite app_assoc.
    assert (HGpre : G (x ++ pre)) by now apply G_untouched.
    destruct (firstn_app_cases (n - length pre) w post) as [-> | ->].
    + destruct Hw as [[-> _] | (t & entry & -> & Hup & _)].
      * rewrite firstn_nil, app_nil_r. exact HGpre.
      * apply G_write; auto. apply sound_set.
        -- now apply sound_app.
        -- now apply uploaded_ok_app_r.
    + rewrite app_assoc. apply G_untouched; [|now apply Forall_firstn].
      destruct Hw as [[-> _] | (t & entry & -> & Hup & _)].
      * now rewrite app_nil_r.
      * rewrite <- (firstn_all (write_events _ _ _)).
        apply G_write; auto. apply sound_set.
        -- now apply sound_app.
        -- now apply uploaded_ok_app_r.
  - intros st' Hr. destruct Hw as [[-> Hu] | (t & entry & -> & Hup & Hu)].
    + rewrite (Hu st' Hr). now apply sound_app.
    + rewrite (Hu st' Hr). apply sound_set.
      * now apply sound_app.
      * apply uploaded_ok_app_r. now apply uploaded_ok_app_l.
Qed.

Lemma chunk_via_tmp ubo name ev (r : Res loop_state) :
  chunk_ok sha256_hex dumps a book_slug ubo name ev r ->
  Forall (writes_via_tmp path) ev.
Proof.
  intros (pre & w & post & -> & Hpre & Hpost & Hw).
  apply Forall_app. split; [now apply no_fs_via_tmp|].
  apply Forall_app. split; [|now apply no_fs_via_tmp].
  destruct Hw as [[-> _] | (t & entry & -> & _)]; [constructor|].
  apply write_events_via_tmp.
Qed.

Lemma process_files_inv resume_enabled nfiles files : forall i st h x,
  ledger_sound sha256_hex L0 (uploaded_by_original st) x -> G x ->
  let ev := fst (process_files os session_post now optimize_image sha256_hex dumps
                   a book_slug resume_enabled nfiles i files st h) in
  (forall n, G (x ++ firstn n ev)) /\ Forall (writes_via_tmp path) ev.
Proof.
  induction files as [|f rest IH]; intros i st h x Hs HG; cbv zeta.
  - simpl. split; [|constructor]. intros n. rewrite firstn_nil, app_nil_r. exact HG.
  - cbn [process_files].
    pose proof (process_file_chunk a book_slug resume_enabled nfiles i f st h) as Hc.
    destruct (process_file _ _ _ _ _ _ _ _ _ _ _ _ _ h) as [ev1 r1] eqn:E1.
    cbn [fst snd] in Hc.
    destruct (chunk_preserves _ _ _ _ x Hs HG Hc) as [Hpre Hend].
    pose proof (chunk_via_tmp _ _ _ _ Hc) as Hvia.
    destruct r1 as [st'|e|c].
    + rewrite (bind_val _ _ _ _ _ E1). cbn [fst].
      specialize (IH (i + 1) st' (h ++ ev1) (x ++ ev1) (Hend st' eq_refl)).
      assert (HG1 : G (x ++ ev1)).
      { rewrite <- (firstn_all ev1). apply Hpre. }
      destruct (IH HG1) as [IH1 IH2]. split.
      * intros n. destruct (firstn_app_cases n ev1
            (fst (process_files os session_post now optimize_image sha256_hex dumps
                    a book_slug resume_enabled nfiles (i + 1) rest st' (h ++ ev1))))
          as [-> | ->]; [apply Hpre|].
        rewrite app_assoc. apply IH1.
      * apply Forall_app. split; assumption.
    + rewrite (bind_exc _ _ _ _ _ E1). cbn [fst]. split; assumption.
    + rewrite (bind_exit _ _ _ _ _ E1). cbn [fst]. split; assumption.
Qed.

End Invariant.

Lemma load_run state h :
  load_uploaded_by_original state h
  = ([], match state with
         | JObj members =>
             Val match dict_get members "uploadedByOriginal" with
                 | Some (JObj d) => d
                 | _ => []
                 end
         | _ => Exc AttributeError
         end).
Proof.
  unfold load_uploaded_by_original, bind, lift, json_get.
  destruct state as [| | | | | |members]; try reflexivity.
  destruct (dict_get members "uploadedByOriginal") as [[]|]; reflexivity.
Qed.

(** The trace of a book: nothing when loading the ledger raises; otherwise
    the headline, the events of the files, and events that touch no file. *)
Lemma run_book_trace a total book_slug ledger_file listing h :
  let resume_enabled := negb (a_no_resume a) && negb (a_dry_run a) in
  let ev := fst (run_book os session_post now optimize_image sha256_hex dumps
                   a total book_slug ledger_file listing h) in
  ev = []
  \/ exists files_ev tail,
       ev = [EvPrint Stdout (LBook book_slug (Z.of_nat (length (limit_files a listing))))]
            ++ files_ev ++ tail
       /\ files_ev =
            fst (process_files os session_post now optimize_image sha256_hex dumps
                   a book_slug resume_enabled
                   (Z.of_nat (length (limit_files a listing))) 1 (limit_files a listing)
                   {| uploaded_by_original := initial_ledger resume_enabled ledger_file;
                      entries := []; srcMap := []; used_names := [];
                      total_uploaded := total |}
                   (h ++ [EvPrint Stdout
                            (LBook book_slug (Z.of_nat (length (limit_files a listing))))]))
       /\ Forall (fun e => is_fs e = false) tail
       /\ (forall rq res, In (EvPost rq res) tail ->
             rq_object_path rq = index_path a book_slug).
Proof.
  cbv zeta. unfold run_book.
  set (resume_enabled := negb (a_no_resume a) && negb (a_dry_run a)).
  pose proof (load_run (load_state resume_enabled ledger_file) h) as Hl.
  unfold initial_ledger.
  destruct (load_state resume_enabled ledger_file) as [| | | | | |members];
    try (rewrite (bind_exc _ _ _ _ _ Hl); now left).
  right. rewrite (bind_val _ _ _ _ _ Hl). cbv beta. cbn [app fst snd].
  set (ubo := match dict_get members "uploadedByOriginal" with
              | Some (JObj d) => d | _ => [] end).
  set (n := Z.of_nat (length (limit_files a listing))).
  unfold bind at 1. unfold emit at 1. cbv beta iota.
  unfold bind at 1. unfold strftime_now at 1. cbv beta iota. cbn [app].
  rewrite !app_nil_r.
  match goal with |- context [process_files _ _ _ _ _ _ _ _ _ _ _ _ ?st0 ?h0] =>
    destruct (process_files os session_post now optimize_image sha256_hex dumps
                a book_slug resume_enabled n 1 (limit_files a listing) st0 h0)
      as [fev fr] eqn:Ef end.
  destruct fr as [st|e|c].
  - rewrite (bind_val _ _ _ _ _ Ef). cbv beta. cbn [fst snd].
    match goal with |- context [bind ?m ?k ?h1] =>
      destruct (m h1) as [tev tr] eqn:Et;
      assert (Htail : Forall (fun e => is_fs e = false) tev
                      /\ forall rq res, In (EvPost rq res) tev ->
                           rq_object_path rq = index_path a book_slug)
    end.
    { destruct (a_dry_run a).
      - injection Et as <- <-. split; [repeat constructor|].
        intros rq res [[=]|[]].
      - match type of Et with bind ?m1 _ ?h1 = _ =>
          pose proof (retry_loop_events
                        (index_request a (index_path a book_slug)
                           (utf8_encode (PyStr.s2l (dumps (index_json
                              {| ix_bookSlug := book_slug;
                                 ix_generatedAt := now (h ++ [EvPrint Stdout (LBook book_slug n)]);
                                 ix_maxPx := a_max_px a;
                                 ix_jpegQuality := a_jpeg_quality a;
                                 ix_alphaMode := alpha_mode_name (a_alpha_mode a);
                                 ix_entries := entries st;
                                 ix_srcMap := srcMap st |})))))
                        (a_retries a) _ 0 h1 (Nat.le_refl _)) as Hnet;
          unfold storage_upload_with_retries in Et;
          destruct (retry_loop session_post _ (a_retries a) 0 h1) as [nev nr] eqn:En
        end.
        destruct Hnet as (H1 & H2 & _ & _).
        destruct nr as [[]|e|c].
        + rewrite (bind_val _ _ _ _ _ En) in Et. cbn [fst snd emit] in Et.
          injection Et as <- <-. split.
          * apply Forall_app. split; [exact H1 | repeat constructor].
          * intros rq res Hin. apply in_app_or in Hin as [Hin|[[=]|[]]].
            now rewrite (H2 _ _ Hin).
        + rewrite (bind_exc _ _ _ _ _ En) in Et. injection Et as <- <-. split; auto.
          intros rq res Hin. now rewrite (H2 _ _ Hin).
        + rewrite (bind_exit _ _ _ _ _ En) in Et. injection Et as <- <-. split; auto.
          intros rq res Hin. now rewrite (H2 _ _ Hin). }
    destruct Htail as [Ht1 Ht2].
    exists fev, tev. split; [|split; [reflexivity | split; assumption]].
    destruct tr as [[]|e|c].
    + rewrite (bind_val _ _ _ _ _ Et). cbn [fst ret]. now rewrite app_nil_r.
    + now rewrite (bind_exc _ _ _ _ _ Et).
    + now rewrite (bind_exit _ _ _ _ _ Et).
  - rewrite (bind_exc _ _ _ _ _ Ef). cbn [fst].
    exists fev, []. rewrite app_nil_r. split; [reflexivity|]. split; [reflexivity|].
    split; [constructor | intros rq res []].
  - rewrite (bind_exit _ _ _ _ _ Ef). cbn [fst].
    exists fev, []. rewrite app_nil_r. split; [reflexivity|]. split; [reflexivity|].
    split; [constructor | intros rq res []].
Qed.

End Run.

End DriverFacts.

(** ** The resume ledger: the claims *)

Module LedgerClaims.
Import Py World Retrier Json Budget Driver LedgerSpec WorldFacts DriverFacts.

(** C2: take any run of a book and stop it after any number [n] of its
    events.  The state file then holds what it held before the run, or one
    complete document [json.dumps(state)] in which every entry was loaded
    from the ledger at the start or records an upload that had been
    answered with success before; and along the whole run files are only
    written under the temporary name, which is then renamed to the state
    file. *)
Theorem ledger_complete_and_only_after_upload :
  forall os session_post now optimize_image sha256_hex dumps
         a total book_slug ledger_file listing h (fs0 : fs) (n : nat),
    let resume_enabled := negb (a_no_resume a) && negb (a_dry_run a) in
    let trace := fst (run_book os session_post now optimize_image sha256_hex dumps
                        a total book_slug ledger_file listing h) in
    let p := firstn n trace in
    ledger_file_ok sha256_hex dumps book_slug
      (initial_ledger resume_enabled ledger_file)
      (fs0 (state_path a book_slug))
      (fs_after fs0 p (state_path a book_slug)) p
    /\ Forall (writes_via_tmp (state_path a book_slug)) trace.
Proof.
  intros os session_post now optimize_image sha256_hex dumps
         a total book_slug ledger_file listing h fs0 n. cbv zeta.
  set (resume_enabled := negb (a_no_resume a) && negb (a_dry_run a)).
  set (L0 := initial_ledger resume_enabled ledger_file).
  destruct (run_book_trace os session_post now optimize_image sha256_hex dumps
              a total book_slug ledger_file listing h)
    as [-> | (files_ev & tail & -> & Hfiles & Htail & _)].
  { rewrite firstn_nil. split; [now left | constructor]. }
  fold resume_enabled in Hfiles. fold L0 in Hfiles.
  set (head := EvPrint Stdout (LBook book_slug (Z.of_nat (length (limit_files a listing))))) in *.
  assert (HG0 : ledger_file_ok sha256_hex dumps book_slug L0
                  (fs0 (state_path a book_slug))
                  (fs_after fs0 [head] (state_path a book_slug)) [head]) by now left.
  assert (Hs0 : ledger_sound sha256_hex L0 L0 [head]) by (intros k e Hk; now left).
  destruct (process_files_inv os session_post now optimize_image sha256_hex dumps
              fs0 a book_slug L0 resume_enabled
              (Z.of_nat (length (limit_files a listing))) (limit_files a listing) 1
              {| uploaded_by_original := L0; entries := []; srcMap := [];
                 used_names := []; total_uploaded := total |}
              (h ++ [head]) [head] Hs0 HG0) as [Hinv Hvia].
  cbv zeta in Hinv, Hvia. rewrite <- Hfiles in Hinv, Hvia.
  split.
  - destruct (firstn_app_cases n [head] (files_ev ++ tail)) as [-> | ->].
    { destruct n; [now left | simpl; rewrite firstn_nil; exact HG0]. }
    destruct (firstn_app_cases (n - length [head]) files_ev tail) as [-> | ->].
    + apply Hinv.
    + rewrite app_assoc.
      apply (G_untouched sha256_hex dumps fs0 a book_slug L0);
        [|now apply Forall_firstn].
      rewrite <- (firstn_all files_ev). apply Hinv.
  - apply Forall_app. split; [repeat constructor|].
    apply Forall_app. split; [exact Hvia | now apply no_fs_via_tmp].
Qed.

End LedgerClaims.

(** ** Re-running a book: facts *)

Module RerunFacts.
Import Py World Retrier Json Budget Driver LedgerSpec WorldFacts DriverFacts.

Lemma dict_get_none {V} (d : dict V) k :
  dict_get d k = None <-> ~ In k (map fst d).
Proof.
  induction d as [|[k0 v0] d IH]; simpl.
  - tauto.
  - destruct (String.eqb k k0) eqn:E.
    + apply String.eqb_eq in E. subst. split; [discriminate | tauto].
    + apply String.eqb_neq in E. rewrite IH. split; [|tauto].
      intros H [H1|H1]; [congruence | tauto].
Qed.

Lemma dict_set_fresh {V} (d : dict V) k v :
  dict_get d k = None -> dict_set d k v = d ++ [(k, v)].
Proof.
  induction d as [|[k0 v0] d IH]; simpl; auto.
  destruct (String.eqb k k0); [discriminate|]. intros H. now rewrite IH.
Qed.

Lemma resume_entry_valid d name e :
  dict_get d name = Some e -> valid_entry e ->
  resume_entry d name = Some (e, storage_path_of e).
Proof.
  intros Hg (m & p & -> & Hp). unfold resume_entry, storage_path_of, entry_field.
  now rewrite Hg, Hp.
Qed.




Section Run.

Variable os : OsPath.flavour.
Variable session_post : history -> request -> post_result.
Variable now : history -> string.
Variable optimize_image : local_file -> Z -> Z -> alpha_mode -> attempt.
Variable sha256_hex : list N -> string.
Variable dumps : json -> string.

Local Abbreviation process_files' :=
  (process_files os session_post now optimize_image sha256_hex dumps).
Local Abbreviation process_file' :=
  (process_file os session_post now optimize_image sha256_hex dumps).





End Run.

End RerunFacts.

(** ** Re-running a book: the claim *)

Module RerunClaims.
Import Py World Retrier Json Budget Driver LedgerSpec WorldFacts DriverFacts RerunFacts Inputs.
Local Open Scope string_scope.




(** A first run of the book and the run after it: same entries, same
    source map, and the second run posts the manifest only. *)
Example first_run_then_rerun :
  let run1 := run_book OsPath.Posix post_ok noon no_optimizer sha_stub dumps_stub
                default_args 0 "bk" None [a_png] [] in
  match snd run1 with
  | Val out1 =>
      let run2 := run_book OsPath.Posix post_ok noon no_optimizer sha_stub dumps_stub
                    default_args 0 "bk"
                    (Some (Some (state_json "bk" "t" (br_ledger out1)))) [a_png] [] in
      length (posts (fst run1)) = 2%nat
      /\ length (posts (fst run2)) = 1%nat
      /\ match snd run2 with
         | Val out2 => br_index out2 = br_index out1
         | _ => False
         end
  | _ => False
  end.
Proof. cbv zeta. vm_compute. auto. Qed.

(** After a first run the state file holds the whole document. *)
Example first_run_writes_ledger :
  fs_after (fun _ => None)
    (fst (run_book OsPath.Posix post_ok noon no_optimizer sha_stub dumps_stub
            default_args 0 "bk" None [a_png] []))
    "tmp/s/bk.json" = Some "{}"
  /\ fs_after (fun _ => None)
       (firstn 6 (fst (run_book OsPath.Posix post_ok noon no_optimizer sha_stub dumps_stub
                         default_args 0 "bk" None [a_png] [])))
       "tmp/s/bk.json" = None.
Proof. split; reflexivity. Qed.

End RerunClaims.

(** ** The sanitizer: length, first character, blank names *)

Module SanitizerMore.
Import PyStr OsPath Sanitizer Shape NameParts CharFacts StrFacts SplitFacts SanitizerFacts.

Lemma s2l_l2s (l : str) : s2l (l2s l) = l.
Proof. apply list_ascii_of_string_of_list_ascii. Qed.

Lemma len_hash10 raw : len (hash10 raw) = 10.
Proof. unfold len. destruct (hash10_chars raw) as [-> _]. reflexivity. Qed.

(** The result, with the parts of lines 175-188 named. *)
Lemma sanitize_parts os max_len name :
  let cb := clean_base (fst (splitext os (raw_of name))) in
  let max_base := Z.max 16 (max_len - len (stored_ext os name)) in
  sanitize os max_len name
  = (if max_base <? len cb
     then firstn (Z.to_nat (Z.max 8 (max_base - 11))) cb ++ [underscore] ++ hash10 (raw_of name)
     else cb) ++ stored_ext os name
  /\ truncates os max_len name = (max_base <? len cb).
Proof.
  cbv zeta. unfold sanitize, truncates, stored_ext, raw_of.
  set (raw := match strip name with [] => file_lit | _ => strip name end).
  destruct (splitext os raw) as [base ext]. cbn [fst snd].
  rewrite len_hash10. split; reflexivity.
Qed.

Lemma length_re_sub_runs cls b s : (length (re_sub_runs cls b s) <= length s)%nat.
Proof.
  revert b. induction s as [|c t IH]; intros b; simpl; [lia|].
  destruct (cls c); [destruct b|]; simpl;
    try (specialize (IH true); lia); specialize (IH false); lia.
Qed.

Lemma length_lstrip_by f s : (length (lstrip_by f s) <= length s)%nat.
Proof.
  destruct (lstrip_by_split f s) as (p & Hs & _).
  rewrite Hs at 2. rewrite length_app. lia.
Qed.

Lemma length_strip_by f s : (length (strip_by f s) <= length s)%nat.
Proof.
  unfold strip_by, rstrip_by. rewrite length_rev.
  etransitivity; [apply length_lstrip_by|]. rewrite length_rev. apply length_lstrip_by.
Qed.

Lemma clean_base_len base : len (clean_base base) <= Z.max 4 (len base).
Proof.
  unfold clean_base, len.
  set (s := strip_by is_trim _).
  assert (Hs : (length s <= length base)%nat).
  { subst s. etransitivity; [apply length_strip_by|].
    etransitivity; apply length_re_sub_runs. }
  destruct s; [change (length file_lit) with 4%nat; lia | lia].
Qed.

Lemma allowed_alnum_or_trim c : allowed c = is_alnum c || is_trim c.
Proof.
  unfold allowed, is_alnum, is_trim.
  destruct (is_upper_ascii c), (is_lower_ascii c), (is_digit c),
    (is_char dot c), (is_char underscore c), (is_char hyphen c); reflexivity.
Qed.

Lemma clean_head sb :
  is_clean sb -> exists c t, sb = c :: t /\ is_alnum c = true.
Proof.
  intros (Hne & Ha & _ & Hh & _). destruct sb as [|c t]; [congruence|].
  exists c, t. split; [reflexivity|]. simpl in Ha, Hh.
  apply andb_true_iff in Ha as [Ha _]. rewrite allowed_alnum_or_trim in Ha.
  destruct (is_trim c); [discriminate|]. now rewrite orb_false_r in Ha.
Qed.

Lemma lstrip_by_all f s : forallb f s = true -> lstrip_by f s = [].
Proof.
  induction s as [|c t IH]; simpl; [reflexivity|].
  intros H. apply andb_true_iff in H as [-> H]. auto.
Qed.

Lemma splitext_no_sep os p :
  none_of (is_sep os) p = true ->
  splitext os p =
    let dotIndex := rfind (is_char dot) p in
    if -1 <? dotIndex then
      if existsb (fun c => negb (is_char dot c)) (slice p 0 dotIndex)
      then (slice p 0 dotIndex, skipn (Z.to_nat dotIndex) p)
      else (p, [])
    else (p, []).
Proof.
  intros H. unfold splitext, rfind. rewrite (rfind_from_none _ 0 p H). reflexivity.
Qed.

Lemma none_of_weaken (f g : ascii -> bool) s :
  (forall c, g c = true -> f c = true) -> none_of f s = true -> none_of g s = true.
Proof.
  intros Hfg. unfold none_of. induction s as [|c t IH]; simpl; [reflexivity|].
  intros H. apply andb_true_iff in H as [Hc H]. rewrite IH by exact H.
  destruct (g c) eqn:E; [rewrite (Hfg _ E) in Hc; discriminate | reflexivity].
Qed.

(** X1: the result of [safe_storage_filename] has at most
    max(max_len, len(ext) + 19) characters, [ext] being the extension of the
    stripped name; so the cap [max_len] holds whenever the extension leaves
    19 characters for the base. *)
Theorem safe_storage_filename_length :
  forall os (name : string) (max_len : Z),
    len (s2l (safe_storage_filename_len os name max_len))
    <= Z.max max_len (len (stored_ext os (s2l name)) + 19).
Proof.
  intros os name max_len. unfold safe_storage_filename_len. rewrite s2l_l2s.
  destruct (sanitize_parts os max_len (s2l name)) as [-> _].
  set (cb := clean_base _). set (ext := stored_ext _ _).
  set (max_base := Z.max 16 (max_len - len ext)).
  destruct (max_base <? len cb) eqn:E.
  - apply Z.ltb_lt in E. pose proof (len_hash10 (raw_of (s2l name))) as Hh.
    unfold len in *. rewrite !length_app, length_firstn. simpl length. lia.
  - apply Z.ltb_ge in E. unfold len in *. rewrite length_app. lia.
Qed.

(** X2: the result of [safe_storage_filename] is never empty and starts with
    a letter A-Z or a-z or a digit, never with a dot, an underscore or a
    hyphen. *)
Theorem safe_storage_filename_starts_alnum :
  forall os (name : string) (max_len : Z),
    exists c rest,
      s2l (safe_storage_filename_len os name max_len) = c :: rest
      /\ is_alnum c = true.
Proof.
  intros os name max_len. unfold safe_storage_filename_len. rewrite s2l_l2s.
  destruct (sanitize_parts os max_len (s2l name)) as [-> _].
  set (cb := clean_base _).
  destruct (clean_head cb (clean_base_clean _)) as (c & t & Hcb & Hc).
  destruct (_ <? _).
  - rewrite Hcb.
    assert (Hk : exists k, Z.to_nat (Z.max 8 (Z.max 16 (max_len - len (stored_ext os (s2l name))) - 11)) = S k).
    { exists (Z.to_nat (Z.max 8 (Z.max 16 (max_len - len (stored_ext os (s2l name))) - 11)) - 1)%nat. lia. }
    destruct Hk as [k ->]. simpl. eauto.
  - rewrite Hcb. simpl. eauto.
Qed.

(** X3: the result of [safe_storage_filename] lies within the class
    [A-Za-z0-9._-] exactly when the lower-cased extension of the stripped
    name does; the base part always conforms. *)
Theorem safe_storage_filename_class_is_that_of_extension :
  forall os (name : string) (max_len : Z),
    forallb allowed (s2l (safe_storage_filename_len os name max_len))
    = forallb allowed (stored_ext os (s2l name)).
Proof.
  intros os name max_len. unfold safe_storage_filename_len. rewrite s2l_l2s.
  destruct (sanitize_base_in_class os max_len (s2l name)) as (sb & -> & Ha).
  rewrite forallb_app, Ha. reflexivity.
Qed.

(** X4: a name that is empty or holds whitespace only is stored as file,
    whatever [max_len] is. *)
Theorem safe_storage_filename_of_blank :
  forall os (name : string) (max_len : Z),
    forallb is_space (s2l name) = true ->
    safe_storage_filename_len os name max_len = "file"%string.
Proof.
  intros os name max_len H. unfold safe_storage_filename_len.
  destruct (sanitize_parts os max_len (s2l name)) as [-> _].
  assert (Hraw : raw_of (s2l name) = file_lit).
  { unfold raw_of, strip, strip_by. rewrite (lstrip_by_all _ _ H). reflexivity. }
  unfold stored_ext. rewrite Hraw.
  assert (Hsp : splitext os file_lit = (file_lit, [])) by (destruct os; reflexivity).
  rewrite Hsp. cbn [fst snd]. rewrite (clean_base_fix _ file_lit_clean).
  change (len (lower [])) with 0. change (len file_lit) with 4.
  replace (Z.max 16 (max_len - 0) <? 4) with false by (symmetry; apply Z.ltb_ge; lia).
  reflexivity.
Qed.

Lemma safe_storage_filename_of_blank_witness :
  forallb is_space (s2l "  ") = true
  /\ safe_storage_filename_len Posix "  " 180 = "file"%string.
Proof.
  split; [reflexivity|]. apply (safe_storage_filename_of_blank Posix "  " 180). reflexivity.
Defined.

(** X5: the hash suffix is appended only to names that are too long: when
    [safe_storage_filename] truncates, the stripped name has more than
    [max_len] characters, and more than 16. *)
Theorem hash_suffix_only_when_too_long :
  forall os (name : string) (max_len : Z),
    truncates os max_len (s2l name) = true ->
    max_len < len (strip (s2l name)) /\ 16 < len (strip (s2l name)).
Proof.
  intros os name max_len H.
  destruct (sanitize_parts os max_len (s2l name)) as [_ Ht]. rewrite Ht in H. clear Ht.
  apply Z.ltb_lt in H.
  pose proof (clean_base_len (fst (splitext os (raw_of (s2l name))))) as Hcb.
  pose proof (splitext_shape os (raw_of (s2l name))) as Hsh.
  unfold stored_ext in H.
  destruct (splitext os (raw_of (s2l name))) as [base ext] eqn:Esp. cbn [fst snd] in *.
  destruct Hsh as [Hraw _]. rewrite len_lower in H.
  assert (Hlen : len (raw_of (s2l name)) = len base + len ext).
  { rewrite Hraw. unfold len. rewrite length_app. lia. }
  assert (Hext : 0 <= len ext) by (unfold len; lia).
  unfold raw_of in Hlen. destruct (strip (s2l name)) as [|c t] eqn:Es.
  - change (len file_lit) with 4 in Hlen. lia.
  - lia.
Qed.

Lemma hash_suffix_only_when_too_long_witness :
  truncates Posix 180 (s2l Inputs.long_png) = true
  /\ 180 < len (strip (s2l Inputs.long_png)).
Proof.
  split; [vm_compute; reflexivity|].
  apply (hash_suffix_only_when_too_long Posix Inputs.long_png 180). vm_compute; reflexivity.
Defined.

(** Where no separator occurs, both families of systems give the same name. *)
Lemma safe_storage_filename_same_on_both_systems :
  forall (name : string) (max_len : Z),
    none_of (is_sep Nt) (s2l name) = true ->
    safe_storage_filename_len Posix name max_len = safe_storage_filename_len Nt name max_len.
Proof.
  intros name max_len H. unfold safe_storage_filename_len. f_equal.
  unfold sanitize.
  destruct (raw_facts Nt (s2l name)) as (_ & _ & Hs). specialize (Hs H).
  set (raw := match strip (s2l name) with [] => file_lit | _ => strip (s2l name) end) in *.
  assert (Hp : none_of (is_sep Posix) raw = true).
  { revert Hs. apply none_of_weaken. intros c Hc. simpl in *. rewrite Hc. apply orb_true_r. }
  rewrite (splitext_no_sep Posix raw Hp), (splitext_no_sep Nt raw Hs). reflexivity.
Qed.

Lemma safe_storage_filename_same_on_both_systems_witness :
  none_of (is_sep Nt) (s2l "Fig 3-1 (final).TIF") = true
  /\ safe_storage_filename_len Posix "Fig 3-1 (final).TIF" 180
     = safe_storage_filename_len Nt "Fig 3-1 (final).TIF" 180.
Proof.
  split; [reflexivity|].
  apply (safe_storage_filename_same_on_both_systems "Fig 3-1 (final).TIF" 180). reflexivity.
Defined.

End SanitizerMore.

(** ** The content type and the conversion policy *)

Module PolicyMore.
Import Py World Json Budget Driver PyStr OsPath Sanitizer Inputs MoreInputs.
Import CharFacts StrFacts SanitizerFacts SanitizerMore WorldFacts.
Local Open Scope string_scope.
Local Open Scope Z_scope.

Lemma lower_fixed s : Forall (fun c => lower_char c = c) (lower s).
Proof. induction s; constructor; [apply lower_char_idem | assumption]. Qed.

Lemma Forall_lstrip_by (P : ascii -> Prop) f s : Forall P s -> Forall P (lstrip_by f s).
Proof.
  induction 1 as [|c t Hc Ht IH]; simpl; [constructor|].
  destruct (f c); [exact IH | now constructor].
Qed.

Lemma lower_lstrip_lower f s : lower (lstrip_by f (lower s)) = lstrip_by f (lower s).
Proof.
  pose proof (Forall_lstrip_by _ f _ (lower_fixed s)) as H.
  induction H as [|c t Hc Ht IH]; [reflexivity|].
  unfold lower in *. simpl. now rewrite Hc, IH.
Qed.

Lemma lstrip_by_idem f s : lstrip_by f (lstrip_by f s) = lstrip_by f s.
Proof. apply lstrip_by_id, lstrip_by_head_ok. Qed.

(** X6: [mime_for_ext] gives the same content type with or without a dot
    before the extension and whatever its case; the extension the driver
    normalises beforehand gets the type of the raw suffix. *)
Theorem mime_for_ext_normalises :
  forall ext name : string,
    mime_for_ext ("." ++ ext) = mime_for_ext ext
    /\ mime_for_ext (l2s (lower (s2l ext))) = mime_for_ext ext
    /\ mime_for_ext (ext_of name) = mime_for_ext (path_suffix name).
Proof.
  intros ext name. split; [|split].
  - reflexivity.
  - unfold mime_for_ext. now rewrite s2l_l2s, lower_idem.
  - unfold mime_for_ext, ext_of.
    now rewrite s2l_l2s, lower_lstrip_lower, lstrip_by_idem.
Qed.

Lemma mem_cases x l : mem x l = true -> In x l.
Proof.
  unfold mem. intros H. apply existsb_exists in H as (y & Hin & He).
  apply String.eqb_eq in He. now subst.
Qed.

(** X7: a file that does not go to the optimizer and is read without error is
    prepared byte for byte: --convert-all is off, its extension is one of
    the preserve set, its size is known and within the ceiling, it keeps its
    extension, gets an image content type and the sanitized original name,
    and no width, height or mode. *)
Theorem preserved_file_is_verbatim :
  forall os optimize_image a f h ev p,
    route_of a f <> Optimize ->
    prepare os optimize_image a f h = (ev, Val p) ->
    f_bytes f = Some (p_body p)
    /\ a_convert_all a = false
    /\ In (ext_of (f_name f)) ["jpg"; "jpeg"; "png"; "webp"; "gif"; "svg"]
    /\ (exists n, f_stat_size f = Some n /\ n <= a_max_upload_mb a * (1024 * 1024))
    /\ p_output_ext p = ext_of (f_name f)
    /\ In (p_content_type p)
          ["image/jpeg"; "image/png"; "image/webp"; "image/gif"; "image/svg+xml"]
    /\ p_object_name p = safe_storage_filename os (f_name f)
    /\ p_width p = None /\ p_height p = None /\ p_mode p = None.
Proof.
  intros os optimize_image a f h ev p Hr Hp.
  assert (Hdc : do_convert a f = false).
  { unfold route_of in Hr. destruct (do_convert a f); [|reflexivity].
    rewrite andb_false_r in Hr. congruence. }
  unfold do_convert in Hdc.
  apply orb_false_iff in Hdc as [Hdc Hsup]. apply orb_false_iff in Hdc as [Hall Hsc].
  apply negb_false_iff in Hsup.
  assert (Hstat : exists n, f_stat_size f = Some n /\ n <= a_max_upload_mb a * (1024 * 1024)).
  { unfold should_convert in Hsc.
    destruct (mem (ext_of (f_name f)) CONVERT_FROM_EXTS); [discriminate|].
    destruct (f_stat_size f) as [n|]; [|discriminate].
    exists n. split; [reflexivity|]. apply Z.ltb_ge in Hsc. exact Hsc. }
  pose proof (mem_cases _ _ Hsup) as Hin.
  unfold prepare in Hp.
  destruct (route_of a f) eqn:R; [| congruence |]; unfold read_bytes in Hp;
    destruct (f_bytes f) as [b|]; try discriminate Hp;
    injection Hp as _ <-; cbn [p_body p_output_ext p_content_type p_object_name
                               p_width p_height p_mode].
  - unfold route_of in R.
    destruct (ext_of (f_name f) =? "svg")%string eqn:Es.
    + apply String.eqb_eq in Es. rewrite Es in *. repeat split; auto.
      do 4 right; left; reflexivity.
    + simpl in R. destruct (do_convert a f); discriminate.
  - repeat split; auto.
    unfold route_of in R.
    destruct (ext_of (f_name f) =? "svg")%string eqn:Es.
    + unfold do_convert in R. rewrite Hall, Hsc, Hsup in R. discriminate.
    + apply String.eqb_neq in Es.
      simpl in Hin. destruct Hin as [E|[E|[E|[E|[E|[E|[]]]]]]]; rewrite <- E in *;
        try (exfalso; apply Es; reflexivity); vm_compute; auto 10.
Qed.

Lemma preserved_file_is_verbatim_witness :
  route_of default_args a_png <> Optimize
  /\ prepare Posix no_optimizer default_args a_png []
     = ([], Val {| p_body := [7%N]; p_output_ext := "png"; p_object_name := "a.png";
                   p_content_type := "image/png";
                   p_width := None; p_height := None; p_mode := None |})
  /\ f_bytes a_png = Some [7%N].
Proof.
  assert (H1 : route_of default_args a_png <> Optimize) by (vm_compute; discriminate).
  assert (H2 : prepare Posix no_optimizer default_args a_png []
     = ([], Val {| p_body := [7%N]; p_output_ext := "png"; p_object_name := "a.png";
                   p_content_type := "image/png";
                   p_width := None; p_height := None; p_mode := None |}))
    by (vm_compute; reflexivity).
  split; [exact H1|]. split; [exact H2|].
  exact (proj1 (preserved_file_is_verbatim Posix no_optimizer default_args a_png [] [] _ H1 H2)).
Defined.



End PolicyMore.

(** ** The size-budget loop and the configuration *)

Module BudgetMore.
Import Py Budget Inputs BudgetClaims.

Lemma shrink_px_le P x : 800 <= P -> x <= P -> shrink_px x <= P.
Proof.
  intros HP Hx. unfold shrink_px, scale_px.
  apply Z.max_lub; [exact HP|].
  destruct (Z_lt_le_dec x 0) as [Hneg|Hpos].
  - assert (Z.quot (x * 17) 20 <= 0) by (apply Z.quot_le_upper_bound; lia). lia.
  - assert (Z.quot (x * 17) 20 <= x) by (apply Z.quot_le_upper_bound; lia). lia.
Qed.

Lemma shrink_q_le Q x : 65 <= Q -> x <= Q -> shrink_q x <= Q.
Proof. intros HQ Hx. unfold shrink_q. lia. Qed.

Section Loop.

Variable optimize_image : Z -> Z -> attempt.
Variable max_bytes : Z.

Lemma budget_loop_within P Q n : forall v tried,
  800 <= P -> 65 <= Q -> cur_px v <= P -> cur_q v <= Q ->
  Forall (fun pq => fst pq <= P /\ snd pq <= Q) tried ->
  Forall (fun pq => fst pq <= P /\ snd pq <= Q)
         (snd (budget_loop optimize_image max_bytes n v tried)).
Proof.
  induction n as [|n IH]; intros v tried HP HQ Hpx Hq Htried; [exact Htried|].
  rewrite budget_loop_S. cbv zeta.
  assert (Ht' : Forall (fun pq => fst pq <= P /\ snd pq <= Q) (tried ++ [(cur_px v, cur_q v)])).
  { apply Forall_app. split; [exact Htried|]. repeat constructor; assumption. }
  destruct (optimize_image (cur_px v) (cur_q v)) as [o|e].
  - destruct (blen (output_bytes o) <=? max_bytes); [exact Ht'|].
    apply IH; auto; cbn; [now apply shrink_px_le | now apply shrink_q_le].
  - apply IH; auto; cbn; [now apply shrink_px_le | now apply shrink_q_le].
Qed.

End Loop.

(** X9: with --max-px at least 800 and --jpeg-quality at least 65, the
    first call of the optimizer uses the configured values and no call asks
    for a larger size or quality than configured. *)
Theorem budget_attempts_stay_within_configuration :
  forall optimize_image max_upload_mb max_px jpeg_quality,
    800 <= max_px -> 65 <= jpeg_quality ->
    let tried :=
      snd (convert_within_budget optimize_image max_upload_mb max_px jpeg_quality) in
    nth_error tried 0 = Some (max_px, jpeg_quality)
    /\ Forall (fun pq => fst pq <= max_px /\ snd pq <= jpeg_quality) tried.
Proof.
  intros optimize_image max_upload_mb max_px jpeg_quality Hpx Hq. cbv zeta.
  unfold convert_within_budget.
  pose proof (budget_loop_within optimize_image (max_upload_mb * 1024 * 1024)
                max_px jpeg_quality 8
                {| cur_px := max_px; cur_q := jpeg_quality; last_err := None; opt := None |}
                [] Hpx Hq (Z.le_refl _) (Z.le_refl _) (Forall_nil _)) as Hw.
  assert (Hext : forall n v t, exists more,
            snd (budget_loop optimize_image (max_upload_mb * 1024 * 1024) n v t) = t ++ more).
  { intros n v t.
    pose proof (budget_loop_inv optimize_image (max_upload_mb * 1024 * 1024) n v t) as Hinv.
    destruct (budget_loop optimize_image (max_upload_mb * 1024 * 1024) n v t) as [v' t'].
    destruct Hinv as (_ & Hm & _). exact Hm. }
  assert (H0 : nth_error (snd (budget_loop optimize_image (max_upload_mb * 1024 * 1024) 8
                 {| cur_px := max_px; cur_q := jpeg_quality; last_err := None; opt := None |}
                 [])) 0 = Some (max_px, jpeg_quality)).
  { rewrite budget_loop_S. cbv zeta. cbn [app cur_px cur_q].
    destruct (optimize_image max_px jpeg_quality) as [o|e].
    - destruct (blen (output_bytes o) <=? max_upload_mb * 1024 * 1024); [reflexivity|].
      match goal with |- context [budget_loop _ _ ?n ?v ?t] =>
        destruct (Hext n v t) as (more & Hm) end.
      rewrite Hm. reflexivity.
    - match goal with |- context [budget_loop _ _ ?n ?v ?t] =>
        destruct (Hext n v t) as (more & Hm) end.
      rewrite Hm. reflexivity. }
  destruct (budget_loop optimize_image (max_upload_mb * 1024 * 1024) 8 _ []) as [v tried].
  cbn [snd] in *.
  destruct (opt v) as [o|]; [destruct (_ <? _)|]; cbn [snd]; auto.
Qed.

Lemma budget_attempts_stay_within_configuration_witness :
  800 <= 3000 /\ 65 <= 85
  /\ Forall (fun pq => fst pq <= 3000 /\ snd pq <= 85)
       (snd (convert_within_budget two_bytes 0 3000 85)).
Proof.
  split; [lia|]. split; [lia|].
  apply (budget_attempts_stay_within_configuration two_bytes 0 3000 85); lia.
Defined.

(** With a configured size below 800 the second attempt asks for more. *)
Example budget_second_attempt_can_exceed_small_max_px :
  snd (convert_within_budget two_bytes 0 500 85)
  = [(500, 85); (800, 81); (800, 77); (800, 73); (800, 69); (800, 65); (800, 65); (800, 65)].
Proof. vm_compute. reflexivity. Qed.

End BudgetMore.

(** ** The retrier for any bound *)

Module RetrierMore.
Import Py World Retrier Traces Inputs RetrierClaims.

Lemma outcome_exc_not_ok rq r0 e :
  outcome_of r0 = Exc e -> is_ok_post (EvPost rq r0) = false.
Proof.
  destruct r0 as [st tx|e']; simpl; [|reflexivity].
  destruct (400 <=? st) eqn:E; [|discriminate]. intros _.
  apply Z.leb_le in E. apply Z.ltb_ge. lia.
Qed.

Lemma outcome_never_exits r0 c : outcome_of r0 <> SysExit c.
Proof. destruct r0 as [st tx|e']; simpl; [destruct (400 <=? st)|]; discriminate. Qed.

Lemma backoff_bounds attempt d :
  1 <= attempt -> backoff attempt = Some d -> (3 # 2 <= d)%Q /\ (d <= 60)%Q.
Proof.
  intros Ha H. unfold backoff in H. destruct (attempt <? 1751); [|discriminate].
  injection H as <-. split; [|apply Q.le_min_l].
  apply Q.min_glb; [discriminate|].
  change (3 # 2)%Q with (Qpower (3 # 2) 1) at 1.
  apply Qpower_le_compat_l; [exact Ha | discriminate].
Qed.

Section Transport.

Variable session_post : history -> request -> post_result.

(** The loop from [attempt] on, for any bound: [k] failed attempts, each
    followed by its warning and its sleep, then one last attempt. *)
Lemma retry_loop_shape rq retries n : forall attempt h,
  0 <= attempt ->
  (Z.to_nat (retries - attempt) <= n)%nat ->
  let '(ev, r) := retry_loop session_post rq retries attempt h in
  exists (k : nat) pre res,
    ev = pre ++ [EvPost rq res]
    /\ length (posts ev) = S k
    /\ length (sleeps ev) = k
    /\ Z.of_nat k <= Z.max 0 (Z.min retries 1750 - attempt)
    /\ Forall (fun d => (3 # 2 <= d)%Q /\ (d <= 60)%Q) (sleeps ev)
    /\ ok_posts pre = []
    /\ (r = outcome_of res
        \/ (r = Exc OverflowError
            /\ exists e, outcome_of res = Exc e /\ retryable e = true)).
Proof.
  assert (Hone : forall h r,
    (r = outcome_of (session_post h rq)
     \/ (r = Exc OverflowError
         /\ exists e, outcome_of (session_post h rq) = Exc e /\ retryable e = true)) ->
    forall attempt,
    exists (k : nat) pre res,
      [EvPost rq (session_post h rq)] = pre ++ [EvPost rq res]
      /\ length (posts [EvPost rq (session_post h rq)]) = S k
      /\ length (sleeps [EvPost rq (session_post h rq)]) = k
      /\ Z.of_nat k <= Z.max 0 (Z.min retries 1750 - attempt)
      /\ Forall (fun d => (3 # 2 <= d)%Q /\ (d <= 60)%Q)
                (sleeps [EvPost rq (session_post h rq)])
      /\ ok_posts pre = []
      /\ (r = outcome_of res
          \/ (r = Exc OverflowError
              /\ exists e, outcome_of res = Exc e /\ retryable e = true))).
  { intros h r Hr attempt. exists 0%nat, [], (session_post h rq).
    split; [reflexivity|]. split; [reflexivity|]. split; [reflexivity|].
    split; [lia|]. split; [constructor|]. split; [reflexivity | exact Hr]. }
  induction n as [|n IH]; intros attempt h H0 Hn; rewrite retry_loop_step; cbv zeta.
  - assert (Hlt : (retries <? attempt + 1) = true) by (apply Z.ltb_lt; lia).
    rewrite Hlt.
    destruct (outcome_of (session_post h rq)) as [[]|e|c] eqn:E;
      [| destruct (retryable e) |]; apply Hone; left; auto.
  - destruct (outcome_of (session_post h rq)) as [[]|e|c] eqn:E.
    + apply Hone; left; auto.
    + destruct (retryable e) eqn:Er; [|apply Hone; left; auto].
      destruct (retries <? attempt + 1) eqn:Hlt; [apply Hone; left; auto|].
      apply Z.ltb_ge in Hlt.
      destruct (backoff (attempt + 1)) as [d|] eqn:Eb.
      * match goal with |- context [retry_loop _ _ _ _ ?h1] =>
          specialize (IH (attempt + 1) h1 ltac:(lia) ltac:(lia));
          destruct (retry_loop session_post rq retries (attempt + 1) h1) as [ev2 r] end.
        destruct IH as (k & pre & res & Hev & Hp & Hs & Hk & Hd & Hok & Hr).
        assert (Ha : attempt + 1 <= 1750).
        { unfold backoff in Eb. destruct (attempt + 1 <? 1751) eqn:E1; [|discriminate].
          apply Z.ltb_lt in E1. lia. }
        exists (S k),
          (([EvPost rq (session_post h rq)]
            ++ [EvPrint Stderr (LWarnRetry (attempt + 1) retries e); EvSleep d]) ++ pre), res.
        split; [rewrite Hev; now rewrite app_assoc|].
        split; [unfold posts in *; rewrite filter_app, length_app, Hp; reflexivity|].
        split; [unfold sleeps in *; rewrite flat_map_app, length_app, Hs; reflexivity|].
        split; [lia|].
        split.
        { unfold sleeps in *. rewrite flat_map_app. apply Forall_app. split; [|exact Hd].
          simpl. constructor; [|constructor].
          apply (backoff_bounds (attempt + 1)); [lia | exact Eb]. }
        split; [|exact Hr].
        unfold ok_posts in *. rewrite filter_app, Hok, app_nil_r.
        cbn [app filter]. rewrite (outcome_exc_not_ok rq _ e E). reflexivity.
      * apply Hone. right. split; [reflexivity|]. exists e. auto.
    + exfalso. exact (outcome_never_exits _ _ E).
Qed.

End Transport.

(** The calls answered below 400 in a trace that ends in the deciding call. *)
Lemma ok_posts_of_last rq pre res (r : Res unit) :
  ok_posts pre = [] ->
  r = outcome_of res
  \/ (r = Exc OverflowError /\ exists e, outcome_of res = Exc e /\ retryable e = true) ->
  length (ok_posts (pre ++ [EvPost rq res]))
  = match r with Val _ => 1%nat | _ => 0%nat end.
Proof.
  intros Hok Hr. unfold ok_posts in *. rewrite filter_app, Hok. cbn [app filter].
  destruct Hr as [->|(-> & e & He & _)].
  - destruct res as [st tx|e]; simpl; [|reflexivity].
    destruct (400 <=? st) eqn:E.
    + apply Z.leb_le in E. assert (E' : (st <? 400) = false) by (apply Z.ltb_ge; lia).
      now rewrite E'.
    + apply Z.leb_gt in E. apply Z.ltb_lt in E. now rewrite E.
  - now rewrite (outcome_exc_not_ok rq _ e He).
Qed.

(** X10: for every retry bound, negative and huge ones included, and every
    transport, the retrier makes k+1 calls and k sleeps with
    k <= max(0, min(retries, 1750)), every sleep lasts between 1.5 and 60
    seconds, exactly one call is answered below 400 when it returns and
    none when it raises, and it never ends the process. *)
Theorem retrier_attempts_and_waits_for_any_bound :
  forall session_post rq (retries : Z) h,
    let '(ev, r) := storage_upload_with_retries session_post rq retries h in
    exists k : nat,
      length (posts ev) = S k
      /\ length (sleeps ev) = k
      /\ Z.of_nat k <= Z.max 0 (Z.min retries 1750)
      /\ Forall (fun d => (3 # 2 <= d)%Q /\ (d <= 60)%Q) (sleeps ev)
      /\ length (ok_posts ev) = match r with Val _ => 1%nat | _ => 0%nat end
      /\ (forall c, r <> SysExit c).
Proof.
  intros session_post rq retries h. unfold storage_upload_with_retries.
  pose proof (retry_loop_shape session_post rq retries _ 0 h (Z.le_refl 0) (Nat.le_refl _)) as H.
  destruct (retry_loop session_post rq retries 0 h) as [ev r].
  destruct H as (k & pre & res & Hev & Hp & Hs & Hk & Hd & Hok & Hr).
  exists k. split; [exact Hp|]. split; [exact Hs|]. split; [lia|]. split; [exact Hd|].
  split.
  - subst ev. now apply ok_posts_of_last.
  - intros c Hc. destruct Hr as [->|(-> & _)]; [|discriminate].
    exact (outcome_never_exits _ _ Hc).
Qed.

End RetrierMore.

(** ** The atomic writer and the files *)

Module WriteMore.
Import Py World Json Driver LedgerSpec WorldFacts.

(** Writing to one file leaves every other file as it was. *)
Lemma appends_frame tmp q cs : forall m,
  q <> tmp -> fs_after m (map (fun c => EvFs (Append tmp c)) cs) q = m q.
Proof.
  induction cs as [|c cs IH]; intros m Hq; [reflexivity|].
  cbn [map fs_after fold_left].
  change (fold_left apply_event ?es ?m0) with (fs_after m0 es).
  rewrite IH by exact Hq. simpl. unfold fs_set.
  apply String.eqb_neq in Hq. now rewrite Hq.
Qed.

(** The files after the events of one [write_json_atomic]. *)
Lemma write_events_result (dumps : json -> string) path obj (m : fs) :
  let ev := write_events dumps path obj in
  fs_after m ev path = Some (dumps obj)
  /\ fs_after m ev (tmp_path path) = None
  /\ forall q, q <> path -> q <> tmp_path path -> fs_after m ev q = m q.
Proof.
  cbv zeta.
  destruct (write_events_split dumps path obj) as (w0 & Hw & _ & Htmp).
  assert (Hw0 : w0 = EvFs (MkdirParents path) :: EvFs (Truncate (tmp_path path))
                       :: map (fun c => EvFs (Append (tmp_path path) c)) (PyStr.s2l (dumps obj))).
  { unfold write_events in Hw. apply app_inj_tail in Hw. symmetry. apply Hw. }
  rewrite Hw, !fs_after_app. cbn [fs_after fold_left apply_event apply_fs_op].
  change (fold_left apply_event ?es ?m0) with (fs_after m0 es).
  unfold fs_set. cbv beta.
  assert (Hpt : (path =? tmp_path path)%string = false).
  { rewrite String.eqb_sym. apply tmp_path_neq. }
  rewrite Hpt, !String.eqb_refl. split; [apply Htmp|]. split; [reflexivity|].
  intros q Hq Hqt.
  pose proof Hq as Hq'. pose proof Hqt as Hqt'.
  apply String.eqb_neq in Hq', Hqt'. rewrite Hqt', Hq'.
  rewrite Hw0. cbn [fs_after fold_left apply_event apply_fs_op].
  change (fold_left apply_event ?es ?m0) with (fs_after m0 es).
  rewrite appends_frame by exact Hqt. unfold fs_set. now rewrite Hqt'.
Qed.

(** X11: after [write_json_atomic] the file at [path] holds the serialized
    document, the temporary file is gone, and every other file is as it
    was. *)
Theorem write_json_atomic_installs_document :
  forall (dumps : json -> string) (path : string) (obj : json) (m : fs) (h : history),
    let '(ev, r) := write_json_atomic dumps path obj h in
    r = Val tt
    /\ fs_after m ev path = Some (dumps obj)
    /\ fs_after m ev (tmp_path path) = None
    /\ forall q, q <> path -> q <> tmp_path path -> fs_after m ev q = m q.
Proof.
  intros dumps path obj m h. unfold write_json_atomic.
  split; [reflexivity | apply write_events_result].
Qed.

End WriteMore.

(** ** The loop body as a step *)

Module StepFacts.
Import Py World Retrier Json Budget Driver LedgerSpec Traces Steps.
Import RetrierClaims WorldFacts DriverFacts RerunFacts RetrierMore.

Section Run.

Variable os : OsPath.flavour.
Variable session_post : history -> request -> post_result.
Variable now : history -> string.
Variable optimize_image : local_file -> Z -> Z -> alpha_mode -> attempt.
Variable sha256_hex : list N -> string.
Variable dumps : json -> string.

Local Abbreviation process_files' :=
  (process_files os session_post now optimize_image sha256_hex dumps).
Local Abbreviation process_file' :=
  (process_file os session_post now optimize_image sha256_hex dumps).
Local Abbreviation file_step' :=
  (file_step os session_post optimize_image sha256_hex dumps).
Local Abbreviation files_run' :=
  (files_run os session_post optimize_image sha256_hex dumps).

(** [prepare] reads the file and calls the optimizer; it prints nothing,
    does not look at what happened before and never ends the process. *)
Lemma prepare_pure a f h :
  prepare os optimize_image a f h = prepare os optimize_image a f [].
Proof.
  unfold prepare, read_bytes.
  destruct (route_of a f); unfold bind, lift, ret, raise.
  - destruct (f_bytes f); reflexivity.
  - destruct (fst (convert_within_budget _ _ _ _)); reflexivity.
  - destruct (f_bytes f); reflexivity.
Qed.

Lemma convert_never_exits oi mb px q c :
  fst (convert_within_budget oi mb px q) <> SysExit c.
Proof.
  unfold convert_within_budget.
  destruct (budget_loop oi (mb * 1024 * 1024) 8 _ _) as [v tried].
  destruct (opt v); [|discriminate].
  destruct (_ <? _); discriminate.
Qed.

Lemma prepare_never_exits a f h ev c :
  prepare os optimize_image a f h <> (ev, SysExit c).
Proof.
  unfold prepare, read_bytes.
  destruct (route_of a f); unfold bind, lift, ret, raise.
  - destruct (f_bytes f); discriminate.
  - pose proof (convert_never_exits
                  (fun px q => optimize_image f px q (a_alpha_mode a))
                  (a_max_upload_mb a) (a_max_px a) (a_jpeg_quality a)) as Hne.
    destruct (fst (convert_within_budget _ _ _ _)); try discriminate.
    exfalso. now apply (Hne code).
  - destruct (f_bytes f); discriminate.
Qed.

Local Open Scope py_scope.

Lemma deliver_unfold a book_slug resume_enabled nfiles i f st p :
  deliver os session_post now sha256_hex dumps a book_slug resume_enabled nfiles i f st p
  = if a_dry_run a then
      (when (progress i nfiles 25) (emit (EvPrint Stdout (LDryRun i nfiles))) ;;;
       ret (entered os sha256_hex a book_slug f st p
              (uploaded_by_original st) (total_uploaded st)))
    else
      (upload_or_exit session_post a book_slug (f_name f)
         (request_of os a book_slug st p) ;;;
       ubo' <- persist now dumps a book_slug resume_enabled (uploaded_by_original st)
                 (f_name f) (entry_of os sha256_hex a book_slug f st p) ;;
       when (progress i nfiles 25) (emit (EvPrint Stdout (LUploaded i nfiles))) ;;;
       ret (entered os sha256_hex a book_slug f st p ubo' (total_uploaded st + 1))).
Proof.
  unfold deliver, entered, entry_of, request_of, object_path_of, stored_name.
  destruct (unique_name os (used_names st) (p_object_name p)); reflexivity.
Qed.

Lemma upload_or_exit_run a book_slug name rq h :
  upload_or_exit session_post a book_slug name rq h
  = match storage_upload_with_retries session_post rq (a_retries a) h with
    | (ev, Exc e) => (ev ++ [EvPrint Stderr (LErrUpload book_slug name e)], SysExit 1)
    | (ev, r) => (ev, r)
    end.
Proof.
  unfold upload_or_exit, try_except.
  destruct (storage_upload_with_retries session_post rq (a_retries a) h) as [ev [u|e|c]];
    reflexivity.
Qed.

Lemma process_file_step a book_slug resume_enabled nfiles i f st h :
  file_step' a book_slug resume_enabled nfiles i f st
    (fst (process_file' a book_slug resume_enabled nfiles i f st h))
    (snd (process_file' a book_slug resume_enabled nfiles i f st h)).
Proof.
  unfold process_file.
  destruct (if resume_enabled then resume_entry (uploaded_by_original st) (f_name f)
            else None) as [[entry sp]|] eqn:Hl.
  - rewrite skip_file_run. cbn [fst snd].
    destruct resume_enabled; [|discriminate]. now apply StepSkip.
  - pose proof (prepare_events os optimize_image a f h) as Hp.
    pose proof (prepare_pure a f h) as Hpure.
    pose proof (prepare_never_exits a f h) as Hne.
    destruct (prepare os optimize_image a f h) as [ev0 r0] eqn:Eprep.
    simpl in Hp. subst ev0. symmetry in Hpure.
    destruct r0 as [p|e|c].
    + rewrite (bind_val _ _ _ _ _ Eprep). cbn [app].
      rewrite deliver_unfold.
      destruct (a_dry_run a) eqn:Hdry.
      * rewrite print_then_ret. cbn [fst snd]. now apply StepDryRun.
      * pose proof (upload_or_exit_run a book_slug (f_name f)
                      (request_of os a book_slug st p) (h ++ [])) as Em.
        pose proof (retry_loop_events session_post (request_of os a book_slug st p)
                      (a_retries a) _ 0 (h ++ []) (Nat.le_refl _)) as Hnet.
        change (retry_loop session_post ?rq ?n 0 ?h0)
          with (storage_upload_with_retries session_post rq n h0) in Hnet.
        destruct (storage_upload_with_retries session_post
                    (request_of os a book_slug st p) (a_retries a) (h ++ []))
          as [uev ur] eqn:Eup.
        destruct Hnet as (_ & _ & _ & Hnx).
        destruct ur as [[]|e|c].
        -- rewrite (bind_val _ _ _ _ _ Em). cbv beta.
           pose proof (persist_run now dumps a book_slug resume_enabled
                         (uploaded_by_original st) (f_name f)
                         (entry_of os sha256_hex a book_slug f st p) ((h ++ []) ++ uev)) as Ep.
           destruct resume_enabled.
           ++ rewrite (bind_val _ _ _ _ _ Ep). cbv beta. rewrite print_then_ret.
              cbn [fst snd].
              apply (StepUploaded os session_post optimize_image sha256_hex dumps
                       a book_slug true nfiles i f st p uev (now ((h ++ []) ++ uev))); auto.
              now exists (h ++ []).
           ++ rewrite (bind_val _ _ _ _ _ Ep). cbv beta. rewrite print_then_ret.
              cbn [fst snd].
              apply (StepUploaded os session_post optimize_image sha256_hex dumps
                       a book_slug false nfiles i f st p uev EmptyString); auto.
              now exists (h ++ []).
        -- rewrite (bind_exit _ _ _ _ _ Em). cbn [fst snd].
           apply (StepUploadFails os session_post optimize_image sha256_hex dumps
                    a book_slug resume_enabled nfiles i f st p uev e); auto.
           now exists (h ++ []).
        -- exfalso. now apply (Hnx c).
    + rewrite (bind_exc _ _ _ _ _ Eprep). cbn [fst snd]. now apply StepPrepareRaises.
    + exfalso. now apply (Hne [] c).
Qed.

Lemma process_files_run a book_slug resume_enabled nfiles files : forall i st h,
  files_run' a book_slug resume_enabled nfiles i files st
    (fst (process_files' a book_slug resume_enabled nfiles i files st h))
    (snd (process_files' a book_slug resume_enabled nfiles i files st h)).
Proof.
  induction files as [|f rest IH]; intros i st h; cbn [process_files].
  - apply RunDone.
  - pose proof (process_file_step a book_slug resume_enabled nfiles i f st h) as Hs.
    destruct (process_file' a book_slug resume_enabled nfiles i f st h) as [ev1 r1] eqn:E1.
    cbn [fst snd] in Hs.
    destruct r1 as [st1|e|c].
    + rewrite (bind_val _ _ _ _ _ E1). cbn [fst snd].
      eapply RunStep; [exact Hs | apply IH].
    + rewrite (bind_exc _ _ _ _ _ E1). cbn [fst snd].
      apply RunStop; [exact Hs | discriminate].
    + rewrite (bind_exit _ _ _ _ _ E1). cbn [fst snd].
      apply RunStop; [exact Hs | discriminate].
Qed.

(** A book as a whole: the ledger is loaded, the files are worked off, the
    manifest is uploaded. *)
Lemma run_book_cases a total book_slug ledger_file listing h :
  let resume_enabled := negb (a_no_resume a) && negb (a_dry_run a) in
  let files := limit_files a listing in
  let n := Z.of_nat (length files) in
  let head := EvPrint Stdout (LBook book_slug n) in
  let run := run_book os session_post now optimize_image sha256_hex dumps
               a total book_slug ledger_file listing h in
  run = ([], Exc AttributeError)
  \/ exists fev fr t,
       files_run' a book_slug resume_enabled n 1 files
         (start_state (initial_ledger resume_enabled ledger_file) total) fev fr
       /\ match fr with
          | Val st =>
              if a_dry_run a
              then run = (head :: fev ++ [EvPrint Stdout (LDryRunIndex (index_path a book_slug))],
                          Val (result_of a book_slug t st))
              else exists uev ur,
                     uploads session_post a
                       (manifest_request dumps a book_slug (manifest_of a book_slug t st))
                       uev ur
                     /\ match ur with
                        | Val _ =>
                            run = (head :: fev ++ uev
                                     ++ [EvPrint Stdout (LUploadedIndex (index_path a book_slug))],
                                   Val (result_of a book_slug t st))
                        | Exc e => run = (head :: fev ++ uev, Exc e)
                        | SysExit _ => False
                        end
          | Exc e => run = (head :: fev, Exc e)
          | SysExit c => run = (head :: fev, SysExit c)
          end.
Proof.
  cbv zeta.
  set (resume_enabled := negb (a_no_resume a) && negb (a_dry_run a)).
  set (n := Z.of_nat (length (limit_files a listing))).
  remember (run_book os session_post now optimize_image sha256_hex dumps
              a total book_slug ledger_file listing h) as run eqn:Erun.
  unfold run_book in Erun. fold resume_enabled in Erun. fold n in Erun.
  pose proof (load_run (load_state resume_enabled ledger_file) h) as Hl.
  unfold initial_ledger.
  destruct (load_state resume_enabled ledger_file) as [| | | | | |members];
    try (rewrite (bind_exc _ _ _ _ _ Hl) in Erun; now left).
  right. unfold bind, emit, strftime_now, ret in Erun. rewrite Hl in Erun.
  cbv beta iota in Erun. cbn [app] in Erun. rewrite ?app_nil_r in Erun.
  set (ubo := match dict_get members "uploadedByOriginal" with
              | Some (JObj d) => d | _ => [] end) in *.
  set (h0 := h ++ [EvPrint Stdout (LBook book_slug n)]) in *.
  pose proof (process_files_run a book_slug resume_enabled n (limit_files a listing)
                1 (start_state ubo total) h0) as Hfr.
  unfold start_state in Hfr at 2 3.
  destruct (process_files' a book_slug resume_enabled n 1 (limit_files a listing)
              _ h0) as [fev fr] eqn:Ef.
  cbn [fst snd] in Hfr.
  exists fev, fr, (now h0). split; [exact Hfr|].
  destruct fr as [st|e|c]; [|exact Erun|exact Erun].
  destruct (a_dry_run a) eqn:Hdry.
  - cbn [app] in Erun. rewrite ?app_nil_r in Erun. exact Erun.
  - pose proof (retry_loop_events session_post
                  (manifest_request dumps a book_slug (manifest_of a book_slug (now h0) st))
                  (a_retries a) _ 0 (h0 ++ fev) (Nat.le_refl _)) as Hnet.
    change (retry_loop session_post ?rq ?k 0 ?hx)
      with (storage_upload_with_retries session_post rq k hx) in Hnet.
    change (index_request a (index_path a book_slug) _)
      with (manifest_request dumps a book_slug (manifest_of a book_slug (now h0) st))
      in Erun.
    destruct (storage_upload_with_retries session_post
                (manifest_request dumps a book_slug (manifest_of a book_slug (now h0) st))
                (a_retries a) (h0 ++ fev)) as [uev ur] eqn:Eup.
    destruct Hnet as (_ & _ & _ & Hnx).
    exists uev, ur. split; [now exists (h0 ++ fev)|].
    destruct ur as [[]|e|c].
    + cbn [app] in Erun. rewrite ?app_nil_r in Erun. rewrite <- ?app_assoc in Erun.
      exact Erun.
    + exact Erun.
    + now apply (Hnx c).
Qed.

End Run.

End StepFacts.

(** ** Facts about the loop over the files *)

Module RunFacts.
Import Py World Retrier Json Budget Driver LedgerSpec Traces Steps.
Import RetrierClaims WorldFacts DriverFacts RerunFacts RetrierMore StepFacts.

Lemma dict_has_set {V} (d : dict V) k v k' :
  dict_has (dict_set d k v) k' = String.eqb k' k || dict_has d k'.
Proof.
  unfold dict_has. rewrite dict_get_set. destruct (String.eqb k' k); reflexivity.
Qed.

Lemma stdout_if (b : bool) (l : log_line) :
  Forall (fun e => is_stdout_print e = true) (if b then [EvPrint Stdout l] else []).
Proof. destruct b; repeat constructor. Qed.

Section Run.

Variable os : OsPath.flavour.
Variable session_post : history -> request -> post_result.
Variable now : history -> string.
Variable optimize_image : local_file -> Z -> Z -> alpha_mode -> attempt.
Variable sha256_hex : list N -> string.
Variable dumps : json -> string.
Variable a : args.
Variable book_slug : string.

Local Abbreviation files_run' :=
  (files_run os session_post optimize_image sha256_hex dumps a book_slug).
Local Abbreviation file_step' :=
  (file_step os session_post optimize_image sha256_hex dumps a book_slug).

(** What one retried upload looks like in the trace. *)
Lemma uploads_facts rq ev r :
  uploads session_post a rq ev r ->
  Forall (fun e => is_fs e = false) ev
  /\ (forall rq' res, In (EvPost rq' res) ev -> rq' = rq)
  /\ length (ok_posts ev) = match r with Val _ => 1%nat | _ => 0%nat end
  /\ (exists pre res, ev = pre ++ [EvPost rq res]
        /\ (forall e, r = Exc e -> is_ok_post (EvPost rq res) = false))
  /\ (forall c, r <> SysExit c).
Proof.
  intros [h Hup].
  pose proof (retry_loop_events session_post rq (a_retries a) _ 0 h (Nat.le_refl _)) as Hnet.
  pose proof (retry_loop_shape session_post rq (a_retries a) _ 0 h (Z.le_refl 0) (Nat.le_refl _))
    as Hsh.
  unfold storage_upload_with_retries in Hup. rewrite Hup in Hnet, Hsh.
  destruct Hnet as (H1 & H2 & _ & H4).
  destruct Hsh as (k' & pre & res & Hev & _ & _ & _ & _ & Hok & Hr).
  split; [exact H1|]. split; [exact H2|].
  split; [subst ev; now apply ok_posts_of_last|]. split; [|exact H4].
  exists pre, res. split; [exact Hev|]. intros e He.
  destruct Hr as [Hr|(_ & e' & He' & _)].
  - rewrite He in Hr. symmetry in Hr. now apply (outcome_exc_not_ok rq _ e).
  - now apply (outcome_exc_not_ok rq _ e').
Qed.

(** *** Runs without the ledger *)

Lemma files_run_dry nfiles i files st fev fr :
  files_run' false nfiles i files st fev fr ->
  a_dry_run a = true ->
  Forall (fun e => is_stdout_print e = true) fev
  /\ forall st', fr = Val st' ->
       total_uploaded st' = total_uploaded st
       /\ uploaded_by_original st' = uploaded_by_original st.
Proof.
  intros Hrun Hdry.
  induction Hrun as [i st | i f rest st ev1 st1 ev2 r Hstep Hrest IH | i f rest st ev1 r Hstep Hr].
  - split; [constructor|]. now intros st' [= <-].
  - destruct IH as [IH1 IH2].
    inversion Hstep; subst; try discriminate; try congruence.
    split.
    + apply Forall_app. split; [apply stdout_if | exact IH1].
    + intros st' Hst'. destruct (IH2 st' Hst') as [-> ->]. auto.
  - inversion Hstep; subst; try discriminate; try congruence.
    split; [constructor | discriminate].
Qed.

Lemma files_run_no_resume nfiles i files st fev fr :
  files_run' false nfiles i files st fev fr ->
  Forall (fun e => is_fs e = false) fev
  /\ forall st', fr = Val st' ->
       uploaded_by_original st' = uploaded_by_original st
       /\ (a_dry_run a = false ->
           total_uploaded st' = total_uploaded st + Z.of_nat (length files)).
Proof.
  intros Hrun.
  induction Hrun as [i st | i f rest st ev1 st1 ev2 r Hstep Hrest IH | i f rest st ev1 r Hstep Hr].
  - split; [constructor|]. intros st' [= <-]. split; [reflexivity|]. simpl. lia.
  - destruct IH as [IH1 IH2].
    inversion Hstep; subst; try discriminate.
    + split.
      * apply Forall_app. split; [now apply no_fs_if | exact IH1].
      * intros st' Hst'. destruct (IH2 st' Hst') as [-> Ht].
        split; [reflexivity|]. congruence.
    + match goal with H : uploads _ _ _ _ _ |- _ =>
        destruct (uploads_facts _ _ _ H) as (Hnf & _) end.
      split.
      * apply Forall_app. split; [|exact IH1].
        apply Forall_app. split; [exact Hnf|]. now apply no_fs_if.
      * intros st' Hst'. destruct (IH2 st' Hst') as [-> Ht].
        split; [reflexivity|]. intros Hd. rewrite (Ht Hd). cbn [entered total_uploaded length].
        lia.
  - inversion Hstep; subst; try discriminate; try (exfalso; now eapply Hr).
    + split; [constructor | discriminate].
    + match goal with H : uploads _ _ _ _ _ |- _ =>
        destruct (uploads_facts _ _ _ H) as (Hnf & _) end.
      split; [|discriminate].
      apply Forall_app. split; [exact Hnf | repeat constructor].
Qed.

(** *** The manifest *)

Lemma files_run_manifest re nfiles i files st fev st' :
  files_run' re nfiles i files st fev (Val st') ->
  length (entries st') = (length (entries st) + length files)%nat
  /\ forall name,
       dict_has (srcMap st') name = dict_has (srcMap st) name || mem name (map f_name files).
Proof.
  intros Hrun. remember (Val st') as fr eqn:Efr.
  induction Hrun as [i st | i f rest st ev1 st1 ev2 r Hstep Hrest IH | i f rest st ev1 r Hstep Hr].
  - injection Efr as <-. split; [simpl; lia|]. intros name. simpl. now rewrite orb_false_r.
  - destruct (IH Efr) as [IH1 IH2]. clear IH.
    assert (Hone : length (entries st1) = S (length (entries st))
                   /\ forall name, dict_has (srcMap st1) name
                                   = String.eqb name (f_name f) || dict_has (srcMap st) name).
    { inversion Hstep; subst; cbn [entries srcMap entered]; rewrite length_app;
        (split; [simpl; lia | intros name; apply dict_has_set]). }
    destruct Hone as [H1 H2]. split.
    + rewrite IH1, H1. simpl. lia.
    + intros name. rewrite IH2, H2. cbn [map mem existsb]. unfold mem.
      destruct (dict_has (srcMap st) name), (String.eqb name (f_name f)); reflexivity.
  - subst r. exfalso. now eapply Hr.
Qed.

(** *** Transport calls along the loop *)

Lemma write_events_no_post path obj :
  Forall (fun e => is_post e = false) (write_events dumps path obj).
Proof.
  unfold write_events. apply Forall_app. split; [|repeat constructor].
  constructor; [reflexivity|]. constructor; [reflexivity|].
  apply Forall_forall. intros e He. apply in_map_iff in He as (c & <- & _). reflexivity.
Qed.

Lemma no_post_if (b : bool) s (l : log_line) :
  Forall (fun e => is_post e = false) (if b then [EvPrint s l] else []).
Proof. destruct b; repeat constructor. Qed.

Lemma no_post_in es rq res :
  Forall (fun e => is_post e = false) es -> ~ In (EvPost rq res) es.
Proof.
  intros H Hin. rewrite Forall_forall in H. specialize (H _ Hin). discriminate.
Qed.

Lemma no_post_ok es : Forall (fun e => is_post e = false) es -> ok_posts es = [].
Proof.
  induction 1 as [|e es He _ IH]; [reflexivity|].
  unfold ok_posts in *. cbn [filter]. rewrite IH.
  destruct e as [rq [st tx|x]| | |]; try reflexivity; discriminate.
Qed.

Lemma ok_posts_app es1 es2 : ok_posts (es1 ++ es2) = ok_posts es1 ++ ok_posts es2.
Proof. apply filter_app. Qed.

(** The events of a step that goes on: its transport calls carry the
    request of the file, and one of them succeeded exactly when the count
    went up. *)
Lemma step_posts re nfiles i f st ev r :
  file_step' re nfiles i f st ev r ->
  (forall rq res, In (EvPost rq res) ev ->
     exists p, prepare os optimize_image a f [] = ([], Val p)
               /\ rq = request_of os a book_slug st p
               /\ (forall st1, r = Val st1 -> In (entry_of os sha256_hex a book_slug f st p)
                                                 (entries st1)))
  /\ (forall st1, r = Val st1 ->
        Z.of_nat (length (ok_posts ev)) = total_uploaded st1 - total_uploaded st
        /\ forall e, In e (entries st) -> In e (entries st1)).
Proof.
  intros Hstep. inversion Hstep; subst.
  - split.
    + intros rq res Hin. exfalso. revert Hin. apply no_post_in, no_post_if.
    + intros st1 [= <-]. cbn. rewrite (no_post_ok _ (no_post_if _ _ _)). split; [simpl; lia|].
      intros e He. apply in_or_app. now left.
  - split; [intros rq res []|discriminate].
  - split.
    + intros rq res Hin. exfalso. revert Hin. apply no_post_in, no_post_if.
    + intros st1 [= <-]. cbn. rewrite (no_post_ok _ (no_post_if _ _ _)). split; [simpl; lia|].
      intros e He. apply in_or_app. now left.
  - match goal with H : uploads _ _ _ _ _ |- _ =>
      destruct (uploads_facts _ _ _ H) as (_ & Hrq & Hok & _) end.
    split.
    + intros rq res Hin. apply in_app_or in Hin as [Hin|Hin].
      * exists p. split; [assumption|]. split; [now apply (Hrq _ res)|].
        intros st1 [= <-]. cbn. apply in_or_app. right. now left.
      * exfalso. apply in_app_or in Hin as [Hin|Hin]; revert Hin; apply no_post_in.
        -- destruct re; [apply write_events_no_post | constructor].
        -- apply no_post_if.
    + intros st1 [= <-]. cbn [entered total_uploaded entries].
      rewrite !ok_posts_app, !length_app, Hok.
      rewrite (no_post_ok _ (no_post_if _ _ _)).
      assert (Hw : ok_posts (if re
                             then write_events dumps (state_path a book_slug)
                                    (state_json book_slug t
                                       (dict_set (uploaded_by_original st) (f_name f)
                                          (entry_of os sha256_hex a book_slug f st p)))
                             else []) = []).
      { apply no_post_ok. destruct re; [apply write_events_no_post | constructor]. }
      rewrite Hw. split; [simpl; lia|].
      intros e He. apply in_or_app. now left.
  - match goal with H : uploads _ _ _ _ _ |- _ =>
      destruct (uploads_facts _ _ _ H) as (_ & Hrq & _) end.
    split; [|discriminate].
    intros rq res Hin. apply in_app_or in Hin as [Hin|[[=]|[]]].
    exists p. split; [assumption|]. split; [now apply (Hrq _ res) | discriminate].
Qed.

Lemma files_run_posts re nfiles i files st fev fr :
  files_run' re nfiles i files st fev fr ->
  (forall rq res, In (EvPost rq res) fev ->
     exists f st0 p, In f files
       /\ prepare os optimize_image a f [] = ([], Val p)
       /\ rq = request_of os a book_slug st0 p
       /\ (forall st', fr = Val st' ->
             In (entry_of os sha256_hex a book_slug f st0 p) (entries st')))
  /\ (forall st', fr = Val st' ->
        Z.of_nat (length (ok_posts fev)) = total_uploaded st' - total_uploaded st
        /\ forall e, In e (entries st) -> In e (entries st')).
Proof.
  intros Hrun.
  induction Hrun as [i st | i f rest st ev1 st1 ev2 r Hstep Hrest IH | i f rest st ev1 r Hstep Hr].
  - split; [intros rq res []|]. intros st' [= <-]. split; [simpl; lia | auto].
  - destruct IH as [IH1 IH2].
    destruct (step_posts _ _ _ _ _ _ _ Hstep) as [S1 S2].
    destruct (S2 st1 eq_refl) as [Sc Se].
    split.
    + intros rq res Hin. apply in_app_or in Hin as [Hin|Hin].
      * destruct (S1 rq res Hin) as (p & Hp & Hrq & Hent).
        exists f, st, p. split; [now left|]. split; [exact Hp|]. split; [exact Hrq|].
        intros st' Hst'. destruct (IH2 st' Hst') as [_ Hkeep]. apply Hkeep.
        now apply (Hent st1).
      * destruct (IH1 rq res Hin) as (f' & st0 & p & Hf & Hp & Hrq & Hent).
        exists f', st0, p. split; [now right|]. auto.
    + intros st' Hst'. destruct (IH2 st' Hst') as [Hc Hkeep].
      rewrite ok_posts_app, length_app. split; [lia | auto].
  - destruct (step_posts _ _ _ _ _ _ _ Hstep) as [S1 _].
    split.
    + intros rq res Hin. destruct (S1 rq res Hin) as (p & Hp & Hrq & Hent).
      exists f, st, p. split; [now left|]. split; [exact Hp|]. split; [exact Hrq|].
      intros st' Hst'. exfalso. now apply (Hr st').
    + intros st' Hst'. exfalso. now apply (Hr st').
Qed.

(** *** The way a failed upload ends the loop *)


End Run.

End RunFacts.

(** ** The driver: dry runs, the manifest, failures, the transport calls *)

Module DriverMore.
Import Py World Retrier Json Budget Driver LedgerSpec Traces Steps Inputs MoreInputs.
Import RetrierClaims WorldFacts DriverFacts RerunFacts RetrierMore StepFacts RunFacts.
Local Open Scope string_scope.
Local Open Scope Z_scope.

(** X12: with --dry-run a book only prints to standard output: no transport
    call, no sleep, no file operation; the state file is not consulted, the
    count of uploads and the ledger stay as they were, and a run that ends
    has one manifest entry per file. *)
Theorem dry_run_is_offline :
  forall os session_post now optimize_image sha256_hex dumps
         a total book_slug ledger_file listing h,
    a_dry_run a = true ->
    let run := run_book os session_post now optimize_image sha256_hex dumps
                 a total book_slug ledger_file listing h in
    Forall (fun e => is_stdout_print e = true) (fst run)
    /\ run = run_book os session_post now optimize_image sha256_hex dumps
               a total book_slug None listing h
    /\ forall out, snd run = Val out ->
         br_total_uploaded out = total
         /\ br_ledger out = []
         /\ length (ix_entries (br_index out)) = length (limit_files a listing).
Proof.
  intros os session_post now optimize_image sha256_hex dumps
         a total book_slug ledger_file listing h Hdry. cbv zeta.
  split; [|split].
  - pose proof (run_book_cases os session_post now optimize_image sha256_hex dumps
                  a total book_slug ledger_file listing h) as Hc.
    cbv zeta in Hc. rewrite Hdry in Hc. rewrite andb_false_r in Hc.
    destruct Hc as [->|(fev & fr & t & Hfr & Hc)]; [constructor|].
    destruct (files_run_dry _ _ _ _ _ _ _ _ _ _ _ _ _ Hfr Hdry) as [Hev _].
    destruct fr as [st|e|c]; rewrite Hc; cbn [fst].
    + constructor; [reflexivity|]. apply Forall_app. split; [exact Hev | repeat constructor].
    + constructor; [reflexivity | exact Hev].
    + constructor; [reflexivity | exact Hev].
  - unfold run_book. rewrite Hdry, andb_false_r. reflexivity.
  - intros out Hout.
    pose proof (run_book_cases os session_post now optimize_image sha256_hex dumps
                  a total book_slug ledger_file listing h) as Hc.
    cbv zeta in Hc. rewrite Hdry in Hc. rewrite andb_false_r in Hc.
    destruct Hc as [Hc|(fev & fr & t & Hfr & Hc)]; [rewrite Hc in Hout; discriminate|].
    destruct (files_run_dry _ _ _ _ _ _ _ _ _ _ _ _ _ Hfr Hdry) as [_ Hst].
    destruct fr as [st|e|c]; rewrite Hc in Hout; try discriminate.
    injection Hout as <-. destruct (Hst st eq_refl) as [Ht Hu].
    destruct (files_run_manifest _ _ _ _ _ _ _ _ _ _ _ _ _ _ Hfr) as [Hlen _].
    cbn in *. auto.
Qed.

Lemma dry_run_is_offline_witness :
  a_dry_run dry_run_args = true
  /\ fst (run_book OsPath.Posix post_ok noon no_optimizer sha_stub dumps_stub
            dry_run_args 0 "bk" None [a_png] [])
     = [EvPrint Stdout (LBook "bk" 1); EvPrint Stdout (LDryRun 1 1);
        EvPrint Stdout (LDryRunIndex "library/bk/images-index.json")]
  /\ Forall (fun e => is_stdout_print e = true)
       (fst (run_book OsPath.Posix post_ok noon no_optimizer sha_stub dumps_stub
               dry_run_args 0 "bk" None [a_png] [])).
Proof.
  split; [reflexivity|]. split; [vm_compute; reflexivity|].
  exact (proj1 (dry_run_is_offline OsPath.Posix post_ok noon no_optimizer sha_stub dumps_stub
                  dry_run_args 0 "bk" None [a_png] [] eq_refl)).
Defined.

(** X13: with --no-resume a book performs no file operation and does not
    consult the state file; a run that ends leaves the ledger empty and,
    unless it is a dry run, has uploaded every file. *)
Theorem no_resume_leaves_the_ledger_alone :
  forall os session_post now optimize_image sha256_hex dumps
         a total book_slug ledger_file listing h,
    a_no_resume a = true ->
    let run := run_book os session_post now optimize_image sha256_hex dumps
                 a total book_slug ledger_file listing h in
    Forall (fun e => is_fs e = false) (fst run)
    /\ run = run_book os session_post now optimize_image sha256_hex dumps
               a total book_slug None listing h
    /\ forall out, snd run = Val out ->
         br_ledger out = []
         /\ (a_dry_run a = false ->
             br_total_uploaded out = total + Z.of_nat (length (limit_files a listing))).
Proof.
  intros os session_post now optimize_image sha256_hex dumps
         a total book_slug ledger_file listing h Hnr. cbv zeta.
  pose proof (run_book_cases os session_post now optimize_image sha256_hex dumps
                a total book_slug ledger_file listing h) as Hc.
  cbv zeta in Hc. rewrite Hnr in Hc. cbn [negb andb] in Hc.
  split; [|split].
  - destruct Hc as [->|(fev & fr & t & Hfr & Hc)]; [constructor|].
    destruct (files_run_no_resume _ _ _ _ _ _ _ _ _ _ _ _ _ Hfr) as [Hev _].
    destruct fr as [st|e|c]; [|rewrite Hc; now constructor|rewrite Hc; now constructor].
    destruct (a_dry_run a).
    + rewrite Hc. cbn [fst]. constructor; [reflexivity|].
      apply Forall_app. split; [exact Hev | repeat constructor].
    + destruct Hc as (uev & ur & Hup & Hc).
      destruct (uploads_facts _ _ _ _ _ Hup) as (Hnf & _).
      destruct ur as [[]|e|c]; [| |contradiction]; rewrite Hc; cbn [fst];
        (constructor; [reflexivity|]); apply Forall_app; split; auto.
      apply Forall_app. split; [exact Hnf | repeat constructor].
  - unfold run_book. rewrite Hnr. reflexivity.
  - intros out Hout.
    destruct Hc as [Hc|(fev & fr & t & Hfr & Hc)]; [rewrite Hc in Hout; discriminate|].
    destruct (files_run_no_resume _ _ _ _ _ _ _ _ _ _ _ _ _ Hfr) as [_ Hst].
    destruct fr as [st|e|c]; [|rewrite Hc in Hout; discriminate..].
    destruct (Hst st eq_refl) as [Hu Ht].
    destruct (a_dry_run a).
    + rewrite Hc in Hout. injection Hout as <-. cbn in *. split; [exact Hu | discriminate].
    + destruct Hc as (uev & ur & Hup & Hc).
      destruct ur as [[]|e|c]; [| |contradiction]; rewrite Hc in Hout; [|discriminate].
      injection Hout as <-. cbn in *. split; [exact Hu|]. intros _. now apply Ht.
Qed.

Lemma no_resume_leaves_the_ledger_alone_witness :
  a_no_resume no_resume_args = true
  /\ Forall (fun e => is_fs e = false)
       (fst (run_book OsPath.Posix post_ok noon no_optimizer sha_stub dumps_stub
               no_resume_args 0 "bk" (Some (Some (state_json "bk" "t" listed_png)))
               [a_png] []))
  /\ length (posts (fst (run_book OsPath.Posix post_ok noon no_optimizer sha_stub dumps_stub
                           no_resume_args 0 "bk"
                           (Some (Some (state_json "bk" "t" listed_png))) [a_png] [])))
     = 2%nat.
Proof.
  split; [reflexivity|]. split; [|vm_compute; reflexivity].
  exact (proj1 (no_resume_leaves_the_ledger_alone OsPath.Posix post_ok noon no_optimizer
                  sha_stub dumps_stub no_resume_args 0 "bk"
                  (Some (Some (state_json "bk" "t" listed_png))) [a_png] [] eq_refl)).
Defined.

(** X14: a book that runs to its end has one manifest entry per processed
    file, the source map has exactly the names of these files as keys, and
    with a positive --limit there are at most that many entries. *)
Theorem manifest_lists_every_file :
  forall os session_post now optimize_image sha256_hex dumps
         a total book_slug ledger_file listing h ev out,
    run_book os session_post now optimize_image sha256_hex dumps
      a total book_slug ledger_file listing h = (ev, Val out) ->
    length (ix_entries (br_index out)) = length (limit_files a listing)
    /\ (forall name,
          dict_has (ix_srcMap (br_index out)) name
          = mem name (map f_name (limit_files a listing)))
    /\ (0 < a_limit a -> Z.of_nat (length (ix_entries (br_index out))) <= a_limit a)
    /\ (length (ix_entries (br_index out)) <= length listing)%nat.
Proof.
  intros os session_post now optimize_image sha256_hex dumps
         a total book_slug ledger_file listing h ev out Hrun.
  pose proof (run_book_cases os session_post now optimize_image sha256_hex dumps
                a total book_slug ledger_file listing h) as Hc.
  cbv zeta in Hc. rewrite Hrun in Hc.
  destruct Hc as [Hc|(fev & fr & t & Hfr & Hc)]; [discriminate|].
  destruct fr as [st|e|c]; [|discriminate..].
  assert (Hout : out = result_of a book_slug t st).
  { destruct (a_dry_run a); [congruence|].
    destruct Hc as (uev & ur & _ & Hc).
    destruct ur as [[]|e|c]; [congruence | discriminate | contradiction]. }
  subst out. cbn [result_of manifest_of br_index ix_entries ix_srcMap].
  destruct (files_run_manifest _ _ _ _ _ _ _ _ _ _ _ _ _ _ Hfr) as [Hlen Hsrc].
  cbn in Hlen. split; [exact Hlen|]. split; [intros name; now rewrite Hsrc|].
  rewrite Hlen. unfold limit_files.
  destruct (0 <? a_limit a) eqn:El.
  - rewrite length_firstn. split; lia.
  - split; [|lia]. intros H. apply Z.ltb_ge in El. lia.
Qed.

Lemma manifest_lists_every_file_witness :
  match run_book OsPath.Posix post_ok noon no_optimizer sha_stub dumps_stub
          default_args 0 "bk" None [a_png] [] with
  | (_, Val out) => length (ix_entries (br_index out)) = 1%nat
  | _ => False
  end.
Proof.
  destruct (run_book OsPath.Posix post_ok noon no_optimizer sha_stub dumps_stub
              default_args 0 "bk" None [a_png] []) as [ev [out|e|c]] eqn:E.
  - exact (proj1 (manifest_lists_every_file _ _ _ _ _ _ _ _ _ _ _ _ _ _ E)).
  - vm_compute in E. discriminate E.
  - vm_compute in E. discriminate E.
Defined.



(** X16: every transport call of a book happens outside dry runs, goes to
    the configured bucket with the configured timeout, and carries either
    the manifest path with content type application/json and upsert on, or
    a path under the images folder of the book with upsert as configured. *)
Theorem uploads_go_under_the_book_prefix :
  forall os session_post now optimize_image sha256_hex dumps
         a total book_slug ledger_file listing h rq res,
    In (EvPost rq res)
       (fst (run_book os session_post now optimize_image sha256_hex dumps
               a total book_slug ledger_file listing h)) ->
    a_dry_run a = false
    /\ rq_bucket rq = a_bucket a
    /\ rq_timeout_s rq = a_timeout_s a
    /\ ((rq_object_path rq = a_prefix a ++ "/" ++ book_slug ++ "/images-index.json"
         /\ rq_content_type rq = "application/json"
         /\ rq_upsert rq = true)
        \/ (exists stored,
              rq_object_path rq = a_prefix a ++ "/" ++ book_slug ++ "/images/" ++ stored
              /\ rq_upsert rq = a_upsert a)).
Proof.
  intros os session_post now optimize_image sha256_hex dumps
         a total book_slug ledger_file listing h rq res Hin.
  pose proof (run_book_cases os session_post now optimize_image sha256_hex dumps
                a total book_slug ledger_file listing h) as Hc.
  cbv zeta in Hc.
  destruct Hc as [Hc|(fev & fr & t & Hfr & Hc)]; [rewrite Hc in Hin; contradiction|].
  destruct (files_run_posts _ _ _ _ _ _ _ _ _ _ _ _ _ _ Hfr) as [Hposts _].
  assert (Hasset : In (EvPost rq res) fev ->
            a_dry_run a = false
            /\ rq_bucket rq = a_bucket a
            /\ rq_timeout_s rq = a_timeout_s a
            /\ ((rq_object_path rq = a_prefix a ++ "/" ++ book_slug ++ "/images-index.json"
                 /\ rq_content_type rq = "application/json"
                 /\ rq_upsert rq = true)
                \/ (exists stored,
                      rq_object_path rq
                      = a_prefix a ++ "/" ++ book_slug ++ "/images/" ++ stored
                      /\ rq_upsert rq = a_upsert a))).
  { intros Hf. destruct (Hposts rq res Hf) as (f & st0 & p & _ & _ & -> & _).
    split.
    - destruct (a_dry_run a) eqn:Hd; [|reflexivity]. exfalso.
      assert (Hre : negb (a_no_resume a) && negb true = false) by apply andb_false_r.
      rewrite Hre in Hfr.
      destruct (files_run_dry _ _ _ _ _ _ _ _ _ _ _ _ _ Hfr Hd) as [Hall _].
      rewrite Forall_forall in Hall. specialize (Hall _ Hf). discriminate.
    - split; [reflexivity|]. split; [reflexivity|]. right.
      exists (stored_name os st0 p). split; reflexivity. }
  assert (Hindex : forall uev ur ix,
            uploads session_post a (manifest_request dumps a book_slug ix) uev ur ->
            In (EvPost rq res) uev ->
            rq_bucket rq = a_bucket a
            /\ rq_timeout_s rq = a_timeout_s a
            /\ ((rq_object_path rq = a_prefix a ++ "/" ++ book_slug ++ "/images-index.json"
                 /\ rq_content_type rq = "application/json"
                 /\ rq_upsert rq = true)
                \/ (exists stored,
                      rq_object_path rq
                      = a_prefix a ++ "/" ++ book_slug ++ "/images/" ++ stored
                      /\ rq_upsert rq = a_upsert a))).
  { intros uev ur ix Hup Hu. destruct (uploads_facts _ _ _ _ _ Hup) as (_ & Hrq & _).
    rewrite (Hrq _ _ Hu). split; [reflexivity|]. split; [reflexivity|]. left.
    repeat split; reflexivity. }
  destruct fr as [st|e|c].
  - destruct (a_dry_run a) eqn:Hd.
    + rewrite Hc in Hin. cbn [fst] in Hin. destruct Hin as [[=]|Hin].
      apply in_app_or in Hin as [Hin|[[=]|[]]]. now apply Hasset.
    + destruct Hc as (uev & ur & Hup & Hc).
      destruct ur as [[]|e|c]; [| |contradiction]; rewrite Hc in Hin; cbn [fst] in Hin;
        destruct Hin as [[=]|Hin]; apply in_app_or in Hin as [Hin|Hin];
        try (now apply Hasset).
      * apply in_app_or in Hin as [Hin|[[=]|[]]].
        split; [reflexivity|]. now apply (Hindex uev (Val tt) _ Hup).
      * split; [reflexivity|]. now apply (Hindex uev (Exc e) _ Hup).
  - rewrite Hc in Hin. cbn [fst] in Hin. destruct Hin as [[=]|Hin]. now apply Hasset.
  - rewrite Hc in Hin. cbn [fst] in Hin. destruct Hin as [[=]|Hin]. now apply Hasset.
Qed.

Lemma uploads_go_under_the_book_prefix_witness :
  In (EvPost (asset_request default_args "library/bk/images/a.png" "image/png" [7%N])
        (Response 200 ""))
     (fst (run_book OsPath.Posix post_ok noon no_optimizer sha_stub dumps_stub
             default_args 0 "bk" None [a_png] []))
  /\ a_dry_run default_args = false.
Proof.
  assert (H : In (EvPost (asset_request default_args "library/bk/images/a.png" "image/png" [7%N])
                    (Response 200 ""))
                 (fst (run_book OsPath.Posix post_ok noon no_optimizer sha_stub dumps_stub
                         default_args 0 "bk" None [a_png] [])))
    by (vm_compute; auto).
  split; [exact H|].
  exact (proj1 (uploads_go_under_the_book_prefix _ _ _ _ _ _ _ _ _ _ _ _ _ _ H)).
Defined.

(** X17: in a book that runs to its end, the transport calls answered below
    400 are as many as the count of uploads went up, plus one for the
    manifest outside dry runs. *)
Theorem uploaded_count_is_that_of_successful_uploads :
  forall os session_post now optimize_image sha256_hex dumps
         a total book_slug ledger_file listing h ev out,
    run_book os session_post now optimize_image sha256_hex dumps
      a total book_slug ledger_file listing h = (ev, Val out) ->
    Z.of_nat (length (ok_posts ev))
    = (br_total_uploaded out - total) + (if a_dry_run a then 0 else 1).
Proof.
  intros os session_post now optimize_image sha256_hex dumps
         a total book_slug ledger_file listing h ev out Hrun.
  pose proof (run_book_cases os session_post now optimize_image sha256_hex dumps
                a total book_slug ledger_file listing h) as Hc.
  cbv zeta in Hc. rewrite Hrun in Hc.
  destruct Hc as [Hc|(fev & fr & t & Hfr & Hc)]; [discriminate|].
  destruct fr as [st|e|c]; [|discriminate..].
  destruct (files_run_posts _ _ _ _ _ _ _ _ _ _ _ _ _ _ Hfr) as [_ Hcount].
  destruct (Hcount st eq_refl) as [Hn _]. cbn in Hn.
  destruct (a_dry_run a).
  - injection Hc as -> ->. cbn [result_of br_total_uploaded].
    change (?x :: ?l) with ([x] ++ l)%list. rewrite !ok_posts_app, !length_app.
    cbn [ok_posts filter is_ok_post length]. lia.
  - destruct Hc as (uev & ur & Hup & Hc).
    destruct (uploads_facts _ _ _ _ _ Hup) as (_ & _ & Hok & _).
    destruct ur as [[]|e|c]; [|discriminate|contradiction].
    injection Hc as -> ->. cbn [result_of br_total_uploaded].
    change (?x :: ?l) with ([x] ++ l)%list. rewrite !ok_posts_app, !length_app, Hok.
    cbn [ok_posts filter is_ok_post length]. lia.
Qed.

Lemma uploaded_count_is_that_of_successful_uploads_witness :
  match run_book OsPath.Posix post_ok noon no_optimizer sha_stub dumps_stub
          default_args 0 "bk" None [a_png] [] with
  | (ev, Val out) => Z.of_nat (length (ok_posts ev)) = (br_total_uploaded out - 0) + 1
  | _ => False
  end.
Proof.
  destruct (run_book OsPath.Posix post_ok noon no_optimizer sha_stub dumps_stub
              default_args 0 "bk" None [a_png] []) as [ev [out|e|c]] eqn:E.
  - exact (uploaded_count_is_that_of_successful_uploads _ _ _ _ _ _ _ _ _ _ _ _ _ _ E).
  - vm_compute in E. discriminate E.
  - vm_compute in E. discriminate E.
Defined.

(** X18: in a book that runs to its end, every transport call carries either
    the manifest the run returns, serialized, under the manifest path, or
    an asset that a manifest entry describes with the same storage path,
    byte count, SHA-256 and content type. *)
Theorem every_upload_is_described_by_the_manifest :
  forall os session_post now optimize_image sha256_hex dumps
         a total book_slug ledger_file listing h ev out rq res,
    run_book os session_post now optimize_image sha256_hex dumps
      a total book_slug ledger_file listing h = (ev, Val out) ->
    In (EvPost rq res) ev ->
    (rq_object_path rq = index_path a book_slug
     /\ rq_body rq = utf8_encode (PyStr.s2l (dumps (index_json (br_index out)))))
    \/ exists entry,
         In entry (ix_entries (br_index out))
         /\ entry_field entry "storagePath" = Some (JStr (rq_object_path rq))
         /\ entry_field entry "storedBytes" = Some (JInt (blen (rq_body rq)))
         /\ entry_field entry "storedSha256" = Some (JStr (sha256_hex (rq_body rq)))
         /\ entry_field entry "storedMime" = Some (JStr (rq_content_type rq)).
Proof.
  intros os session_post now optimize_image sha256_hex dumps
         a total book_slug ledger_file listing h ev out rq res Hrun Hin.
  pose proof (run_book_cases os session_post now optimize_image sha256_hex dumps
                a total book_slug ledger_file listing h) as Hc.
  cbv zeta in Hc. rewrite Hrun in Hc.
  destruct Hc as [Hc|(fev & fr & t & Hfr & Hc)]; [discriminate|].
  destruct fr as [st|e|c]; [|discriminate..].
  destruct (files_run_posts _ _ _ _ _ _ _ _ _ _ _ _ _ _ Hfr) as [Hposts _].
  assert (Hasset : In (EvPost rq res) fev ->
            exists entry,
              In entry (entries st)
              /\ entry_field entry "storagePath" = Some (JStr (rq_object_path rq))
              /\ entry_field entry "storedBytes" = Some (JInt (blen (rq_body rq)))
              /\ entry_field entry "storedSha256" = Some (JStr (sha256_hex (rq_body rq)))
              /\ entry_field entry "storedMime" = Some (JStr (rq_content_type rq))).
  { intros Hf. destruct (Hposts rq res Hf) as (f & st0 & p & _ & _ & -> & Hent).
    exists (entry_of os sha256_hex a book_slug f st0 p).
    split; [now apply Hent|]. repeat split; reflexivity. }
  destruct (a_dry_run a).
  - injection Hc as -> ->. right. cbn [result_of manifest_of br_index ix_entries].
    destruct Hin as [[=]|Hin]. apply in_app_or in Hin as [Hin|[[=]|[]]]. now apply Hasset.
  - destruct Hc as (uev & ur & Hup & Hc).
    destruct (uploads_facts _ _ _ _ _ Hup) as (_ & Hrq & _).
    destruct ur as [[]|e|c]; [|discriminate|contradiction].
    injection Hc as -> ->. cbn [result_of manifest_of br_index ix_entries].
    destruct Hin as [[=]|Hin]. apply in_app_or in Hin as [Hin|Hin].
    + right. now apply Hasset.
    + apply in_app_or in Hin as [Hin|[[=]|[]]]. left.
      rewrite (Hrq _ _ Hin). split; reflexivity.
Qed.

Lemma every_upload_is_described_by_the_manifest_witness :
  match run_book OsPath.Posix post_ok noon no_optimizer sha_stub dumps_stub
          default_args 0 "bk" None [a_png] [] with
  | (ev, Val out) =>
      In (EvPost (asset_request default_args "library/bk/images/a.png" "image/png" [7%N])
            (Response 200 "")) ev
      /\ exists entry,
           In entry (ix_entries (br_index out))
           /\ entry_field entry "storagePath" = Some (JStr "library/bk/images/a.png")
  | _ => False
  end.
Proof.
  destruct (run_book OsPath.Posix post_ok noon no_optimizer sha_stub dumps_stub
              default_args 0 "bk" None [a_png] []) as [ev [out|e|c]] eqn:E.
  - assert (Hin : In (EvPost (asset_request default_args "library/bk/images/a.png"
                                "image/png" [7%N]) (Response 200 "")) ev).
    { vm_compute in E. injection E as <- _. simpl. auto. }
    split; [exact Hin|].
    destruct (every_upload_is_described_by_the_manifest _ _ _ _ _ _ _ _ _ _ _ _ _ _ _ _ E Hin)
      as [[Hp _]|(entry & H1 & H2 & _)].
    + vm_compute in Hp. discriminate Hp.
    + exists entry. split; [exact H1 | exact H2].
  - vm_compute in E. discriminate E.
  - vm_compute in E. discriminate E.
Defined.

End DriverMore.

(** ** The ledger along the loop *)

Module LedgerFacts.
Import Py World Retrier Json Budget Driver LedgerSpec Traces Steps.
Import RetrierClaims WorldFacts DriverFacts RerunFacts RetrierMore WriteMore StepFacts RunFacts.

Lemma resume_entry_some d name e p :
  resume_entry d name = Some (e, p) -> dict_get d name = Some e /\ valid_entry e.
Proof.
  unfold resume_entry. destruct (dict_get d name) as [[| | | | | |members]|]; try discriminate.
  destruct (dict_get members "storagePath") as [[| | | |q| |]|] eqn:Eq; try discriminate.
  intros [= <- <-]. split; [reflexivity|]. now exists members, q.
Qed.

Lemma dict_get_set_same {V} (d : dict V) k v : dict_get (dict_set d k v) k = Some v.
Proof. rewrite dict_get_set. now rewrite String.eqb_refl. Qed.

Section Run.

Variable os : OsPath.flavour.
Variable session_post : history -> request -> post_result.
Variable optimize_image : local_file -> Z -> Z -> alpha_mode -> attempt.
Variable sha256_hex : list N -> string.
Variable dumps : json -> string.
Variable a : args.
Variable book_slug : string.

Local Abbreviation files_run' :=
  (files_run os session_post optimize_image sha256_hex dumps a book_slug).
Local Abbreviation file_step' :=
  (file_step os session_post optimize_image sha256_hex dumps a book_slug).

Lemma entry_of_valid f st p : valid_entry (entry_of os sha256_hex a book_slug f st p).
Proof.
  unfold entry_of, make_entry. eexists _, (object_path_of os a book_slug st p).
  split; reflexivity.
Qed.

(** What a step that goes on does to the ledger and to the state file. *)
Lemma step_ledger re nfiles i f st ev r :
  file_step' re nfiles i f st ev r ->
  (Forall (fun e => is_fs e = false) ev
   /\ (forall st1, r = Val st1 ->
         uploaded_by_original st1 = uploaded_by_original st
         /\ (re = true -> a_dry_run a = false ->
             exists e p, resume_entry (uploaded_by_original st) (f_name f) = Some (e, p))))
  \/ (exists st1 entry t uev post,
        r = Val st1 /\ re = true
        /\ resume_entry (uploaded_by_original st) (f_name f) = None
        /\ valid_entry entry
        /\ uploaded_by_original st1 = dict_set (uploaded_by_original st) (f_name f) entry
        /\ ev = uev ++ write_events dumps (state_path a book_slug)
                        (state_json book_slug t (uploaded_by_original st1)) ++ post
        /\ Forall (fun e => is_fs e = false) uev
        /\ Forall (fun e => is_fs e = false) post).
Proof.
  intros Hstep. inversion Hstep; subst.
  - left. split; [now apply no_fs_if|]. intros st1 [= <-]. split; [reflexivity|]. eauto.
  - left. split; [constructor | discriminate].
  - left. split; [now apply no_fs_if|]. intros st1 [= <-]. split; [reflexivity|]. congruence.
  - match goal with H : uploads _ _ _ _ _ |- _ =>
      destruct (uploads_facts _ _ _ _ _ H) as (Hnf & _) end.
    destruct re.
    + right. eexists _, (entry_of os sha256_hex a book_slug f st p), t, uev, _.
      split; [reflexivity|]. split; [reflexivity|].
      split; [assumption|]. split; [apply entry_of_valid|]. split; [reflexivity|].
      split; [reflexivity|]. split; [exact Hnf | now apply no_fs_if].
    + left. split.
      * apply Forall_app. split; [exact Hnf | now apply no_fs_if].
      * intros st1 [= <-]. split; [reflexivity | discriminate].
  - match goal with H : uploads _ _ _ _ _ |- _ =>
      destruct (uploads_facts _ _ _ _ _ H) as (Hnf & _) end.
    left. split; [|discriminate].
    apply Forall_app. split; [exact Hnf | repeat constructor].
Qed.

Lemma files_run_ledger re nfiles i files st fev st' :
  files_run' re nfiles i files st fev (Val st') ->
  (forall k e, dict_get (uploaded_by_original st) k = Some e ->
     valid_entry e \/ ~ In k (map f_name files) ->
     dict_get (uploaded_by_original st') k = Some e)
  /\ (forall k, dict_has (uploaded_by_original st') k = true ->
        dict_has (uploaded_by_original st) k = true \/ In k (map f_name files))
  /\ (re = true -> a_dry_run a = false ->
      forall f, In f files ->
        exists e p, resume_entry (uploaded_by_original st') (f_name f) = Some (e, p)).
Proof.
  intros Hrun. remember (Val st') as fr eqn:Efr.
  induction Hrun as [i st | i f rest st ev1 st1 ev2 r Hstep Hrest IH | i f rest st ev1 r Hstep Hr].
  - injection Efr as <-. split; [auto|]. split; [auto|]. intros _ _ f [].
  - destruct (IH Efr) as (IHa & IHb & IHc). clear IH.
    assert (Hone :
      (forall k e, dict_get (uploaded_by_original st) k = Some e ->
         valid_entry e \/ k <> f_name f ->
         dict_get (uploaded_by_original st1) k = Some e)
      /\ (forall k, dict_has (uploaded_by_original st1) k = true ->
            dict_has (uploaded_by_original st) k = true \/ k = f_name f)
      /\ (re = true -> a_dry_run a = false ->
          exists e p, resume_entry (uploaded_by_original st1) (f_name f) = Some (e, p))).
    { destruct (step_ledger _ _ _ _ _ _ _ Hstep)
        as [[_ Hsame]|(st1' & entry & t & uev & post & [= <-] & Hre & Hnl & Hv & Hu & _)].
      - destruct (Hsame st1 eq_refl) as [Hu Hl]. rewrite Hu.
        split; [auto|]. split; [auto|]. exact Hl.
      - rewrite Hu. split; [|split].
        + intros k e Hk Hor. rewrite dict_get_set.
          destruct (String.eqb k (f_name f)) eqn:Ek; [|exact Hk].
          apply String.eqb_eq in Ek. subst k. exfalso.
          destruct Hor as [Hve|Hne]; [|now apply Hne].
          rewrite (resume_entry_valid _ _ _ Hk Hve) in Hnl. discriminate.
        + intros k Hk. rewrite dict_has_set in Hk.
          destruct (String.eqb k (f_name f)) eqn:Ek.
          * right. now apply String.eqb_eq.
          * left. exact Hk.
        + intros _ _. exists entry, (storage_path_of entry).
          apply resume_entry_valid; [apply dict_get_set_same | exact Hv]. }
    destruct Hone as (Ha & Hb & Hc).
    split; [|split].
    + intros k e Hk Hor. apply IHa.
      * apply Ha; [exact Hk|]. destruct Hor as [Hv|Hn]; [now left|]. right.
        intros ->. apply Hn. now left.
      * destruct Hor as [Hv|Hn]; [now left|]. right. intros Hin. apply Hn. now right.
    + intros k Hk. destruct (IHb k Hk) as [H1|H1]; [|right; now right].
      destruct (Hb k H1) as [H2|H2]; [now left | right; left; now symmetry].
    + intros Hre Hd f' [<-|Hin]; [|now apply IHc].
      destruct (Hc Hre Hd) as (e & p & He).
      destruct (resume_entry_some _ _ _ _ He) as [Hg Hv].
      exists e, (storage_path_of e). apply resume_entry_valid; [|exact Hv].
      apply IHa; [exact Hg | now left].
  - subst r. exfalso. now eapply Hr.
Qed.

(** The state file after the loop. *)
Lemma files_run_disk re nfiles i files st fev fr : forall (m : fs),
  files_run' re nfiles i files st fev fr ->
  (fs_after m fev (state_path a book_slug) = m (state_path a book_slug)
   /\ (forall st', fr = Val st' -> uploaded_by_original st' = uploaded_by_original st))
  \/ (exists t L,
        fs_after m fev (state_path a book_slug) = Some (dumps (state_json book_slug t L))
        /\ (forall st', fr = Val st' -> uploaded_by_original st' = L)).
Proof.
  intros m Hrun. revert m.
  induction Hrun as [i st | i f rest st ev1 st1 ev2 r Hstep Hrest IH | i f rest st ev1 r Hstep Hr];
    intros m.
  - left. split; [reflexivity|]. now intros st' [= <-].
  - rewrite fs_after_app.
    destruct (step_ledger _ _ _ _ _ _ _ Hstep)
      as [[Hnf Hsame]|(st1' & entry & t & uev & post & [= <-] & Hre & Hnl & Hv & Hu & Hev & Hn1 & Hn2)].
    + destruct (Hsame st1 eq_refl) as [Hu _].
      pose proof (untouched_fs_after (state_path a book_slug) ev1 m
                    (no_fs_untouched _ _ Hnf)) as Hm.
      destruct (IH (fs_after m ev1)) as [[H1 H2]|(t & L & H1 & H2)].
      * left. split; [now rewrite H1, Hm|]. intros st' Hst'. now rewrite (H2 st' Hst').
      * right. exists t, L. auto.
    + destruct (IH (fs_after m ev1)) as [[H1 H2]|(t' & L & H1 & H2)].
      * right. exists t, (uploaded_by_original st1). split; [|exact H2].
        rewrite H1, Hev, !fs_after_app.
        rewrite (untouched_fs_after _ post _ (no_fs_untouched _ _ Hn2)).
        apply write_events_result.
      * right. exists t', L. auto.
  - destruct (step_ledger _ _ _ _ _ _ _ Hstep)
      as [[Hnf Hsame]|(st1' & entry & t & uev & post & Hr' & _)].
    + left. split; [|intros st' Hst'; exfalso; now apply (Hr st')].
      apply untouched_fs_after, no_fs_untouched, Hnf.
    + exfalso. now apply (Hr st1').
Qed.

End Run.

End LedgerFacts.

(** ** The ledger after a run *)

Module LedgerMore.
Import Py World Retrier Json Budget Driver LedgerSpec Traces Steps Inputs MoreInputs.
Import RetrierClaims WorldFacts DriverFacts RerunFacts RetrierMore StepFacts RunFacts LedgerFacts.
Local Open Scope string_scope.
Local Open Scope Z_scope.

(** A completed run in terms of its loop. *)
Lemma completed_run os session_post now optimize_image sha256_hex dumps
    a total book_slug ledger_file listing h ev out :
  run_book os session_post now optimize_image sha256_hex dumps
    a total book_slug ledger_file listing h = (ev, Val out) ->
  exists fev st t tail,
    files_run os session_post optimize_image sha256_hex dumps a book_slug
      (negb (a_no_resume a) && negb (a_dry_run a))
      (Z.of_nat (length (limit_files a listing))) 1 (limit_files a listing)
      (start_state (initial_ledger (negb (a_no_resume a) && negb (a_dry_run a)) ledger_file)
         total) fev (Val st)
    /\ out = result_of a book_slug t st
    /\ ev = (EvPrint Stdout (LBook book_slug (Z.of_nat (length (limit_files a listing))))
             :: fev ++ tail)%list
    /\ Forall (fun e => is_fs e = false) tail.
Proof.
  intros Hrun.
  pose proof (run_book_cases os session_post now optimize_image sha256_hex dumps
                a total book_slug ledger_file listing h) as Hc.
  cbv zeta in Hc. rewrite Hrun in Hc.
  destruct Hc as [Hc|(fev & fr & t & Hfr & Hc)]; [discriminate|].
  destruct fr as [st|e|c]; [|discriminate..].
  destruct (a_dry_run a).
  - injection Hc as -> ->. exists fev, st, t, [EvPrint Stdout (LDryRunIndex (index_path a book_slug))].
    split; [exact Hfr|]. split; [reflexivity|]. split; [reflexivity | repeat constructor].
  - destruct Hc as (uev & ur & Hup & Hc).
    destruct (uploads_facts _ _ _ _ _ Hup) as (Hnf & _).
    destruct ur as [[]|e|c]; [|discriminate|contradiction].
    injection Hc as -> ->.
    exists fev, st, t, (uev ++ [EvPrint Stdout (LUploadedIndex (index_path a book_slug))])%list.
    split; [exact Hfr|]. split; [reflexivity|]. split; [reflexivity|].
    apply Forall_app. split; [exact Hnf | repeat constructor].
Qed.



(** X20: after a run with resume enabled that ends, the ledger holds a valid
    entry for every processed file, so that a re-run skips them all. *)
Theorem completed_run_lists_every_file :
  forall os session_post now optimize_image sha256_hex dumps
         a total book_slug ledger_file listing h ev out,
    a_no_resume a = false -> a_dry_run a = false ->
    run_book os session_post now optimize_image sha256_hex dumps
      a total book_slug ledger_file listing h = (ev, Val out) ->
    forall f, In f (limit_files a listing) ->
      exists e p, resume_entry (br_ledger out) (f_name f) = Some (e, p).
Proof.
  intros os session_post now optimize_image sha256_hex dumps
         a total book_slug ledger_file listing h ev out Hnr Hd Hrun.
  destruct (completed_run _ _ _ _ _ _ _ _ _ _ _ _ _ _ Hrun)
    as (fev & st & t & tail & Hfr & -> & _ & _).
  destruct (files_run_ledger _ _ _ _ _ _ _ _ _ _ _ _ _ _ Hfr) as (_ & _ & Hc).
  apply Hc; [|exact Hd]. now rewrite Hnr, Hd.
Qed.

Lemma completed_run_lists_every_file_witness :
  a_no_resume default_args = false /\ a_dry_run default_args = false
  /\ match run_book OsPath.Posix post_ok noon no_optimizer sha_stub dumps_stub
             default_args 0 "bk" None [a_png] [] with
     | (_, Val out) => exists e p, resume_entry (br_ledger out) "a.png" = Some (e, p)
     | _ => False
     end.
Proof.
  split; [reflexivity|]. split; [reflexivity|].
  destruct (run_book OsPath.Posix post_ok noon no_optimizer sha_stub dumps_stub
              default_args 0 "bk" None [a_png] []) as [ev [out|e|c]] eqn:E.
  - apply (completed_run_lists_every_file OsPath.Posix post_ok noon no_optimizer sha_stub
             dumps_stub default_args 0 "bk" None [a_png] [] ev out eq_refl eq_refl E a_png).
    now left.
  - vm_compute in E. discriminate E.
  - vm_compute in E. discriminate E.
Defined.

(** X21: after a run that ends, the state file holds the serialized state
    whose ledger is the one the run ended with; or the run wrote nothing,
    the file is as before and the ledger is the one loaded. *)
Theorem state_file_holds_the_final_ledger :
  forall os session_post now optimize_image sha256_hex dumps
         a total book_slug ledger_file listing h ev out (fs0 : fs),
    run_book os session_post now optimize_image sha256_hex dumps
      a total book_slug ledger_file listing h = (ev, Val out) ->
    (fs_after fs0 ev (state_path a book_slug) = fs0 (state_path a book_slug)
     /\ br_ledger out
        = initial_ledger (negb (a_no_resume a) && negb (a_dry_run a)) ledger_file)
    \/ exists t,
         fs_after fs0 ev (state_path a book_slug)
         = Some (dumps (state_json book_slug t (br_ledger out))).
Proof.
  intros os session_post now optimize_image sha256_hex dumps
         a total book_slug ledger_file listing h ev out fs0 Hrun.
  destruct (completed_run _ _ _ _ _ _ _ _ _ _ _ _ _ _ Hrun)
    as (fev & st & t & tail & Hfr & -> & -> & Htail).
  change (?x :: ?l ++ tail)%list with ([x] ++ l ++ tail)%list.
  rewrite !fs_after_app.
  rewrite (untouched_fs_after _ tail _ (no_fs_untouched _ _ Htail)).
  cbn [fs_after fold_left apply_event].
  change (fold_left apply_event ?es ?m0) with (fs_after m0 es).
  destruct (files_run_disk _ _ _ _ dumps _ _ _ _ _ _ _ _ _ fs0 Hfr) as [[H1 H2]|(t' & L & H1 & H2)].
  - left. split; [exact H1|]. now apply H2.
  - right. exists t'. rewrite H1. cbn [result_of br_ledger]. now rewrite (H2 st eq_refl).
Qed.

Lemma state_file_holds_the_final_ledger_witness :
  match run_book OsPath.Posix post_ok noon no_optimizer sha_stub dumps_stub
          default_args 0 "bk" None [a_png] [] with
  | (ev, Val out) => fs_after (fun _ => None) ev "tmp/s/bk.json" = Some "{}"
  | _ => False
  end.
Proof.
  destruct (run_book OsPath.Posix post_ok noon no_optimizer sha_stub dumps_stub
              default_args 0 "bk" None [a_png] []) as [ev [out|e|c]] eqn:E.
  - destruct (state_file_holds_the_final_ledger _ _ _ _ _ _ _ _ _ _ _ _ _ _ (fun _ => None) E)
      as [[_ H]|[t H]].
    + exfalso. vm_compute in E. injection E as _ <-. discriminate H.
    + exact H.
  - vm_compute in E. discriminate E.
  - vm_compute in E. discriminate E.
Defined.

End LedgerMore.

(** ** Resuming and the planned manifest *)

Module PlanFacts.
Import Py World Retrier Json Budget Driver LedgerSpec Traces Steps Plan.
Import RetrierClaims WorldFacts DriverFacts RerunFacts RetrierMore StepFacts RunFacts LedgerFacts.

Lemma NoDup_names_inj {A B} (g : A -> B) (l : list A) x y :
  NoDup (map g l) -> In x l -> In y l -> g x = g y -> x = y.
Proof.
  induction l as [|z l IH]; intros Hnd Hx Hy Hg; [contradiction|].
  inversion Hnd as [|? ? Hz Hnd']; subst.
  destruct Hx as [->|Hx], Hy as [->|Hy]; auto.
  - exfalso. apply Hz. rewrite Hg. now apply in_map.
  - exfalso. apply Hz. rewrite <- Hg. now apply in_map.
Qed.

Lemma fold_set_by_file {V} (g : local_file -> V) files : forall acc : dict V,
  NoDup (map f_name files) ->
  (forall f, In f files -> ~ In (f_name f) (map fst acc)) ->
  fold_left (fun m f => dict_set m (f_name f) (g f)) files acc
  = acc ++ map (fun f => (f_name f, g f)) files.
Proof.
  induction files as [|f rest IH]; intros acc Hnd Hfresh; cbn [fold_left map].
  - now rewrite app_nil_r.
  - inversion Hnd as [|? ? Hf Hnd']; subst.
    rewrite dict_set_fresh by (apply dict_get_none, Hfresh; now left).
    rewrite IH; [now rewrite <- app_assoc | exact Hnd' |].
    intros f' Hin. rewrite map_app, in_app_iff. cbn [map fst In].
    intros [H|[H|[]]].
    + apply (Hfresh f'); [now right | exact H].
    + apply Hf. rewrite H. now apply in_map.
Qed.

Section Run.

Variable os : OsPath.flavour.
Variable session_post : history -> request -> post_result.
Variable optimize_image : local_file -> Z -> Z -> alpha_mode -> attempt.
Variable sha256_hex : list N -> string.
Variable dumps : json -> string.
Variable a : args.
Variable book_slug : string.

Local Abbreviation files_run' :=
  (files_run os session_post optimize_image sha256_hex dumps a book_slug).
Local Abbreviation file_step' :=
  (file_step os session_post optimize_image sha256_hex dumps a book_slug).
Local Abbreviation planned' := (planned os optimize_image a).
Local Abbreviation planned_entry' := (planned_entry os optimize_image sha256_hex a book_slug).
Local Abbreviation planned_path' := (planned_path os optimize_image a book_slug).

Lemma planned_of_prepare f p :
  prepare os optimize_image a f [] = ([], Val p) -> planned' f = Some p.
Proof. intros H. unfold planned. now rewrite H. Qed.

(** A name that is not taken is used as it is. *)
Lemma fresh_name st f p :
  dict_get (used_names st) (p_object_name p) = None ->
  stored_name os st p = p_object_name p
  /\ snd (unique_name os (used_names st) (p_object_name p))
     = dict_set (used_names st) (p_object_name p) 0
  /\ object_path_of os a book_slug st p = object_path_of os a book_slug (start_state [] 0) p
  /\ entry_of os sha256_hex a book_slug f st p
     = entry_of os sha256_hex a book_slug f (start_state [] 0) p.
Proof.
  intros H.
  assert (H1 : stored_name os st p = p_object_name p).
  { unfold stored_name, unique_name. now rewrite H. }
  assert (H0 : stored_name os (start_state [] 0) p = p_object_name p) by reflexivity.
  split; [exact H1|]. split; [unfold unique_name; now rewrite H|].
  assert (H2 : object_path_of os a book_slug st p
               = object_path_of os a book_slug (start_state [] 0) p).
  { unfold object_path_of. now rewrite H1, H0. }
  split; [exact H2|]. unfold entry_of. now rewrite H1, H0, H2.
Qed.

Lemma valid_planned f e :
  valid_entry e -> e = planned_entry' f ->
  exists p, planned' f = Some p
            /\ e = entry_of os sha256_hex a book_slug f (start_state [] 0) p
            /\ storage_path_of e = planned_path' f.
Proof.
  intros (members & sp & -> & Hsp) He. unfold planned_entry, planned_path in *.
  destruct (planned' f) as [p|]; [|discriminate].
  exists p. split; [reflexivity|]. split; [exact He|]. rewrite He. reflexivity.
Qed.

Lemma files_run_planned re nfiles i files st fev st' : forall all done,
  files_run' re nfiles i files st fev (Val st') ->
  all = done ++ files ->
  NoDup (map f_name all) ->
  distinct_object_names os optimize_image a all ->
  taken_by os optimize_image a done (used_names st) ->
  ledger_as_planned os optimize_image sha256_hex a book_slug all (uploaded_by_original st) ->
  entries st' = entries st ++ map planned_entry' files
  /\ srcMap st' = fold_left (fun m f => dict_set m (f_name f) (planned_path' f))
                    files (srcMap st)
  /\ ledger_as_planned os optimize_image sha256_hex a book_slug all
       (uploaded_by_original st').
Proof.
  intros all done Hrun. remember (Val st') as fr eqn:Efr. revert done.
  induction Hrun as [i st | i f rest st ev1 st1 ev2 r Hstep Hrest IH | i f rest st ev1 r Hstep Hr];
    intros done Hall Hnd Hdist Htaken Hled.
  - injection Efr as <-. rewrite app_nil_r. auto.
  - assert (Hfin : In f all) by (subst all; apply in_or_app; right; now left).
    assert (Hone :
      entries st1 = entries st ++ [planned_entry' f]
      /\ srcMap st1 = dict_set (srcMap st) (f_name f) (planned_path' f)
      /\ taken_by os optimize_image a (done ++ [f]) (used_names st1)
      /\ ledger_as_planned os optimize_image sha256_hex a book_slug all
           (uploaded_by_original st1)).
    { assert (Hdeliver : forall p ubo' tot,
        prepare os optimize_image a f [] = ([], Val p) ->
        st1 = entered os sha256_hex a book_slug f st p ubo' tot ->
        (ubo' = uploaded_by_original st
         \/ ubo' = dict_set (uploaded_by_original st) (f_name f)
                     (entry_of os sha256_hex a book_slug f st p)) ->
        entries st1 = entries st ++ [planned_entry' f]
        /\ srcMap st1 = dict_set (srcMap st) (f_name f) (planned_path' f)
        /\ taken_by os optimize_image a (done ++ [f]) (used_names st1)
        /\ ledger_as_planned os optimize_image sha256_hex a book_slug all
             (uploaded_by_original st1)).
      { intros p ubo' tot Hp -> Hubo.
        pose proof (planned_of_prepare f p Hp) as Hpl.
        assert (Hfree : dict_get (used_names st) (p_object_name p) = None).
        { destruct (dict_get (used_names st) (p_object_name p)) as [n|] eqn:Eu;
            [|reflexivity]. exfalso.
          destruct (Htaken (p_object_name p)) as (g & q & Hg & Hq & Hname).
          { unfold dict_has. now rewrite Eu. }
          assert (Hgin : In g all) by (subst all; apply in_or_app; now left).
          pose proof (Hdist g f q p Hgin Hfin Hq Hpl Hname) as Hsame.
          pose proof (NoDup_names_inj f_name all g f Hnd Hgin Hfin Hsame) as ->.
          subst all. rewrite map_app in Hnd. apply NoDup_remove_2 in Hnd.
          - apply Hnd. apply in_or_app. left. now apply in_map.
          }
        destruct (fresh_name st f p Hfree) as (Hn & Hu & Hpath & Hentry).
        cbn [entered entries srcMap used_names uploaded_by_original].
        assert (Hpe : planned_entry' f = entry_of os sha256_hex a book_slug f st p).
        { unfold planned_entry. rewrite Hpl. now symmetry. }
        assert (Hpp : planned_path' f = object_path_of os a book_slug st p).
        { unfold planned_path. rewrite Hpl. now symmetry. }
        split; [now rewrite Hpe|]. split; [now rewrite Hpp|]. split.
        - rewrite Hu. intros k Hk. rewrite dict_has_set in Hk.
          destruct (String.eqb k (p_object_name p)) eqn:Ek.
          + apply String.eqb_eq in Ek. exists f, p.
            split; [apply in_or_app; right; now left|]. auto.
          + destruct (Htaken k Hk) as (g & q & Hg & Hq & Hname).
            exists g, q. split; [apply in_or_app; now left|]. auto.
        - destruct Hubo as [->| ->]; [exact Hled|].
          intros g e Hg He Hv. rewrite dict_get_set in He.
          destruct (String.eqb (f_name g) (f_name f)) eqn:Eg.
          + apply String.eqb_eq in Eg.
            pose proof (NoDup_names_inj f_name all g f Hnd Hg Hfin Eg) as ->.
            injection He as <-. now symmetry.
          + now apply Hled. }
      inversion Hstep; subst.
      - match goal with H : resume_entry _ _ = Some _ |- _ =>
          destruct (resume_entry_some _ _ _ _ H) as [Hget Hv];
          pose proof (resume_entry_valid _ _ _ Hget Hv) as Hre end.
        match goal with H : resume_entry _ _ = Some (entry, sp) |- _ =>
          rewrite H in Hre; injection Hre as Hsp end.
        pose proof (Hled f entry Hfin Hget Hv) as He.
        destruct (valid_planned f entry Hv He) as (p & Hpl & _ & Hpath).
        cbn [entries srcMap used_names uploaded_by_original].
        split; [now rewrite He|]. split; [now rewrite Hsp, Hpath|].
        split; [|exact Hled].
        intros k Hk. destruct (Htaken k Hk) as (g & q & Hg & Hq & Hname).
        exists g, q. split; [apply in_or_app; now left|]. auto.
      - eapply Hdeliver; [eassumption | reflexivity | now left].
      - eapply Hdeliver; [eassumption | reflexivity |].
        destruct re; [now right | now left]. }
    destruct Hone as (He1 & Hs1 & Ht1 & Hl1).
    destruct (IH Efr (done ++ [f])) as (IH1 & IH2 & IH3); auto.
    { rewrite Hall, <- app_assoc. reflexivity. }
    split; [|split; [|exact IH3]].
    + rewrite IH1, He1, <- app_assoc. reflexivity.
    + rewrite IH2, Hs1. reflexivity.
  - subst r. exfalso. now eapply Hr.
Qed.

End Run.

End PlanFacts.

(** ** A resumed run converges *)

Module PlanMore.
Import Py World Retrier Json Budget Driver LedgerSpec Traces Steps Plan Inputs MoreInputs.
Import RetrierClaims WorldFacts DriverFacts RerunFacts RetrierMore StepFacts RunFacts.
Import LedgerFacts LedgerMore PlanFacts.
Local Open Scope string_scope.
Local Open Scope Z_scope.

(** X22: if the files have distinct names and distinct prepared object
    names, and the valid ledger entries of the files are those a fresh
    upload would write, then a run that ends gives the planned entries and
    source map in listing order, whatever ledger, transport and clock, and
    leaves a ledger of the same kind. *)
Theorem resumed_run_gives_the_planned_manifest :
  forall os session_post now optimize_image sha256_hex dumps
         a total book_slug ledger_file listing h ev out,
    let files := limit_files a listing in
    let L0 := initial_ledger (negb (a_no_resume a) && negb (a_dry_run a)) ledger_file in
    NoDup (map f_name files) ->
    distinct_object_names os optimize_image a files ->
    ledger_as_planned os optimize_image sha256_hex a book_slug files L0 ->
    run_book os session_post now optimize_image sha256_hex dumps
      a total book_slug ledger_file listing h = (ev, Val out) ->
    ix_entries (br_index out)
    = map (planned_entry os optimize_image sha256_hex a book_slug) files
    /\ ix_srcMap (br_index out)
       = map (fun f => (f_name f, planned_path os optimize_image a book_slug f)) files
    /\ ledger_as_planned os optimize_image sha256_hex a book_slug files (br_ledger out).
Proof.
  intros os session_post now optimize_image sha256_hex dumps
         a total book_slug ledger_file listing h ev out files L0 Hnd Hdist Hled Hrun.
  destruct (completed_run _ _ _ _ _ _ _ _ _ _ _ _ _ _ Hrun)
    as (fev & st & t & tail & Hfr & -> & _ & _).
  destruct (files_run_planned _ _ _ _ _ _ _ _ _ _ _ _ _ _ files [] Hfr eq_refl Hnd Hdist)
    as (H1 & H2 & H3).
  - intros k Hk. discriminate.
  - exact Hled.
  - cbn [result_of manifest_of br_index br_ledger ix_entries ix_srcMap].
    split; [exact H1|]. split; [|exact H3].
    rewrite H2. cbn [start_state srcMap].
    rewrite (fold_set_by_file (planned_path os optimize_image a book_slug)
               (limit_files a listing) []).
    + reflexivity.
    + exact Hnd.
    + intros f _ [].
Qed.

Lemma resumed_run_gives_the_planned_manifest_witness :
  let L := [("a.png", planned_entry OsPath.Posix no_optimizer sha_stub default_args "bk" a_png)] in
  NoDup (map f_name (limit_files default_args [a_png]))
  /\ distinct_object_names OsPath.Posix no_optimizer default_args
       (limit_files default_args [a_png])
  /\ ledger_as_planned OsPath.Posix no_optimizer sha_stub default_args "bk"
       (limit_files default_args [a_png])
       (initial_ledger true (Some (Some (state_json "bk" "t" L))))
  /\ match run_book OsPath.Posix post_ok noon no_optimizer sha_stub dumps_stub
             default_args 0 "bk" (Some (Some (state_json "bk" "t" L))) [a_png] [] with
     | (_, Val out) =>
         ix_entries (br_index out)
         = [planned_entry OsPath.Posix no_optimizer sha_stub default_args "bk" a_png]
     | _ => False
     end.
Proof.
  cbv zeta.
  assert (Hnd : NoDup (map f_name (limit_files default_args [a_png]))).
  { repeat constructor. intros []. }
  assert (Hdist : distinct_object_names OsPath.Posix no_optimizer default_args
                    (limit_files default_args [a_png])).
  { intros f g p q [<-|[]] [<-|[]] _ _ _. reflexivity. }
  assert (Hled : ledger_as_planned OsPath.Posix no_optimizer sha_stub default_args "bk"
                   (limit_files default_args [a_png])
                   (initial_ledger (negb (a_no_resume default_args)
                                    && negb (a_dry_run default_args))
                      (Some (Some (state_json "bk" "t"
                         [("a.png", planned_entry OsPath.Posix no_optimizer sha_stub
                                      default_args "bk" a_png)]))))).
  { intros f e [<-|[]] He _. vm_compute in He. injection He as <-. reflexivity. }
  split; [exact Hnd|]. split; [exact Hdist|]. split; [exact Hled|].
  destruct (run_book OsPath.Posix post_ok noon no_optimizer sha_stub dumps_stub
              default_args 0 "bk"
              (Some (Some (state_json "bk" "t"
                 [("a.png", planned_entry OsPath.Posix no_optimizer sha_stub
                              default_args "bk" a_png)]))) [a_png] [])
    as [ev [out|e|c]] eqn:E.
  - exact (proj1 (resumed_run_gives_the_planned_manifest _ _ _ _ _ _ _ _ _ _ _ _ _ _
                    Hnd Hdist Hled E)).
  - vm_compute in E. discriminate E.
  - vm_compute in E. discriminate E.
Defined.

End PlanMore.

(** ** Facts about the env parser and resolver *)

Module EnvFacts.
Import PyStr Json Driver Env EnvShape EnvInputs StrFacts DriverFacts RerunFacts RunFacts.
Local Open Scope string_scope.

Lemma l2s_nonempty c t : l2s (c :: t) <> "".
Proof. discriminate. Qed.

Lemma filled_set d k v : filled d -> k <> "" -> v <> "" -> filled (dict_set d k v).
Proof.
  intros Hd Hk Hv. induction Hd as [|[k' v'] d [Hk' Hv'] Hd IH]; simpl.
  - repeat constructor; assumption.
  - destruct (String.eqb k k'); constructor; simpl; auto.
Qed.

Lemma filled_get d k v : filled d -> dict_get d k = Some v -> k <> "" /\ v <> "".
Proof.
  intros Hd. induction Hd as [|[k' v'] d [Hk' Hv'] Hd IH]; simpl; [discriminate|].
  destruct (String.eqb k k') eqn:E; [|exact IH].
  apply String.eqb_eq in E. subst k'. intros [= <-]. auto.
Qed.

Lemma key_value_line_filled out raw : filled out -> filled (key_value_line out raw).
Proof.
  intros H. unfold key_value_line. destruct (blank_or_comment _); [exact H|].
  destruct (split_eq _) as [[k v]|]; [|exact H].
  destruct (strip k) as [|c t]; [exact H|].
  destruct (strip_by _ _) as [|c' t']; [exact H|].
  apply filled_set; [exact H | discriminate | discriminate].
Qed.

Lemma key_value_pass_filled lines : forall out,
  filled out -> filled (fold_left key_value_line lines out).
Proof.
  induction lines as [|l lines IH]; intros out H; simpl; [exact H|].
  apply IH, key_value_line_filled, H.
Qed.

Lemma fill_filled label key line c t out :
  key <> "" -> filled out -> filled (fill label key line (c :: t) out).
Proof.
  intros Hk H. unfold fill. destruct (_ && _); [|exact H].
  apply filled_set; [exact H | exact Hk | discriminate].
Qed.

Lemma heading_line_filled raw next out : filled out -> filled (heading_line raw next out).
Proof.
  intros H. unfold heading_line. destruct (blank_or_comment _); [exact H|].
  destruct (strip next) as [|c t]; [exact H|].
  repeat (apply fill_filled; [discriminate|]). exact H.
Qed.

Lemma heading_pass_filled lines : forall out,
  filled out -> filled (heading_pass lines out).
Proof.
  induction lines as [|l lines IH]; intros out H; [exact H|].
  cbn [heading_pass]. destruct lines as [|n rest]; [exact H|].
  apply IH, heading_line_filled, H.
Qed.

(** The second pass leaves what the first pass found. *)
Lemma fill_keeps label key line nxt out k v :
  dict_get out k = Some v -> dict_get (fill label key line nxt out) k = Some v.
Proof.
  intros H. unfold fill. destruct (contains _ _); [|exact H]. simpl.
  unfold dict_has. destruct (dict_get out key) eqn:E; [exact H|]. simpl.
  rewrite dict_get_set. destruct (String.eqb k key) eqn:Ek; [|exact H].
  apply String.eqb_eq in Ek. subst. congruence.
Qed.

Lemma fill_other label key line nxt out k :
  k <> key -> dict_get (fill label key line nxt out) k = dict_get out k.
Proof.
  intros Hk. unfold fill. destruct (_ && _); [|reflexivity].
  rewrite dict_get_set. apply String.eqb_neq in Hk. now rewrite Hk.
Qed.

Lemma heading_line_keeps raw next out k v :
  dict_get out k = Some v -> dict_get (heading_line raw next out) k = Some v.
Proof.
  intros H. unfold heading_line. destruct (blank_or_comment _); [exact H|].
  destruct (strip next); [exact H|]. now repeat apply fill_keeps.
Qed.

Lemma heading_line_other raw next out k :
  ~ In k heading_keys -> dict_get (heading_line raw next out) k = dict_get out k.
Proof.
  intros Hk. unfold heading_line. destruct (blank_or_comment _); [reflexivity|].
  destruct (strip next); [reflexivity|].
  rewrite !fill_other; [reflexivity | | | |];
    intros ->; apply Hk; simpl; auto.
Qed.

Lemma heading_pass_keeps lines : forall out k v,
  dict_get out k = Some v -> dict_get (heading_pass lines out) k = Some v.
Proof.
  induction lines as [|l lines IH]; intros out k v H; [exact H|].
  cbn [heading_pass]. destruct lines as [|n rest]; [exact H|].
  apply IH, heading_line_keeps, H.
Qed.

Lemma heading_pass_other lines : forall out k,
  ~ In k heading_keys -> dict_get (heading_pass lines out) k = dict_get out k.
Proof.
  induction lines as [|l lines IH]; intros out k H; [reflexivity|].
  cbn [heading_pass]. destruct lines as [|n rest]; [reflexivity|].
  rewrite IH by exact H. now apply heading_line_other.
Qed.

(** *** [resolve_env] *)

Lemma usable_stripped x v : usable x = Some v -> stripped_value v.
Proof.
  unfold usable. destruct x as [s|]; [|discriminate].
  destruct (strip (s2l s)) as [|c t] eqn:E; [discriminate|].
  intros [= <-]. split; [discriminate|].
  change (String c (l2s t)) with (l2s (c :: t)).
  rewrite SanitizerMore.s2l_l2s. f_equal. rewrite <- E.
  apply strip_by_id; [apply strip_by_head_ok | apply strip_by_last_ok].
Qed.

Lemma from_environ_get environ required : forall acc k,
  dict_get (fold_left (fun resolved k =>
                         match usable (environ k) with
                         | Some v => dict_set resolved k v
                         | None => resolved
                         end) required acc) k
  = match (if mem k required then usable (environ k) else None) with
    | Some v => Some v
    | None => dict_get acc k
    end.
Proof.
  induction required as [|r required IH]; intros acc k; [reflexivity|].
  cbn [fold_left]. rewrite IH. unfold mem. cbn [existsb].
  destruct (existsb (String.eqb k) required) eqn:Em.
  - rewrite orb_true_r. destruct (usable (environ k)) eqn:Eu; [reflexivity|].
    destruct (usable (environ r)) eqn:Er; [|reflexivity].
    rewrite dict_get_set. destruct (String.eqb k r) eqn:Ek; [|reflexivity].
    apply String.eqb_eq in Ek. subst. congruence.
  - rewrite orb_false_r. destruct (String.eqb k r) eqn:Ek.
    + apply String.eqb_eq in Ek. subst r. destruct (usable (environ k)); [|reflexivity].
      now rewrite dict_get_set, String.eqb_refl.
    + destruct (usable (environ r)); [|reflexivity]. rewrite dict_get_set. now rewrite Ek.
Qed.

Lemma from_file_get data required : forall resolved k,
  dict_get (from_file data required resolved) k
  = match dict_get resolved k with
    | Some v => Some v
    | None => if mem k required then usable (dict_get data k) else None
    end.
Proof.
  unfold from_file.
  induction required as [|r required IH]; intros resolved k.
  - cbn. destruct (dict_get resolved k); reflexivity.
  - cbn [fold_left]. rewrite IH. unfold mem. cbn [existsb].
    unfold dict_has. destruct (dict_get resolved r) eqn:Er.
    + destruct (dict_get resolved k) eqn:Hk; [reflexivity|].
      destruct (String.eqb k r) eqn:Ek; [|reflexivity].
      apply String.eqb_eq in Ek. subst. congruence.
    + destruct (usable (dict_get data r)) eqn:Eu.
      * rewrite dict_get_set. destruct (String.eqb k r) eqn:Ek.
        -- apply String.eqb_eq in Ek. subst. rewrite Er. simpl. now rewrite Eu.
        -- reflexivity.
      * destruct (dict_get resolved k); [reflexivity|].
        destruct (String.eqb k r) eqn:Ek; [|reflexivity].
        apply String.eqb_eq in Ek. subst. rewrite Eu.
        now destruct (existsb (String.eqb r) required).
Qed.

Lemma mem_in k l : mem k l = true <-> In k l.
Proof.
  unfold mem. rewrite existsb_exists. split.
  - intros (y & Hy & E). apply String.eqb_eq in E. now subst.
  - intros H. exists k. split; [exact H | apply String.eqb_refl].
Qed.

Lemma from_environ_well environ required :
  well_resolved environ required (from_environ environ required).
Proof.
  intros k v H. unfold from_environ in H. rewrite from_environ_get in H.
  destruct (mem k required) eqn:Em; [|discriminate].
  destruct (usable (environ k)) eqn:Eu; [|discriminate]. injection H as <-.
  split; [now apply mem_in|]. split; [now apply (usable_stripped _ _ Eu)|].
  now intros w [= <-].
Qed.

Lemma from_environ_none environ required k :
  In k required -> dict_get (from_environ environ required) k = None ->
  usable (environ k) = None.
Proof.
  intros Hin H. unfold from_environ in H. rewrite from_environ_get in H.
  apply mem_in in Hin. rewrite Hin in H. now destruct (usable (environ k)).
Qed.

Lemma from_file_well environ required data d :
  (forall k, In k required -> dict_get d k = None -> usable (environ k) = None) ->
  well_resolved environ required d ->
  well_resolved environ required (from_file data required d).
Proof.
  intros Henv Hd k v H. rewrite from_file_get in H.
  destruct (dict_get d k) eqn:Ed.
  - injection H as <-. now apply Hd.
  - destruct (mem k required) eqn:Em; [|discriminate].
    apply mem_in in Em. split; [exact Em|]. split; [now apply (usable_stripped _ _ H)|].
    intros w Hw. rewrite (Henv k Em Ed) in Hw. discriminate.
Qed.

Lemma from_file_none data required d k :
  dict_get (from_file data required d) k = None ->
  dict_get d k = None /\ (In k required -> usable (dict_get data k) = None).
Proof.
  rewrite from_file_get. destruct (dict_get d k); [discriminate|].
  intros H. split; [reflexivity|]. intros Hin. apply mem_in in Hin. now rewrite Hin in H.
Qed.

Lemma from_files_well environ required files : forall d,
  (forall k, In k required -> dict_get d k = None -> usable (environ k) = None) ->
  well_resolved environ required d ->
  well_resolved environ required (from_files files required d).
Proof.
  induction files as [|file files IH]; intros d Henv Hd; [exact Hd|].
  cbn [from_files]. destruct (forallb (dict_has d) required); [exact Hd|].
  destruct file as [content|]; [|now apply IH].
  apply IH.
  - intros k Hin Hk. apply from_file_none in Hk as [Hk _]. now apply Henv.
  - now apply from_file_well.
Qed.

Lemma from_files_none required files : forall d k,
  In k required ->
  dict_get (from_files files required d) k = None ->
  dict_get d k = None
  /\ forall content, In (Some content) files ->
       usable (dict_get (_parse_dotenv_file content) k) = None.
Proof.
  induction files as [|file files IH]; intros d k Hin H.
  - split; [exact H | intros content []].
  - cbn [from_files] in H.
    destruct (forallb (dict_has d) required) eqn:Eall.
    + exfalso. rewrite forallb_forall in Eall. specialize (Eall k Hin).
      unfold dict_has in Eall. rewrite H in Eall. discriminate.
    + destruct file as [content|].
      * destruct (IH _ _ Hin H) as [H1 H2].
        apply from_file_none in H1 as [H1 H3].
        split; [exact H1|]. intros c [[= <-]|Hc]; [now apply H3 | now apply H2].
      * destruct (IH _ _ Hin H) as [H1 H2].
        split; [exact H1|]. intros c [[=]|Hc]. now apply H2.
Qed.

End EnvFacts.

(** ** The env parser and resolver *)

Module EnvMore.
Import PyStr Json Env EnvShape EnvInputs EnvFacts.
Local Open Scope string_scope.

(** X23: [_parse_dotenv_file] never yields an empty key or an empty value;
    an unreadable file yields nothing. *)
Theorem parsed_env_has_no_empty_entry :
  forall content k v,
    dict_get (_parse_dotenv_file content) k = Some v -> k <> "" /\ v <> "".
Proof.
  intros content k v H. apply (filled_get (_parse_dotenv_file content)); [|exact H].
  destruct content as [text|]; [|constructor].
  apply heading_pass_filled, key_value_pass_filled. constructor.
Qed.

Lemma parsed_env_has_no_empty_entry_witness :
  dict_get (_parse_dotenv_file (Some sample_env)) "SUPABASE_URL"
  = Some "https://x.supabase.co"
  /\ dict_get (_parse_dotenv_file (Some sample_env)) "SUPABASE_SERVICE_ROLE_KEY"
     = Some "secret"
  /\ "SUPABASE_URL" <> "".
Proof.
  assert (H : dict_get (_parse_dotenv_file (Some sample_env)) "SUPABASE_URL"
              = Some "https://x.supabase.co") by (vm_compute; reflexivity).
  split; [exact H|]. split; [vm_compute; reflexivity|].
  exact (proj1 (parsed_env_has_no_empty_entry _ _ _ H)).
Defined.

(** X24: in [_parse_dotenv_file] a key set by a KEY=VALUE line keeps that
    value, and keys other than the four heading keys come from KEY=VALUE
    lines only. *)
Theorem key_value_lines_win_over_headings :
  forall (text : string) k,
    let first := key_value_pass (splitlines (s2l text)) in
    (forall v, dict_get first k = Some v ->
       dict_get (_parse_dotenv_file (Some text)) k = Some v)
    /\ (~ In k ["SUPABASE_URL"; "SUPABASE_ANON_KEY"; "SUPABASE_SERVICE_ROLE_KEY";
                "SUPABASE_ACCESS_TOKEN"] ->
        dict_get (_parse_dotenv_file (Some text)) k = dict_get first k).
Proof.
  intros text k. cbv zeta. split.
  - intros v H. now apply heading_pass_keeps.
  - intros H. now apply heading_pass_other.
Qed.

(** X25: when [resolve_env] returns, every required name has a value that
    is not empty and has no whitespace around it, only required names are
    present, and a name with a usable value in the process environment has
    that value, whatever the files hold. *)
Theorem resolved_env_is_complete :
  forall environ files required d,
    resolve_env environ files required = Resolved d ->
    (forall k, In k required ->
       exists v, dict_get d k = Some v /\ v <> "" /\ l2s (strip (s2l v)) = v)
    /\ (forall k v, dict_get d k = Some v -> In k required)
    /\ (forall k w, In k required -> usable (environ k) = Some w ->
          dict_get d k = Some w).
Proof.
  intros environ files required d H. unfold resolve_env in H.
  set (res := from_files files required (from_environ environ required)) in *.
  assert (Hwell : well_resolved environ required res).
  { apply from_files_well; [|apply from_environ_well].
    intros k Hin Hk. now apply (from_environ_none environ required). }
  destruct (filter _ required) as [|m ms] eqn:Ef; [|discriminate].
  injection H as <-.
  assert (Hall : forall k, In k required -> exists v, dict_get res k = Some v).
  { intros k Hin. destruct (dict_get res k) as [v|] eqn:Ek; [eauto|]. exfalso.
    assert (Hm : In k (filter (fun k => negb (dict_has res k)) required)).
    { apply filter_In. split; [exact Hin|]. unfold dict_has. now rewrite Ek. }
    rewrite Ef in Hm. contradiction. }
  split; [|split].
  - intros k Hin. destruct (Hall k Hin) as [v Hv]. exists v. split; [exact Hv|].
    destruct (Hwell k v Hv) as (_ & Hs & _). exact Hs.
  - intros k v Hv. now destruct (Hwell k v Hv).
  - intros k w Hin Hw. destruct (Hall k Hin) as [v Hv]. rewrite Hv. f_equal.
    destruct (Hwell k v Hv) as (_ & _ & He). now apply He.
Qed.

Lemma resolved_env_is_complete_witness :
  resolve_env (fun k => if (k =? "SUPABASE_URL")%string then Some " https://e " else None)
    [None; Some (Some sample_env)] ["SUPABASE_URL"; "SUPABASE_SERVICE_ROLE_KEY"]
  = Resolved [("SUPABASE_URL", "https://e"); ("SUPABASE_SERVICE_ROLE_KEY", "secret")]
  /\ forall k, In k ["SUPABASE_URL"; "SUPABASE_SERVICE_ROLE_KEY"] ->
       exists v, dict_get [("SUPABASE_URL", "https://e");
                           ("SUPABASE_SERVICE_ROLE_KEY", "secret")] k = Some v
                 /\ v <> "" /\ l2s (strip (s2l v)) = v.
Proof.
  assert (H : resolve_env
                (fun k => if (k =? "SUPABASE_URL")%string then Some " https://e " else None)
                [None; Some (Some sample_env)] ["SUPABASE_URL"; "SUPABASE_SERVICE_ROLE_KEY"]
              = Resolved [("SUPABASE_URL", "https://e");
                          ("SUPABASE_SERVICE_ROLE_KEY", "secret")])
    by (vm_compute; reflexivity).
  split; [exact H|]. exact (proj1 (resolved_env_is_complete _ _ _ _ H)).
Defined.

(** X26: [resolve_env] leaves with the list of missing names only when that
    list is not empty, and each name on it is required and has no usable
    value in the process environment nor in any candidate file that
    exists. *)
Theorem blocked_only_when_a_name_is_nowhere :
  forall environ files required missing,
    resolve_env environ files required = Blocked missing ->
    missing <> []
    /\ forall k, In k missing ->
         In k required
         /\ usable (environ k) = None
         /\ forall content, In (Some content) files ->
              usable (dict_get (_parse_dotenv_file content) k) = None.
Proof.
  intros environ files required missing H. unfold resolve_env in H.
  set (res := from_files files required (from_environ environ required)) in *.
  destruct (filter _ required) as [|m ms] eqn:Ef; [discriminate|].
  injection H as <-. split; [discriminate|].
  intros k Hk. rewrite <- Ef in Hk. apply filter_In in Hk as [Hin Hno].
  assert (Hnone : dict_get res k = None).
  { unfold dict_has in Hno. now destruct (dict_get res k). }
  destruct (from_files_none _ _ _ _ Hin Hnone) as [H1 H2].
  split; [exact Hin|]. split; [|exact H2].
  now apply (from_environ_none environ required).
Qed.

Lemma blocked_only_when_a_name_is_nowhere_witness :
  resolve_env no_environ [None; Some (Some sample_env)] ["SUPABASE_URL"; "OTHER"]
  = Blocked ["OTHER"]
  /\ usable (no_environ "OTHER") = None.
Proof.
  assert (H : resolve_env no_environ [None; Some (Some sample_env)] ["SUPABASE_URL"; "OTHER"]
              = Blocked ["OTHER"]) by (vm_compute; reflexivity).
  split; [exact H|].
  destruct (blocked_only_when_a_name_is_nowhere _ _ _ _ H) as [_ Hk].
  exact (proj1 (proj2 (Hk "OTHER" (or_introl eq_refl)))).
Defined.

End EnvMore.

(** ** Facts about quoting *)

Module UrlFacts.
Import PyStr OsPath Sanitizer NameParts Url CharFacts SanitizerFacts SanitizerMore.

Lemma hex_upper_url n : (n < 16)%N -> url_char (hex_upper n) = true.
Proof.
  intros H.
  assert (Hn : In n (map N.of_nat (seq 0 16))).
  { replace n with (N.of_nat (N.to_nat n)) by apply N2Nat.id.
    apply in_map, in_seq. lia. }
  simpl in Hn.
  repeat (destruct Hn as [<- | Hn]; [reflexivity |]). contradiction.
Qed.

Lemma quote_byte_url b : (b < 256)%N -> Forall (fun c => url_char c = true) (quote_byte b).
Proof.
  intros Hb. unfold quote_byte.
  destruct ((b <? 128)%N && _) eqn:E.
  - constructor; [|constructor]. apply andb_true_iff in E as [_ E].
    unfold url_char. apply orb_true_iff in E as [-> | ->]; [reflexivity|].
    now rewrite orb_true_r.
  - constructor; [reflexivity|]. constructor; [|constructor; [|constructor]].
    + apply hex_upper_url. apply N.Div0.div_lt_upper_bound. lia.
    + apply hex_upper_url. apply N.mod_lt. lia.
Qed.

Lemma utf8_bytes s : Forall (fun b => (b < 256)%N) (utf8_encode s).
Proof.
  unfold utf8_encode. induction s as [|c t IH]; [constructor|].
  cbn [flat_map]. apply Forall_app. split; [|exact IH].
  assert (Hc : (code c < 256)%N) by apply N_ascii_bounded.
  destruct (code c <? 128)%N eqn:E.
  - apply N.ltb_lt in E. constructor; [lia | constructor].
  - assert (code c / 64 < 4)%N by (apply N.Div0.div_lt_upper_bound; lia).
    assert (code c mod 64 < 64)%N by (apply N.mod_lt; lia).
    constructor; [lia|]. constructor; [lia | constructor].
Qed.

Lemma quote_safe_char c :
  always_safe c || is_char slash c = true ->
  flat_map quote_byte (utf8_encode [c]) = [c].
Proof.
  destruct c as [[] [] [] [] [] [] [] []]; vm_compute; intros H;
    first [reflexivity | discriminate H].
Qed.

Lemma quote_cons c s : quote (c :: s) = flat_map quote_byte (utf8_encode [c]) ++ quote s.
Proof.
  unfold quote, utf8_encode. cbn [flat_map]. rewrite app_nil_r.
  now rewrite flat_map_app.
Qed.

Lemma quote_id s :
  forallb (fun c => always_safe c || is_char slash c) s = true -> quote s = s.
Proof.
  induction s as [|c t IH]; [reflexivity|]. cbn [forallb].
  intros H. apply andb_true_iff in H as [Hc Ht].
  rewrite quote_cons, (quote_safe_char c Hc), IH by exact Ht. reflexivity.
Qed.

Lemma allowed_always_safe c : allowed c = true -> always_safe c || is_char slash c = true.
Proof.
  destruct c as [[] [] [] [] [] [] [] []]; vm_compute; intros H;
    first [reflexivity | discriminate H].
Qed.

End UrlFacts.

(** ** The URL of an upload *)

Module UrlMore.
Import PyStr OsPath Sanitizer NameParts World Url UrlInputs UrlFacts SanitizerFacts SanitizerMore Inputs.
Local Open Scope string_scope.

(** X27: the quoted object path of the upload URL holds only letters, digits,
    underscore, dot, hyphen, tilde, slash and the percent sign. *)
Theorem quoted_path_is_url_safe :
  forall s : str, forallb url_char (quote s) = true.
Proof.
  intros s. apply forallb_forall. unfold quote.
  intros c Hc. apply in_flat_map in Hc as (b & Hb & Hc).
  pose proof (utf8_bytes s) as Hall. rewrite Forall_forall in Hall.
  pose proof (quote_byte_url b (Hall b Hb)) as Hq. rewrite Forall_forall in Hq.
  now apply Hq.
Qed.

(** X28: when the extension of a name lies within the class and the folder
    is URL-safe, the upload URL ends in the object path as it is: a
    sanitized name needs no escaping. *)
Theorem sanitized_name_needs_no_quoting :
  forall os (name : string) (max_len : Z) (folder supabase_url : string) (rq : request),
    forallb allowed (stored_ext os (s2l name)) = true ->
    forallb (fun c => always_safe c || is_char slash c) (s2l folder) = true ->
    rq_object_path rq = folder ++ safe_storage_filename_len os name max_len ->
    upload_url supabase_url rq
    = l2s (rstrip_by (is_char slash) (s2l supabase_url))
      ++ "/storage/v1/object/" ++ rq_bucket rq ++ "/" ++ rq_object_path rq.
Proof.
  intros os name max_len folder supabase_url rq Hext Hfolder Hpath.
  unfold upload_url. do 4 f_equal.
  rewrite quote_id; [apply string_of_list_ascii_of_string|].
  rewrite Hpath.
  assert (Happ : forall a b : string, s2l (a ++ b) = (s2l a ++ s2l b)%list).
  { induction a as [|c a IH]; intros b; simpl; [reflexivity | now rewrite IH]. }
  rewrite Happ, forallb_app, Hfolder. cbn [andb].
  unfold safe_storage_filename_len. rewrite s2l_l2s.
  destruct (sanitize_base_in_class os max_len (s2l name)) as (sb & -> & Ha).
  rewrite forallb_app. apply andb_true_iff. split.
  - apply forallb_forall. intros c Hc. apply allowed_always_safe.
    rewrite forallb_forall in Ha. now apply Ha.
  - apply forallb_forall. intros c Hc. apply allowed_always_safe.
    unfold stored_ext, raw_of in Hext. rewrite forallb_forall in Hext. now apply Hext.
Qed.

Lemma sanitized_name_needs_no_quoting_witness :
  forallb allowed (stored_ext Posix (s2l "Fig 3-1 (final).TIF")) = true
  /\ forallb (fun c => always_safe c || is_char slash c) (s2l "library/bk/images/") = true
  /\ upload_url "https://x.supabase.co/" fig_request
     = "https://x.supabase.co/storage/v1/object/books/library/bk/images/Fig_3-1_final.tif"
  /\ quote (s2l "library/bk/images/Fig 3-1 (final).TIF")
     = s2l "library/bk/images/Fig%203-1%20%28final%29.TIF".
Proof.
  split; [reflexivity|]. split; [reflexivity|]. split; [|vm_compute; reflexivity].
  rewrite (sanitized_name_needs_no_quoting Posix "Fig 3-1 (final).TIF" 180
             "library/bk/images/" "https://x.supabase.co/" fig_request
             eq_refl eq_refl eq_refl).
  vm_compute. reflexivity.
Defined.

End UrlMore.

(** ** The optimizer and its TIFF fallback *)

Module OptimizerMore.
Import Py Budget Driver Tiff Optimizer Inputs MoreInputs OptimizerInputs TiffClaims.
Local Open Scope string_scope.
Local Open Scope Z_scope.


Section Libraries.

Variable img : Type.
Variable im_mode : img -> string.
Variable getbands : img -> list string.
Variable im_size : img -> Z * Z.
Variable open_transposed : local_file -> call img.
Variable convert : img -> string -> call img.
Variable thumbnail : img -> Z -> call img.
Variable flatten_on_white : img -> call img.
Variable save_jpeg : img -> Z -> call (list N).
Variable save_png : img -> call (list N).
Variable have_packages : bool.
Variable read_shape : local_file -> call (list Z).
Variable read_array : local_file -> call (list (list (list Z))).
Variable cmyk_to_rgb : list Z -> list Z.
Variable rgb_of_three : list Z -> list Z.
Variable rgb_of_gray : Z -> list Z.
Variable encode_rgb : list (list (list Z)) -> Z -> call (list N).

Local Abbreviation streaming :=
  (optimize_tiff_streaming have_packages read_shape read_array cmyk_to_rgb rgb_of_three
     rgb_of_gray encode_rgb).
Local Abbreviation pillow :=
  (with_pillow img im_mode getbands im_size open_transposed convert thumbnail
     flatten_on_white save_jpeg save_png).
Local Abbreviation optimize :=
  (optimize_image img im_mode getbands im_size open_transposed convert thumbnail
     flatten_on_white save_jpeg save_png have_packages read_shape read_array cmyk_to_rgb
     rgb_of_three rgb_of_gray encode_rgb).

Lemma streaming_shape f max_px q o :
  streaming f max_px q = inr o ->
  have_packages = true /\ max_px <> 0
  /\ output_ext o = "jpg" /\ mode o = "RGB"
  /\ exists h w more arr (g : list Z -> list Z),
       read_shape f = inr (h :: w :: more)
       /\ read_array f = inr arr
       /\ height o = Z.of_nat (length (sample arr h w max_px))
       /\ width o = Z.of_nat (length (hd [] (map (map g) (sample arr h w max_px)))).
Proof.
  unfold optimize_tiff_streaming. destruct have_packages; [|discriminate]. cbn [negb].
  unfold and_then. destruct (read_shape f) as [e|shape]; [discriminate|].
  destruct shape as [|h [|w more]]; try discriminate.
  destruct (max_px =? 0) eqn:E0; [discriminate|]. apply Z.eqb_neq in E0.
  destruct (read_array f) as [e|arr]; [discriminate|].
  destruct (encode_rgb _ q); [discriminate|]. intros [= <-].
  split; [reflexivity|]. split; [exact E0|]. split; [reflexivity|]. split; [reflexivity|].
  cbn [height width].
  destruct (4 <=? match more with s :: _ => s | [] => 1 end);
    [|destruct (match more with s :: _ => s | [] => 1 end =? 3)];
    eexists h, w, more, arr, _;
    (split; [reflexivity|]); (split; [reflexivity|]);
    (split; [now rewrite length_map | reflexivity]).
Qed.

Lemma pillow_format f max_px q alpha o :
  pillow f max_px q alpha = inr o ->
  exists im0, open_transposed f = inr im0
    /\ ((output_ext o = "jpg" /\ (has_alpha img im_mode getbands im0 = true -> mode o = "RGB"))
        \/ (output_ext o = "png" /\ alpha = AlphaPng
            /\ has_alpha img im_mode getbands im0 = true))
    /\ (has_alpha img im_mode getbands im0 = true -> alpha = AlphaPng ->
        output_ext o = "png").
Proof.
  unfold with_pillow, and_then.
  destruct (open_transposed f) as [e|im]; [discriminate|].
  intros H. exists im. split; [reflexivity|]. revert H.
  destruct (has_alpha img im_mode getbands im).
  - destruct (if negb (im_mode im =? "RGBA")%string then convert im "RGBA" else inr im)
      as [e|im1]; [discriminate|].
    destruct (im_size im1) as [w h].
    destruct (if max_px <? Z.max w h then thumbnail im1 max_px else inr im1)
      as [e|im2]; [discriminate|].
    destruct (im_size im2) as [ow oh]. destruct alpha.
    + destruct (save_png im2); [discriminate|]. intros [= <-]. split; [right|]; auto.
    + destruct (flatten_on_white im2); [discriminate|].
      destruct (save_jpeg _ q); [discriminate|]. intros [= <-].
      split; [left; auto | discriminate].
  - destruct (if negb (im_mode im =? "RGB")%string then convert im "RGB" else inr im)
      as [e|im1]; [discriminate|].
    destruct (im_size im1) as [w h].
    destruct (if max_px <? Z.max w h then thumbnail im1 max_px else inr im1)
      as [e|im2]; [discriminate|].
    destruct (im_size im2) as [ow oh].
    destruct (save_jpeg _ q); [discriminate|]. intros [= <-].
    split; [left; split; [reflexivity | discriminate] | discriminate].
Qed.

(** X29: whatever the libraries do, a result of [optimize_image] is a JPEG
    unless the alpha mode is png and the opened image has an alpha channel,
    then it is a PNG; its content type is image/jpeg or image/png; and for
    a file that is not a TIFF the result is that of Pillow. *)
Theorem optimized_image_is_jpeg_unless_alpha_is_kept :
  forall f max_px q alpha o,
    optimize f max_px q alpha = Returned o ->
    (output_ext o = "jpg" \/ (output_ext o = "png" /\ alpha = AlphaPng))
    /\ (alpha = AlphaFlattenWhiteJpeg -> output_ext o = "jpg")
    /\ (output_ext o = "png" ->
        exists im0, open_transposed f = inr im0
                    /\ has_alpha img im_mode getbands im0 = true)
    /\ In (mime_for_ext (output_ext o)) ["image/jpeg"; "image/png"]
    /\ (~ In (ext_of (f_name f)) ["tif"; "tiff"] ->
        pillow f max_px q alpha = inr o).
Proof.
  intros f max_px q alpha o H. unfold optimize_image in H.
  destruct (pillow f max_px q alpha) as [e|o'] eqn:Ep.
  - assert (Hs : streaming f max_px q = inr o
                 /\ mem (ext_of (f_name f)) ["tif"; "tiff"] = true).
    { destruct (is_unidentified e); [|discriminate].
      destruct (mem (ext_of (f_name f)) ["tif"; "tiff"]); [|discriminate].
      destruct (streaming f max_px q); [discriminate|]. injection H as <-. auto. }
    destruct Hs as [Hs Hext].
    destruct (streaming_shape _ _ _ _ Hs) as (_ & _ & Hj & _).
    rewrite Hj. split; [now left|]. split; [reflexivity|]. split; [discriminate|].
    split; [left; reflexivity|].
    intros Hno. exfalso. apply Hno. apply PolicyMore.mem_cases. exact Hext.
  - injection H as <-.
    destruct (pillow_format _ _ _ _ _ Ep) as (im0 & Hopen & Hfmt & _).
    destruct Hfmt as [[Hj _]|(Hp & Ha & Hal)].
    + rewrite Hj. split; [now left|]. split; [reflexivity|]. split; [discriminate|].
      split; [left; reflexivity | reflexivity].
    + rewrite Hp. split; [right; auto|]. split; [intros ->; discriminate|].
      split; [intros _; eauto|]. split; [right; left; reflexivity | reflexivity].
Qed.


End Libraries.

Lemma optimized_image_is_jpeg_unless_alpha_is_kept_witness :
  toy_optimize a_png 3 85 AlphaPng
  = Returned {| output_bytes := [137%N]; output_ext := "png";
                width := 3; height := 1; mode := "RGBA" |}
  /\ toy_optimize a_png 3 85 AlphaFlattenWhiteJpeg
     = Returned {| output_bytes := [255%N]; output_ext := "jpg";
                   width := 3; height := 1; mode := "RGB" |}
  /\ ("jpg" = "jpg" \/ "jpg" = "png" /\ AlphaFlattenWhiteJpeg = AlphaPng).
Proof.
  split; [vm_compute; reflexivity|].
  assert (H : toy_optimize a_png 3 85 AlphaFlattenWhiteJpeg
              = Returned {| output_bytes := [255%N]; output_ext := "jpg";
                            width := 3; height := 1; mode := "RGB" |})
    by (vm_compute; reflexivity).
  split; [exact H|].
  exact (proj1 (optimized_image_is_jpeg_unless_alpha_is_kept _ _ _ _ _ _ _ _ _ _ _ _ _ _
                  _ _ _ _ _ _ _ _ H)).
Defined.


End OptimizerMore.
